(** * Atlas Civico: issue normalisation, reporting, comment removal,
      optimistic upvotes and the category filter.

    A shallow embedding of [src/services/issue-service.ts] and of the
    state logic of the map page [src/app/page.tsx].  JavaScript values are
    modelled as the code uses them: strings are sequences of UTF-16 code
    units, a [Set] is an insertion-ordered sequence without duplicates,
    a [Date] is its [getTime()] value (milliseconds since the epoch),
    arithmetic on the fields of a [Timestamp] is that of doubles, and
    the Firestore client is an explicit state with a log of the calls
    issued to it. *)

From Stdlib Require Import ZArith QArith List Lia.
From Stdlib Require Import Sorting.Sorted Sorting.Permutation.
From Stdlib Require Import Strings.String Strings.Ascii.
From Stdlib Require Floats.SpecFloat.
From stdpp Require Import gmap list sorting.
Import ListNotations.
Local Open Scope Z_scope.

(** ** JavaScript strings *)

Module Js.

(** A string is a sequence of 16-bit code units. *)
Definition JsString := list N.

(** An ASCII literal of the source as a JavaScript string. *)
Definition lit (s : string) : JsString :=
  map N_of_ascii (list_ascii_of_string s).

(** [WhiteSpace] and [LineTerminator] code points of ECMAScript, the ones
    [String.prototype.trim] strips.  All of them are in the BMP. *)
Definition isWhiteSpace (c : N) : bool :=
  ((9 <=? c) && (c <=? 13) || (c =? 32) || (c =? 160) || (c =? 5760)
   || (8192 <=? c) && (c <=? 8202) || (c =? 8232) || (c =? 8233)
   || (c =? 8239) || (c =? 8287) || (c =? 12288) || (c =? 65279))%N.

Fixpoint trimStart (s : JsString) : JsString :=
  match s with
  | [] => []
  | c :: r => if isWhiteSpace c then trimStart r else s
  end.

Definition trimEnd (s : JsString) : JsString := rev (trimStart (rev s)).

(** [s.trim()] *)
Definition trim (s : JsString) : JsString := trimEnd (trimStart s).

(** Truthiness of a string: the empty string is falsy. *)
Definition truthy (s : JsString) : bool :=
  match s with [] => false | _ => true end.

(** *** encodeURIComponent *)

Definition hexDigit (n : N) : N :=
  (if n <? 10 then 48 + n else 55 + n)%N.

(** [%XX], upper-case hexadecimal, of one octet. *)
Definition percent (b : N) : JsString :=
  [37%N; hexDigit (b / 16); hexDigit (b mod 16)].

(** Letters, digits and [-_.!~*'()] are left as they are. *)
Definition uriUnreserved (c : N) : bool :=
  ((65 <=? c) && (c <=? 90) || (97 <=? c) && (c <=? 122)
   || (48 <=? c) && (c <=? 57)
   || (c =? 45) || (c =? 95) || (c =? 46) || (c =? 33) || (c =? 126)
   || (c =? 42) || (c =? 39) || (c =? 40) || (c =? 41))%N.

(** The UTF-8 octets of a code point. *)
Definition utf8 (cp : N) : list N :=
  (if cp <? 128 then [cp]
   else if cp <? 2048 then [192 + cp / 64; 128 + cp mod 64]
   else if cp <? 65536 then
     [224 + cp / 4096; 128 + (cp / 64) mod 64; 128 + cp mod 64]
   else
     [240 + cp / 262144; 128 + (cp / 4096) mod 64;
      128 + (cp / 64) mod 64; 128 + cp mod 64])%N.

Definition isLeadSurrogate (c : N) : bool := ((55296 <=? c) && (c <=? 56319))%N.
Definition isTrailSurrogate (c : N) : bool := ((56320 <=? c) && (c <=? 57343))%N.

(** [None] is the [URIError] raised on an unpaired surrogate. *)
Fixpoint encodeURIComponent (s : JsString) : option JsString :=
  match s with
  | [] => Some []
  | c :: r =>
    if uriUnreserved c then option_map (cons c) (encodeURIComponent r)
    else if isTrailSurrogate c then None
    else if isLeadSurrogate c then
      match r with
      | d :: r' =>
        if isTrailSurrogate d then
          option_map
            (app (concat (map percent
               (utf8 ((c - 55296) * 1024 + (d - 56320) + 65536)%N))))
            (encodeURIComponent r')
        else None
      | [] => None
      end
    else option_map (app (concat (map percent (utf8 c)))) (encodeURIComponent r)
  end.

(** *** Numbers *)

(** An IEEE double as far as the code looks at it: not-a-number, the two
    infinities, or a finite value. *)
Inductive number :=
  | NaN
  | Infinity (negative : bool)
  | Finite (q : Q).

Definition isNaN (n : number) : bool :=
  match n with NaN => true | _ => false end.

(** A value of unknown type, where the code tests the type at run time. *)
Inductive value :=
  | Undefined
  | Null
  | Bool (b : bool)
  | Num (n : number)
  | Str (s : JsString).

(** [typeof v !== "number"] *)
Definition notNumber (v : value) : bool :=
  match v with Num _ => false | _ => true end.

(** *** Array.prototype.sort *)

(** [sort] with a comparison function is stable; with a consistent
    comparison the stable sorted arrangement is unique, so any algorithm
    gives the result of this insertion sort.  [x] goes before [y] when
    [cmp x y <= 0]. *)
Section Sort.
Context {A : Type} (cmp : A -> A -> Z).

Fixpoint insert_sorted (x : A) (l : list A) : list A :=
  match l with
  | [] => [x]
  | y :: r => if cmp x y <=? 0 then x :: l else y :: insert_sorted x r
  end.

Definition sort (l : list A) : list A := fold_right insert_sorted [] l.
End Sort.

(** *** Set *)

(** A [Set] of strings keeps its members in insertion order.  The page
    never mutates a set that is held in state (it copies with [new Set]
    first), so sets are values here. *)
Abbreviation JsSet := (list JsString) (only parsing).

Definition has (s : JsSet) (x : JsString) : bool := bool_decide (x ∈ s).

Definition add (s : JsSet) (x : JsString) : JsSet :=
  if has s x then s else s ++ [x].

Definition delete (s : JsSet) (x : JsString) : JsSet :=
  filter (fun y => y <> x) s.

(** [new Set(array)]: the members are added one by one. *)
Definition newSet (l : list JsString) : JsSet := fold_left add l [].

End Js.

Import Js.

(** ** Arithmetic on numbers *)

(** A number is a double (IEEE 754 binary64); [*], [/] and [+] give the
    double nearest to the exact result, ties to the even mantissa. *)
Module Double.

Definition prec : Z := 53.
Definition emax : Z := 1024.

Definition double := SpecFloat.spec_float.

(** An integer as a number: itself below 2^53 in magnitude, the nearest
    double otherwise. *)
Definition ofZ (z : Z) : double := SpecFloat.binary_normalize prec emax z 0 false.

Definition add : double -> double -> double := SpecFloat.SFadd prec emax.
Definition mul : double -> double -> double := SpecFloat.SFmul prec emax.
Definition div : double -> double -> double := SpecFloat.SFdiv prec emax.

(** [ToIntegerOrInfinity] of a finite number drops its fraction; there
    is no integer for an infinity or NaN. *)
Definition truncate (x : double) : option Z :=
  match x with
  | SpecFloat.S754_zero _ => Some 0
  | SpecFloat.S754_finite negative m e =>
      let magnitude := match e with
                       | Zneg k => Z.pos m / 2 ^ Z.pos k
                       | _ => Z.pos m * 2 ^ e
                       end in
      Some (if negative then - magnitude else magnitude)
  | _ => None
  end.

End Double.

(** ** Data model ([@/lib/types], as the service uses it) *)

(** [Issue['status']] is a union of three string literals. *)
Inductive IssueStatus :=
  | Recebido      (* received *)
  | EmAnalise     (* under review *)
  | Resolvido.    (* resolved *)

Inductive Role := RoleUser | RoleAdmin.

(** A [Date], by its [getTime()]. *)
Definition Date := Z.

(** Firestore's [Timestamp]: seconds since the epoch and a non-negative
    fraction in nanoseconds. *)
Record Timestamp := { seconds : Z; nanoseconds : Z }.

(** The constructor of [Timestamp] refuses any other fields with a
    range error, so these are the timestamps that exist. *)
Definition validTimestamp (t : Timestamp) : bool :=
  (0 <=? nanoseconds t) && (nanoseconds t <? 1000000000)
  && (-62135596800 <=? seconds t) && (seconds t <? 253402300800).

(** [Timestamp.toMillis()]: [this.seconds * 1000 + this.nanoseconds / 1e6],
    computed on doubles: the quotient and the sum are each rounded. *)
Definition toMillis (t : Timestamp) : Double.double :=
  Double.add (Double.mul (Double.ofZ (seconds t)) (Double.ofZ 1000))
             (Double.div (Double.ofZ (nanoseconds t)) (Double.ofZ 1000000)).

(** [new Date(value)] keeps [TimeClip(value)]: a finite value of at most
    8.64e15 in magnitude, without its fraction; any other value makes an
    invalid date ([None]). *)
Definition timeClip (value : Double.double) : option Date :=
  match Double.truncate value with
  | Some ms => if Z.abs ms <=? 8640000000000000 then Some ms else None
  | None => None
  end.

(** [Timestamp.toDate()] is [new Date(this.toMillis())].  The fields of
    a timestamp that exists keep the sum far inside the range of dates;
    the [0] stands for the invalid date that fields outside the
    constructor's bounds would give. *)
Definition toDate (t : Timestamp) : Date :=
  default 0 (timeClip (toMillis t)).

Record GeoPoint := { latitude : number; longitude : number }.

Record LatLng := { lat : number; lng : number }.

(** A comment as stored ([CommentData]) and as the page sees it
    ([Comment]); they differ in the type of [createdAt]. *)
Record CommentOf (T : Type) := {
  c_id : JsString;
  content : JsString;
  author : JsString;
  authorId : JsString;
  authorPhotoURL : option JsString;
  authorRole : Role;
  createdAt : T;
}.
Arguments c_id {T} _.
Arguments content {T} _.
Arguments author {T} _.
Arguments authorId {T} _.
Arguments authorPhotoURL {T} _.
Arguments authorRole {T} _.
Arguments createdAt {T} _.

Definition CommentData := CommentOf Timestamp.
Definition Comment := CommentOf Date.

(** A stored issue document.  The three fields the normaliser guards
    ([reportedAt ? .. : ..], [upvotes || 0], [comments || []]) may be
    absent; the others are read unguarded. *)
Record IssueData := {
  d_title : JsString;
  d_description : JsString;
  d_category : JsString;
  d_status : IssueStatus;
  d_location : GeoPoint;
  d_address : JsString;
  d_imageUrl : JsString;
  d_reportedAt : option Timestamp;
  d_reporter : JsString;
  d_reporterId : JsString;
  d_upvotes : option Z;
  d_comments : option (list CommentData);
}.

Record Issue := {
  id : JsString;
  title : JsString;
  description : JsString;
  category : JsString;
  status : IssueStatus;
  location : LatLng;
  address : JsString;
  imageUrl : JsString;
  reportedAt : Date;
  reporter : JsString;
  reporterId : JsString;
  upvotes : Z;
  comments : list Comment;
}.

(** ** Issue normaliser *)

(** [{...comment, createdAt: comment.createdAt.toDate()}] *)
Definition convertComment (c : CommentData) : Comment :=
  {| c_id := c_id c; content := content c; author := author c;
     authorId := authorId c; authorPhotoURL := authorPhotoURL c;
     authorRole := authorRole c; createdAt := toDate (createdAt c) |}.

(** [(a, b) => b.createdAt.getTime() - a.createdAt.getTime()] *)
Definition newestFirst (a b : Comment) : Z := createdAt b - createdAt a.

(** Larger keys first. *)
Definition descending {A : Type} (key : A -> Z) (a b : A) : Prop := key b <= key a.

(** [fromFirestore(docData, id)]; [now] is what [new Date()] reads. *)
Definition fromFirestore (now : Date) (data : IssueData) (id : JsString) : Issue :=
  {| id := id;
     title := d_title data;
     description := d_description data;
     category := d_category data;
     status := d_status data;
     location := {| lat := latitude (d_location data);
                    lng := longitude (d_location data) |};
     address := d_address data;
     imageUrl := d_imageUrl data;
     reportedAt := match d_reportedAt data with
                   | Some t => toDate t
                   | None => now
                   end;
     reporter := d_reporter data;
     reporterId := d_reporterId data;
     upvotes := match d_upvotes data with
                | Some n => if n =? 0 then 0 else n
                | None => 0
                end;
     comments := Js.sort newestFirst
                   (map convertComment (default [] (d_comments data))) |}.

(** ** The document store, as the service talks to it *)

Global Instance Role_eq_dec : EqDecision Role.
Proof. solve_decision. Defined.
Global Instance Timestamp_eq_dec : EqDecision Timestamp.
Proof. solve_decision. Defined.
Global Instance CommentOf_eq_dec {T} `{EqDecision T} : EqDecision (CommentOf T).
Proof. solve_decision. Defined.
Global Instance IssueStatus_eq_dec : EqDecision IssueStatus.
Proof. solve_decision. Defined.
Global Instance Q_eq_dec : EqDecision Q.
Proof. solve_decision. Defined.
Global Instance number_eq_dec : EqDecision number.
Proof. solve_decision. Defined.
Global Instance GeoPoint_eq_dec : EqDecision GeoPoint.
Proof. solve_decision. Defined.
Global Instance IssueData_eq_dec : EqDecision IssueData.
Proof. solve_decision. Defined.

(** What a function of the service can throw, or reject its promise with. *)
Inductive Exn :=
  | Error (message : string)
  | TypeError (message : string)
  | URIError
  | FirestoreError (code : string).

Inductive Result (A : Type) :=
  | Ok (a : A)
  | Throw (e : Exn).
Arguments Ok {A} _.
Arguments Throw {A} _.

Inductive Coll := Issues | Users.

(** [doc(db, coll, id)] *)
Record DocRef := { coll : Coll; docId : JsString }.

(** The field updates the service sends with [updateDoc]. *)
Inductive Update :=
  | SetUpvotes (n : Z)                        (* { upvotes: n } *)
  | SetStatus (s : IssueStatus)               (* { status: s } *)
  | IncrementIssuesReported (k : Z)           (* { issuesReported: increment(k) } *)
  | ArrayUnionComments (c : CommentData)      (* { comments: arrayUnion(c) } *)
  | ArrayRemoveComments (c : CommentData).    (* { comments: arrayRemove(c) } *)

(** A call issued to the store. *)
Inductive Request :=
  | ReqAddDoc (c : Coll) (payload : IssueData)
  | ReqGetDoc (r : DocRef)
  | ReqUpdateDoc (r : DocRef) (u : Update)
  | ReqDeleteDoc (r : DocRef).

(** A template literal: fixed text and substituted values. *)
Inductive Part :=
  | Text (s : string)
  | Subst (v : JsString).

Inductive ConsoleEntry :=
  | Warn (message : list Part)
  | LogError (message : list Part).

(** The store and the console.  [requests] logs every call issued, oldest
    first.  [faults] schedules the transport: the next call fails when
    its head is [true].  A user document is modelled by its
    [issuesReported] counter, the only field the service writes. *)
Record World := {
  issuesCol : gmap JsString IssueData;
  usersCol : gmap JsString Z;
  requests : list Request;
  faults : list bool;
  autoIds : nat -> JsString;
  allocated : nat;
  serverTime : Timestamp;
  console : list ConsoleEntry;
}.

Definition withIssues (f : gmap JsString IssueData -> gmap JsString IssueData)
    (w : World) : World :=
  {| issuesCol := f (issuesCol w); usersCol := usersCol w;
     requests := requests w; faults := faults w; autoIds := autoIds w;
     allocated := allocated w; serverTime := serverTime w;
     console := console w |}.

Definition withUsers (f : gmap JsString Z -> gmap JsString Z) (w : World) : World :=
  {| issuesCol := issuesCol w; usersCol := f (usersCol w);
     requests := requests w; faults := faults w; autoIds := autoIds w;
     allocated := allocated w; serverTime := serverTime w;
     console := console w |}.

Definition withRequests (f : list Request -> list Request) (w : World) : World :=
  {| issuesCol := issuesCol w; usersCol := usersCol w;
     requests := f (requests w); faults := faults w; autoIds := autoIds w;
     allocated := allocated w; serverTime := serverTime w;
     console := console w |}.

Definition withFaults (f : list bool -> list bool) (w : World) : World :=
  {| issuesCol := issuesCol w; usersCol := usersCol w;
     requests := requests w; faults := f (faults w); autoIds := autoIds w;
     allocated := allocated w; serverTime := serverTime w;
     console := console w |}.

Definition withAllocated (f : nat -> nat) (w : World) : World :=
  {| issuesCol := issuesCol w; usersCol := usersCol w;
     requests := requests w; faults := faults w; autoIds := autoIds w;
     allocated := f (allocated w); serverTime := serverTime w;
     console := console w |}.

Definition withConsole (f : list ConsoleEntry -> list ConsoleEntry) (w : World) : World :=
  {| issuesCol := issuesCol w; usersCol := usersCol w;
     requests := requests w; faults := faults w; autoIds := autoIds w;
     allocated := allocated w; serverTime := serverTime w;
     console := f (console w) |}.

(** *** Computations of the service: state and exceptions *)

Definition M (A : Type) : Type := World -> Result A * World.

Definition ret {A} (a : A) : M A := fun w => (Ok a, w).
Definition throw {A} (e : Exn) : M A := fun w => (Throw e, w).
Definition bind {A B} (m : M A) (k : A -> M B) : M B :=
  fun w => match m w with
           | (Ok a, w') => k a w'
           | (Throw e, w') => (Throw e, w')
           end.
Definition lift {A} (r : Result A) : M A := fun w => (r, w).

Notation "x <- m ;; k" := (bind m (fun x => k))
  (at level 100, m at next level, right associativity).
Notation "m ;;; k" := (bind m (fun _ => k))
  (at level 100, right associativity).

Definition setUpvotes (n : Z) (d : IssueData) : IssueData :=
  {| d_title := d_title d; d_description := d_description d;
     d_category := d_category d; d_status := d_status d;
     d_location := d_location d; d_address := d_address d;
     d_imageUrl := d_imageUrl d; d_reportedAt := d_reportedAt d;
     d_reporter := d_reporter d; d_reporterId := d_reporterId d;
     d_upvotes := Some n; d_comments := d_comments d |}.

Definition setStatus (s : IssueStatus) (d : IssueData) : IssueData :=
  {| d_title := d_title d; d_description := d_description d;
     d_category := d_category d; d_status := s;
     d_location := d_location d; d_address := d_address d;
     d_imageUrl := d_imageUrl d; d_reportedAt := d_reportedAt d;
     d_reporter := d_reporter d; d_reporterId := d_reporterId d;
     d_upvotes := d_upvotes d; d_comments := d_comments d |}.

Definition setComments (cs : list CommentData) (d : IssueData) : IssueData :=
  {| d_title := d_title d; d_description := d_description d;
     d_category := d_category d; d_status := d_status d;
     d_location := d_location d; d_address := d_address d;
     d_imageUrl := d_imageUrl d; d_reportedAt := d_reportedAt d;
     d_reporter := d_reporter d; d_reporterId := d_reporterId d;
     d_upvotes := d_upvotes d; d_comments := Some cs |}.

Definition setReportedAt (t : option Timestamp) (d : IssueData) : IssueData :=
  {| d_title := d_title d; d_description := d_description d;
     d_category := d_category d; d_status := d_status d;
     d_location := d_location d; d_address := d_address d;
     d_imageUrl := d_imageUrl d; d_reportedAt := t;
     d_reporter := d_reporter d; d_reporterId := d_reporterId d;
     d_upvotes := d_upvotes d; d_comments := d_comments d |}.

(** A field update applied to an issue document.  [arrayUnion] appends the
    element unless an equal one is stored; [arrayRemove] removes every
    stored element equal to the given one. *)
Definition applyToIssue (u : Update) (d : IssueData) : IssueData :=
  match u with
  | SetUpvotes n => setUpvotes n d
  | SetStatus s => setStatus s d
  | IncrementIssuesReported _ => d
  | ArrayUnionComments c =>
      let cs := default [] (d_comments d) in
      setComments (if bool_decide (c ∈ cs) then cs else cs ++ [c]) d
  | ArrayRemoveComments c =>
      setComments (filter (fun x => x <> c) (default [] (d_comments d))) d
  end.

Definition applyToUser (u : Update) (n : Z) : Z :=
  match u with
  | IncrementIssuesReported k => n + k
  | _ => n
  end.

(** The call leaves the client: it is logged. *)
Definition send (r : Request) : M unit :=
  fun w => (Ok tt, withRequests (fun l => l ++ [r]) w).

(** The transport delivers the call, or fails. *)
Definition transport : M unit :=
  fun w => match faults w with
           | true :: _ => (Throw (FirestoreError "unavailable"), withFaults tail w)
           | _ => (Ok tt, withFaults tail w)
           end.

(** The store's answer to a write.  [updateDoc] fails on a document that
    does not exist. *)
Definition settleUpdate (r : DocRef) (u : Update) : M unit :=
  transport ;;;
  fun w =>
    match coll r with
    | Issues =>
        match issuesCol w !! docId r with
        | Some d => (Ok tt, withIssues <[docId r := applyToIssue u d]> w)
        | None => (Throw (FirestoreError "not-found"), w)
        end
    | Users =>
        match usersCol w !! docId r with
        | Some n => (Ok tt, withUsers <[docId r := applyToUser u n]> w)
        | None => (Throw (FirestoreError "not-found"), w)
        end
    end.

(** [await updateDoc(ref, fields)] *)
Definition updateDoc (r : DocRef) (u : Update) : M unit :=
  send (ReqUpdateDoc r u) ;;; settleUpdate r u.

(** [await getDoc(ref)] on the issues collection; [None] is a snapshot
    whose [exists()] is false. *)
Definition getDoc (issueId : JsString) : M (option IssueData) :=
  send (ReqGetDoc {| coll := Issues; docId := issueId |}) ;;;
  transport ;;;
  fun w => (Ok (issuesCol w !! issueId), w).

(** [await addDoc(collection(db, "issues"), payload)].  The identifier is
    chosen by the client library; a [reportedAt] left open in the payload
    ([serverTimestamp()]) is filled in by the server. *)
Definition resolveServerTimestamp (t : Timestamp) (payload : IssueData) : IssueData :=
  match d_reportedAt payload with
  | Some _ => payload
  | None => setReportedAt (Some t) payload
  end.

Definition addDoc (payload : IssueData) : M JsString :=
  send (ReqAddDoc Issues payload) ;;;
  transport ;;;
  fun w =>
    let newId := autoIds w (allocated w) in
    (Ok newId,
     withAllocated S
       (withIssues <[newId := resolveServerTimestamp (serverTime w) payload]> w)).

(** [console.warn(message)] *)
Definition console_warn (message : list Part) : M unit :=
  fun w => (Ok tt, withConsole (fun l => l ++ [Warn message]) w).

(** ** The issue service *)

(** [NewIssue], as [addIssueClient] receives it.  A text field is [None]
    when it is [undefined] or [null] (the code reads them through [?.]);
    the coordinates are values of any type (the code tests [typeof]). *)
Record RawLocation := { r_lat : value; r_lng : value }.

Record NewIssue := {
  n_title : option JsString;
  n_description : option JsString;
  n_category : option JsString;
  n_location : option RawLocation;
  n_address : option JsString;
  n_reporter : JsString;
  n_reporterId : option JsString;
}.

(** [!s?.trim()] *)
Definition blank (s : option JsString) : bool :=
  match s with
  | Some s => negb (truthy (trim s))
  | None => true
  end.

(** [!s] *)
Definition falsy (s : option JsString) : bool :=
  match s with
  | Some s => negb (truthy s)
  | None => true
  end.

(** [typeof l?.lat !== "number" || typeof l?.lng !== "number" ||
     Number.isNaN(l.lat) || Number.isNaN(l.lng)] *)
Definition invalidLocation (l : option RawLocation) : bool :=
  match l with
  | None => true
  | Some l =>
      match r_lat l, r_lng l with
      | Num la, Num lo => isNaN la || isNaN lo
      | _, _ => true
      end
  end.

Definition coordinates (l : option RawLocation) : option (number * number) :=
  match l with
  | Some {| r_lat := Num la; r_lng := Num lo |} => Some (la, lo)
  | _ => None
  end.

Definition inRange (lo hi : Q) (n : number) : bool :=
  match n with
  | Finite q => Qle_bool lo q && Qle_bool q hi
  | _ => false
  end.

(** [new GeoPoint(lat, lng)]; the constructor of the client library
    rejects a latitude outside [-90, 90] and a longitude outside
    [-180, 180]. *)
Definition newGeoPoint (la lo : number) : Result GeoPoint :=
  if inRange (-90 # 1) (90 # 1) la && inRange (-180 # 1) (180 # 1) lo
  then Ok {| latitude := la; longitude := lo |}
  else Throw (FirestoreError "invalid-argument").

Definition placeholderPrefix : JsString :=
  lit "https://placehold.co/600x400.png?text=".

(** [`https://placehold.co/600x400.png?text=${encodeURIComponent(title)}`] *)
Definition placeholderImage (title : JsString) : Result JsString :=
  match encodeURIComponent title with
  | Some e => Ok (placeholderPrefix ++ e)
  | None => Throw URIError
  end.

(** [category || "Outros"] *)
Definition categoryOrDefault (c : option JsString) : JsString :=
  match c with
  | Some c => if truthy c then c else lit "Outros"
  | None => lit "Outros"
  end.

(** The [payload] of [addIssueClient], field by field as the source
    lists them. *)
Definition payloadOf (issue : NewIssue) (title description address reporterId image : JsString)
    (point : GeoPoint) : IssueData :=
  {| d_title := trim title;
     d_description := trim description;
     d_category := categoryOrDefault (n_category issue);
     d_status := Recebido;
     d_upvotes := Some 0;
     d_reporter := n_reporter issue;
     d_reporterId := reporterId;
     d_address := trim address;
     d_imageUrl := image;
     d_reportedAt := None;
     d_location := point;
     d_comments := Some [] |}.

(** [addIssueClient(issue)] *)
Definition addIssueClient (issue : NewIssue) : M JsString :=
  if blank (n_title issue) then throw (Error "Título obrigatório")
  else if blank (n_description issue) then throw (Error "Descrição obrigatória")
  else if blank (n_address issue) then throw (Error "Endereço obrigatório")
  else if falsy (n_reporterId issue) then throw (Error "ID do relator é obrigatório")
  else if invalidLocation (n_location issue) then throw (Error "Localização inválida")
  else
    match n_title issue, n_description issue, n_address issue,
          n_reporterId issue, coordinates (n_location issue) with
    | Some title, Some description, Some address, Some reporterId, Some (la, lo) =>
        image <- lift (placeholderImage title) ;;
        point <- lift (newGeoPoint la lo) ;;
        newId <- addDoc (payloadOf issue title description address reporterId
                                   image point) ;;
        (updateDoc {| coll := Users; docId := reporterId |}
                   (IncrementIssuesReported 1) ;;;
         ret newId)
    | _, _, _, _, _ =>
        (* not reached: the five checks have passed *)
        throw (TypeError "undefined")
    end.

(** [query(collection(db, 'issues'), orderBy('reportedAt', 'desc'))]:
    ordering by a field leaves out the documents that lack it. *)
Definition hasReportedAt (d : JsString * IssueData) : bool :=
  match d_reportedAt (snd d) with
  | Some _ => true
  | None => false
  end.

(** Timestamps are ordered by their seconds, then by their nanoseconds. *)
Definition notBefore (a b : Timestamp) : Prop :=
  seconds b < seconds a \/ (seconds b = seconds a /\ nanoseconds b <= nanoseconds a).

Definition reportedAtDesc (a b : JsString * IssueData) : Prop :=
  match d_reportedAt (snd a), d_reportedAt (snd b) with
  | Some ta, Some tb => notBefore ta tb
  | _, _ => False
  end.

Global Instance reportedAtDesc_dec : RelDecision reportedAtDesc.
Proof.
  intros a b. unfold reportedAtDesc, notBefore.
  destruct (d_reportedAt (snd a)), (d_reportedAt (snd b)); apply _.
Defined.

(** [docs] is the [querySnapshot.docs] that [onSnapshot] hands to the
    listener when the store is [w]: the documents of the collection that
    the query keeps, each once, the latest report first.  How the server
    arranges documents of the same [reportedAt] is left open. *)
Definition querySnapshot (w : World) (docs : list (JsString * IssueData)) : Prop :=
  docs ≡ₚ List.filter hasReportedAt (map_to_list (issuesCol w)) /\
  StronglySorted reportedAtDesc docs.

Global Instance querySnapshot_dec (w : World) (docs : list (JsString * IssueData)) :
  Decision (querySnapshot w docs).
Proof. unfold querySnapshot. apply _. Defined.

(** [querySnapshot.docs.map(doc => fromFirestore(doc.data(), doc.id))]:
    every document of the snapshot is normalised, in the order of the
    snapshot. *)
Definition snapshotIssues (now : Date) (docs : list (JsString * IssueData)) : list Issue :=
  map (fun d => fromFirestore now (snd d) (fst d)) docs.

(** The listener [listenToIssues(callback)] registers: on a snapshot it
    calls [callback] with the whole normalised list. *)
Definition listenToIssues {S : Type} (callback : list Issue -> S -> S)
    (now : Date) (docs : list (JsString * IssueData)) : S -> S :=
  callback (snapshotIssues now docs).

(** [updateIssueUpvotes(issueId, newUpvotes)] *)
Definition upvotesRef (issueId : JsString) : DocRef :=
  {| coll := Issues; docId := issueId |}.

Definition updateIssueUpvotes (issueId : JsString) (newUpvotes : Z) : M unit :=
  updateDoc (upvotesRef issueId) (SetUpvotes newUpvotes).

(** [deleteCommentFromIssue(issueId, commentId)].  [comments.find] on a
    document without a [comments] field is a [TypeError]. *)
Definition deleteCommentFromIssue (issueId commentId : JsString) : M unit :=
  issueSnap <- getDoc issueId ;;
  match issueSnap with
  | None => throw (Error "Ocorrência não encontrada.")
  | Some issueData =>
      match d_comments issueData with
      | None => throw (TypeError "Cannot read properties of undefined (reading 'find')")
      | Some stored =>
          match find (fun c => bool_decide (c_id c = commentId)) stored with
          | Some commentToDelete =>
              updateDoc {| coll := Issues; docId := issueId |}
                        (ArrayRemoveComments commentToDelete)
          | None =>
              console_warn [Text "Comentário com ID "; Subst commentId;
                            Text " não encontrado na ocorrência "; Subst issueId;
                            Text "."]
          end
      end
  end.

(** ** Validation of a new issue *)

(** The inputs the specification calls invalid. *)
Definition emptyOrWhitespace (s : option JsString) : Prop :=
  match s with
  | Some s => forallb isWhiteSpace s = true
  | None => True
  end.

Definition missing (s : option JsString) : Prop := s = None \/ s = Some [].

Definition notANumber (v : value) : Prop :=
  match v with
  | Num NaN => True
  | Num _ => False
  | _ => True
  end.

Definition badLocation (l : option RawLocation) : Prop :=
  match l with
  | Some l => notANumber (r_lat l) \/ notANumber (r_lng l)
  | None => True
  end.

Definition invalidInput (issue : NewIssue) : Prop :=
  emptyOrWhitespace (n_title issue) \/
  emptyOrWhitespace (n_description issue) \/
  emptyOrWhitespace (n_address issue) \/
  missing (n_reporterId issue) \/
  badLocation (n_location issue).

Definition validationErrors : list Exn :=
  [Error "Título obrigatório"; Error "Descrição obrigatória";
   Error "Endereço obrigatório"; Error "ID do relator é obrigatório";
   Error "Localização inválida"].

(** *** Reading a document *)

Definition delivered (w : World) : Prop := head (faults w) <> Some true.

Definition readOf (issueId : JsString) : Request :=
  ReqGetDoc {| coll := Issues; docId := issueId |}.

(** ** Sample records *)

Module Samples.

Definition comment (n : string) (s ns : Z) : CommentData :=
  {| c_id := lit n; content := lit "ok"; author := lit "Ana";
     authorId := lit "u1"; authorPhotoURL := None; authorRole := RoleUser;
     createdAt := {| seconds := s; nanoseconds := ns |} |}.

(** A legacy document: no report time, no upvotes, no comments. *)
Definition bare : IssueData :=
  {| d_title := lit "Pothole"; d_description := lit "Large pothole";
     d_category := lit "Roads"; d_status := Recebido;
     d_location := {| latitude := Finite (-16 # 1);
                      longitude := Finite (-4798 # 100) |};
     d_address := lit "Quadra 1"; d_imageUrl := lit "img";
     d_reportedAt := None; d_reporter := lit "Ana";
     d_reporterId := lit "u1"; d_upvotes := None; d_comments := None |}.

Definition withComments (cs : list CommentData) : IssueData :=
  {| d_title := d_title bare; d_description := d_description bare;
     d_category := d_category bare; d_status := d_status bare;
     d_location := d_location bare; d_address := d_address bare;
     d_imageUrl := d_imageUrl bare;
     d_reportedAt := Some {| seconds := 100; nanoseconds := 0 |};
     d_reporter := d_reporter bare; d_reporterId := d_reporterId bare;
     d_upvotes := Some 3; d_comments := Some cs |}.

Definition discussed : IssueData :=
  withComments [comment "a" 10 0; comment "b" 30 0; comment "c" 20 500000000].

End Samples.

(** ** A small world to run the service in *)

Module Scenario.

(** Two issues: [i1] with three comments, and [i0], a legacy document
    without a [comments] field.  One registered user. *)
Definition world : World :=
  {| issuesCol := <[lit "i1" := Samples.discussed]>
                    (<[lit "i0" := Samples.bare]> ∅);
     usersCol := <[lit "u1" := 2]> ∅;
     requests := [];
     faults := [];
     autoIds := fun n => lit "auto" ++ [(48 + N.of_nat n)%N];
     allocated := 0;
     serverTime := {| seconds := 1700000000; nanoseconds := 0 |};
     console := [] |}.

(** The same world with the network down for the next call. *)
Definition offline : World := withFaults (fun _ => [true]) world.

Definition pothole : NewIssue :=
  {| n_title := Some (lit " Pothole ");
     n_description := Some (lit "Large pothole");
     n_category := Some (lit "Roads");
     n_location := Some {| r_lat := Num (Finite (-16 # 1));
                           r_lng := Num (Finite (-4798 # 100)) |};
     n_address := Some (lit "Quadra 1");
     n_reporter := lit "Ana";
     n_reporterId := Some (lit "u1") |}.

Definition blankTitle : NewIssue :=
  {| n_title := Some (lit "   ");
     n_description := n_description pothole;
     n_category := n_category pothole;
     n_location := n_location pothole;
     n_address := n_address pothole;
     n_reporter := n_reporter pothole;
     n_reporterId := n_reporterId pothole |}.

End Scenario.

(** ** The map page: optimistic upvotes *)

Module Upvote.

(** The session, as the page uses it. *)
Record AppUser := { uid : JsString; name : JsString; role : Role }.

Record Toast := { variant : string; toastTitle : string; toastDescription : string }.

Definition accessDenied : Toast :=
  {| variant := "destructive"; toastTitle := "Acesso Negado";
     toastDescription := "Você precisa estar logado para apoiar uma ocorrência." |}.

Definition upvoteFailed : Toast :=
  {| variant := "destructive"; toastTitle := "Erro ao apoiar";
     toastDescription := "Não foi possível registrar seu apoio. Tente novamente." |}.

(** The part of the page and of the browser that [handleUpvote] touches.
    A value of [localStorage] is a JSON text, kept here as the array it
    encodes.  [quotaExceeded] makes [localStorage.setItem] throw. *)
Record Page := {
  appUser : option AppUser;
  upvotedIssues : JsSet;
  localStorage : gmap JsString (list JsString);
  quotaExceeded : bool;
  toasts : list Toast;
  pushed : list string;
}.

Definition setUpvotedIssues (s : JsSet) (p : Page) : Page :=
  {| appUser := appUser p; upvotedIssues := s; localStorage := localStorage p;
     quotaExceeded := quotaExceeded p; toasts := toasts p; pushed := pushed p |}.

Definition toast (t : Toast) (p : Page) : Page :=
  {| appUser := appUser p; upvotedIssues := upvotedIssues p;
     localStorage := localStorage p; quotaExceeded := quotaExceeded p;
     toasts := toasts p ++ [t]; pushed := pushed p |}.

Definition routerPush (path : string) (p : Page) : Page :=
  {| appUser := appUser p; upvotedIssues := upvotedIssues p;
     localStorage := localStorage p; quotaExceeded := quotaExceeded p;
     toasts := toasts p; pushed := pushed p ++ [path] |}.

Definition setItem (key : JsString) (v : list JsString) (p : Page) : Page :=
  {| appUser := appUser p; upvotedIssues := upvotedIssues p;
     localStorage := <[key := v]> (localStorage p);
     quotaExceeded := quotaExceeded p; toasts := toasts p; pushed := pushed p |}.

Definition UPVOTED_ISSUES_KEY : JsString := lit "upvotedIssues".

(** [`${UPVOTED_ISSUES_KEY}_${appUser.uid}`] *)
Definition ledgerKey (user : AppUser) : JsString :=
  UPVOTED_ISSUES_KEY ++ lit "_" ++ uid user.

(** The effect that loads the ledger when the session is known. *)
Definition loadUpvoted (p : Page) : Page :=
  match appUser p with
  | None => p
  | Some user =>
      match localStorage p !! ledgerKey user with
      | Some storedUpvotes => setUpvotedIssues (newSet storedUpvotes) p
      | None => p
      end
  end.

(** What a render shows to the handlers it creates: they read
    [appUser] and [upvotedIssues] as they were at that render. *)
Record Render := { r_appUser : option AppUser; r_upvotedIssues : JsSet }.

Definition render (p : Page) : Render :=
  {| r_appUser := appUser p; r_upvotedIssues := upvotedIssues p |}.

(** [handleUpvote] suspended at [await updateIssueUpvotes(..)]. *)
Record Pending := {
  k_render : Render;
  k_user : AppUser;
  k_issueId : JsString;
  k_newUpvotes : Z;
  k_newUpvotedSet : JsSet;
}.

(** The call [updateIssueUpvotes(issueId, n)] issues. *)
Definition upvoteRequest (issueId : JsString) (n : Z) : Request :=
  ReqUpdateDoc (upvotesRef issueId) (SetUpvotes n).

(** The [catch] block. *)
Definition rollback (k : Pending) (p : Page) : Page :=
  toast upvoteFailed
    (setUpvotedIssues (Js.delete (r_upvotedIssues (k_render k)) (k_issueId k)) p).

(** [handleUpvote(issueId, currentUpvotes)] up to its [await]: the
    guards, the optimistic update and the call to the store. *)
Definition handleUpvote (r : Render) (issueId : JsString) (currentUpvotes : Z)
    (p : Page) (w : World) : Page * World * option Pending :=
  match r_appUser r with
  | None => (routerPush "/login" (toast accessDenied p), w, None)
  | Some user =>
      if has (r_upvotedIssues r) issueId then (p, w, None)
      else
        let newUpvotedSet := add (r_upvotedIssues r) issueId in
        (setUpvotedIssues newUpvotedSet p,
         snd (send (ReqUpdateDoc (upvotesRef issueId)
                                 (SetUpvotes (currentUpvotes + 1))) w),
         Some {| k_render := r; k_user := user; k_issueId := issueId;
                 k_newUpvotes := currentUpvotes + 1;
                 k_newUpvotedSet := newUpvotedSet |})
  end.

(** [handleUpvote] from its [await] on: the store answers, then the
    ledger is written, or the [catch] block runs. *)
Definition resumeUpvote (k : Pending) (p : Page) (w : World) : Page * World :=
  match settleUpdate (upvotesRef (k_issueId k)) (SetUpvotes (k_newUpvotes k)) w with
  | (Ok _, w') =>
      if quotaExceeded p then (rollback k p, w')
      else (setItem (ledgerKey (k_user k)) (k_newUpvotedSet k) p, w')
  | (Throw _, w') => (rollback k p, w')
  end.

(** One upvote with nothing in between. *)
Definition upvote (issueId : JsString) (currentUpvotes : Z) (p : Page) (w : World)
    : Page * World :=
  match handleUpvote (render p) issueId currentUpvotes p w with
  | (p1, w1, Some k) => resumeUpvote k p1 w1
  | (p1, w1, None) => (p1, w1)
  end.

(** A signed-in page whose user has upvoted [i1]. *)
Definition ana : AppUser := {| uid := lit "u1"; name := lit "Ana"; role := RoleUser |}.

Definition samplePage : Page :=
  {| appUser := Some ana; upvotedIssues := [lit "i1"];
     localStorage := <[ledgerKey ana := [lit "i1"]]> ∅;
     quotaExceeded := false; toasts := []; pushed := [] |}.

End Upvote.

(** ** The map page: category filter *)

Module CategoryFilter.

(** An array with its identity: React compares the dependencies of
    [useMemo] and [useEffect] with [Object.is], which on arrays is
    identity, not contents. *)
Record Arr (A : Type) := { ref : nat; items : list A }.
Arguments ref {A} _.
Arguments items {A} _.

(** The hooks of the page that the filter involves.  [memo] is the cell
    of [useMemo]: the [issues] it was computed from and its value.
    [effectDep] is the [allCategories] the initialising effect last ran
    with.  [nextRef] numbers the arrays created so far. *)
Record Page := {
  issues : Arr Issue;
  selectedCategories : list JsString;
  memo : option (nat * Arr JsString);
  effectDep : option nat;
  nextRef : nat;
}.

(** [[...new Set(issues.map(issue => issue.category))]] *)
Definition distinctCategories (l : list Issue) : list JsString :=
  newSet (map category l).

(** [useMemo(() => .., [issues])]: recomputed, into a new array, when
    [issues] is not the array of the last computation. *)
Definition useMemo_allCategories (p : Page) : Page * Arr JsString :=
  let recompute :=
    let v := {| ref := nextRef p;
                items := distinctCategories (items (issues p)) |} in
    ({| issues := issues p; selectedCategories := selectedCategories p;
        memo := Some (ref (issues p), v); effectDep := effectDep p;
        nextRef := S (nextRef p) |}, v) in
  match memo p with
  | Some (dep, v) => if (dep =? ref (issues p))%nat then (p, v) else recompute
  | None => recompute
  end.

(** [useEffect(() => { if (allCategories.length > 0)
      setSelectedCategories(allCategories) }, [allCategories])] *)
Definition useEffect_select (allCategories : Arr JsString) (p : Page) : Page :=
  let changed :=
    match effectDep p with
    | Some dep => negb (dep =? ref allCategories)%nat
    | None => true
    end in
  if changed then
    {| issues := issues p;
       selectedCategories :=
         if (0 <? length (items allCategories))%nat
         then items allCategories else selectedCategories p;
       memo := memo p; effectDep := Some (ref allCategories);
       nextRef := nextRef p |}
  else p.

(** A render of the page followed by its effects. *)
Definition render (p : Page) : Page :=
  let '(p1, allCategories) := useMemo_allCategories p in
  useEffect_select allCategories p1.

(** [allCategories], as the last render computed it. *)
Definition allCategories (p : Page) : list JsString :=
  match memo p with
  | Some (_, v) => items v
  | None => []
  end.

(** The page as first rendered: [useState([])] twice. *)
Definition initial : Page :=
  render {| issues := {| ref := 0; items := [] |}; selectedCategories := [];
            memo := None; effectDep := None; nextRef := 1 |}.

(** [setIssues(issues)], called by the listener with the array it has
    just built from the snapshot, and the render that follows. *)
Definition setIssues (l : list Issue) (p : Page) : Page :=
  render {| issues := {| ref := nextRef p; items := l |};
            selectedCategories := selectedCategories p;
            memo := memo p; effectDep := effectDep p;
            nextRef := S (nextRef p) |}.

Definition includes (l : list JsString) (c : JsString) : bool :=
  bool_decide (c ∈ l).

(** [handleCategoryChange(category)], and the render that follows. *)
Definition handleCategoryChange (c : JsString) (p : Page) : Page :=
  render {| issues := issues p;
            selectedCategories :=
              (let prev := selectedCategories p in
               if includes prev c then filter (fun x => x <> c) prev
               else prev ++ [c]);
            memo := memo p; effectDep := effectDep p; nextRef := nextRef p |}.

(** The [useMemo] of [filteredIssues]: [issues.filter(..)], a new array
    each time it is computed. *)
Definition useMemo_filteredIssues (p : Page) : list Issue :=
  List.filter
    (fun issue =>
       (length (selectedCategories p) =? 0)%nat
       || includes (selectedCategories p) (category issue))
    (items (issues p)).

(** [(a, b) => b.reportedAt.getTime() - a.reportedAt.getTime()] *)
Definition latestFirst (a b : Issue) : Z := reportedAt b - reportedAt a.

(** [RecentIssuesPanelContent], which every render of the page renders
    in the desktop panel: [filteredIssues.length > 0 ?
    filteredIssues.sort(..).map(..) : ..].  [sort] works in place: it
    rearranges the array of the memo and returns that same array. *)
Definition RecentIssuesPanelContent (filteredIssues : list Issue) : list Issue :=
  if (0 <? length filteredIssues)%nat
  then Js.sort latestFirst filteredIssues
  else filteredIssues.

(** [filteredIssues] as the page holds it once it has rendered: the
    array of the memo, as the panel has left it.  The state arrays are
    never rearranged ([filter] copies), so a later render that keeps the
    memo finds this same arrangement and sorting it again changes
    nothing. *)
Definition filteredIssues (p : Page) : list Issue :=
  RecentIssuesPanelContent (useMemo_filteredIssues p).

(** What happens to the page: a snapshot arrives, or a box is ticked. *)
Inductive Event :=
  | Snapshot (l : list Issue)
  | Toggle (c : JsString).

Definition step (p : Page) (e : Event) : Page :=
  match e with
  | Snapshot l => setIssues l p
  | Toggle c => handleCategoryChange c p
  end.

Definition run (es : list Event) : Page := fold_left step es initial.

(** An arrangement of references in which every array of the page was
    created before [nextRef]. *)
Definition fresh (p : Page) : Prop :=
  (ref (issues p) < nextRef p)%nat /\
  (forall dep v, memo p = Some (dep, v) -> (dep < nextRef p)%nat /\ (ref v < nextRef p)%nat) /\
  (forall dep, effectDep p = Some dep -> (dep < nextRef p)%nat).

Definition sampleIssue (i c : string) : Issue :=
  {| id := lit i; title := lit "t"; description := lit "d"; category := lit c;
     status := Recebido;
     location := {| lat := Finite (-16 # 1); lng := Finite (-4798 # 100) |};
     address := lit "a"; imageUrl := lit "img"; reportedAt := 0;
     reporter := lit "Ana"; reporterId := lit "u1"; upvotes := 0; comments := [] |}.

End CategoryFilter.

(** ** The rest of the issue service *)

Definition issueRef (issueId : JsString) : DocRef :=
  {| coll := Issues; docId := issueId |}.

(** [updateIssueStatus(issueId, newStatus)] *)
Definition updateIssueStatus (issueId : JsString) (newStatus : IssueStatus) : M unit :=
  updateDoc (issueRef issueId) (SetStatus newStatus).

(** [await deleteDoc(ref)] on the issues collection.  The store accepts
    the deletion of a document that does not exist. *)
Definition deleteDoc (issueId : JsString) : M unit :=
  send (ReqDeleteDoc (issueRef issueId)) ;;;
  transport ;;;
  fun w => (Ok tt, withIssues (base.delete issueId) w).

(** [deleteIssue(issueId)] *)
Definition deleteIssue (issueId : JsString) : M unit := deleteDoc issueId.

(** What [addIssueClient] has in hand when it reaches [addDoc]: the
    reporter and the payload.  [None] when a check, the encoding of the
    title or the construction of the point stops it before. *)
Definition prepared (issue : NewIssue) : option (JsString * IssueData) :=
  if blank (n_title issue) || blank (n_description issue)
     || blank (n_address issue) || falsy (n_reporterId issue)
     || invalidLocation (n_location issue)
  then None
  else
    match n_title issue, n_description issue, n_address issue,
          n_reporterId issue, coordinates (n_location issue) with
    | Some title, Some description, Some address, Some reporterId, Some (la, lo) =>
        match placeholderImage title, newGeoPoint la lo with
        | Ok image, Ok point =>
            Some (reporterId,
                  payloadOf issue title description address reporterId image point)
        | _, _ => None
        end
    | _, _, _, _, _ => None
    end.

(** Every code unit is a 16-bit one. *)
Definition wellFormed (s : JsString) : Prop := Forall (fun c => (c < 65536)%N) s.

(** The first [n] calls from now on are delivered. *)
Fixpoint deliveredFor (n : nat) (fs : list bool) : Prop :=
  match n with
  | O => True
  | S n => head fs <> Some true /\ deliveredFor n (tail fs)
  end.

(** No white space at either end, and something in between. *)
Definition tidy (s : JsString) : Prop :=
  s <> [] /\
  (forall c, head s = Some c -> isWhiteSpace c = false) /\
  (forall c, last s = Some c -> isWhiteSpace c = false).

(** Left as it is by [encodeURIComponent], or the percent sign. *)
Definition uriSafe (c : N) : Prop := uriUnreserved c = true \/ c = 37%N.

(** ** The session ([src/context/auth-context.tsx]) *)

Module Auth.

(** The user of the authentication provider, as far as the context reads
    it.  The two times of [metadata] are optional strings. *)
Record User := {
  u_uid : JsString;
  u_email : option JsString;
  u_displayName : option JsString;
  u_photoURL : option JsString;
  creationTime : option JsString;
  lastSignInTime : option JsString;
}.

(** A stored user document ([AppUserData]).  [fetchAppUser] guards
    [createdAt] and [issuesReported]; they may be absent. *)
Record AppUserData := {
  pd_uid : JsString;
  pd_email : option JsString;
  pd_name : JsString;
  pd_photoURL : option JsString;
  pd_role : Role;
  pd_createdAt : option Timestamp;
  pd_issuesReported : option Z;
}.

(** The profile the application works with ([AppUser]). *)
Record AppUser := {
  uid : JsString;
  email : option JsString;
  name : JsString;
  photoURL : option JsString;
  role : Role;
  createdAt : Date;
  issuesReported : Z;
}.

Inductive Call :=
  | GetUser (uid : JsString)
  | SetUser (uid : JsString) (data : AppUserData).

(** The state of [AuthProvider], the users collection, the calls issued
    to it, the schedule of the transport (as for the issue service) and
    the clock of the server. *)
Record Ctx := {
  authUser : option User;
  appUser : option AppUser;
  isLoading : bool;
  isAdmin : bool;
  showTutorial : bool;
  profiles : gmap JsString AppUserData;
  calls : list Call;
  outages : list bool;
  serverNow : Timestamp;
}.

(** The provider as mounted: the five [useState] initial values. *)
Definition mounted (users : gmap JsString AppUserData) (fs : list bool)
    (t : Timestamp) : Ctx :=
  {| authUser := None; appUser := None; isLoading := true; isAdmin := false;
     showTutorial := false; profiles := users; calls := []; outages := fs;
     serverNow := t |}.

Definition setAuthUser (v : option User) (c : Ctx) : Ctx :=
  {| authUser := v; appUser := appUser c; isLoading := isLoading c;
     isAdmin := isAdmin c; showTutorial := showTutorial c; profiles := profiles c;
     calls := calls c; outages := outages c; serverNow := serverNow c |}.

Definition setAppUser (v : option AppUser) (c : Ctx) : Ctx :=
  {| authUser := authUser c; appUser := v; isLoading := isLoading c;
     isAdmin := isAdmin c; showTutorial := showTutorial c; profiles := profiles c;
     calls := calls c; outages := outages c; serverNow := serverNow c |}.

Definition setIsLoading (v : bool) (c : Ctx) : Ctx :=
  {| authUser := authUser c; appUser := appUser c; isLoading := v;
     isAdmin := isAdmin c; showTutorial := showTutorial c; profiles := profiles c;
     calls := calls c; outages := outages c; serverNow := serverNow c |}.

Definition setIsAdmin (v : bool) (c : Ctx) : Ctx :=
  {| authUser := authUser c; appUser := appUser c; isLoading := isLoading c;
     isAdmin := v; showTutorial := showTutorial c; profiles := profiles c;
     calls := calls c; outages := outages c; serverNow := serverNow c |}.

Definition setShowTutorial (v : bool) (c : Ctx) : Ctx :=
  {| authUser := authUser c; appUser := appUser c; isLoading := isLoading c;
     isAdmin := isAdmin c; showTutorial := v; profiles := profiles c;
     calls := calls c; outages := outages c; serverNow := serverNow c |}.

(** Computations of the context: state and exceptions. *)
Definition Run (A : Type) : Type := Ctx -> Result A * Ctx.

Definition pure {A} (a : A) : Run A := fun c => (Ok a, c).
Definition andThen {A B} (m : Run A) (k : A -> Run B) : Run B :=
  fun c => match m c with
           | (Ok a, c') => k a c'
           | (Throw e, c') => (Throw e, c')
           end.
Definition modify (f : Ctx -> Ctx) : Run unit := fun c => (Ok tt, f c).

(** One call to the users collection: logged, then delivered or not. *)
Definition logged (q : Call) (c : Ctx) : Ctx :=
  {| authUser := authUser c; appUser := appUser c; isLoading := isLoading c;
     isAdmin := isAdmin c; showTutorial := showTutorial c; profiles := profiles c;
     calls := calls c ++ [q]; outages := tail (outages c);
     serverNow := serverNow c |}.

Definition call (q : Call) : Run unit :=
  fun c =>
    match outages c with
    | true :: _ => (Throw (FirestoreError "unavailable"), logged q c)
    | _ => (Ok tt, logged q c)
    end.

(** [await getDoc(doc(db, 'users', uid))] *)
Definition getUser (uid : JsString) : Run (option AppUserData) :=
  andThen (call (GetUser uid)) (fun _ c => (Ok (profiles c !! uid), c)).

Definition withProfile (uid : JsString) (stored : AppUserData) (c : Ctx) : Ctx :=
  {| authUser := authUser c; appUser := appUser c; isLoading := isLoading c;
     isAdmin := isAdmin c; showTutorial := showTutorial c;
     profiles := <[uid := stored]> (profiles c);
     calls := calls c; outages := outages c; serverNow := serverNow c |}.

(** [await setDoc(userRef, data)]; a [createdAt] left to the server is
    filled in with its time. *)
Definition storedAs (t : Timestamp) (data : AppUserData) : AppUserData :=
  {| pd_uid := pd_uid data; pd_email := pd_email data; pd_name := pd_name data;
     pd_photoURL := pd_photoURL data; pd_role := pd_role data;
     pd_createdAt := match pd_createdAt data with
                     | Some t' => Some t'
                     | None => Some t
                     end;
     pd_issuesReported := pd_issuesReported data |}.

Definition setUser (uid : JsString) (data : AppUserData) : Run unit :=
  andThen (call (SetUser uid data))
    (fun _ c => (Ok tt, withProfile uid (storedAs (serverNow c) data) c)).

(** The profile of a stored document: [{...data, createdAt: .., 
    issuesReported: data.issuesReported || 0}]. *)
Definition toAppUser (now : Date) (data : AppUserData) : AppUser :=
  {| uid := pd_uid data; email := pd_email data; name := pd_name data;
     photoURL := pd_photoURL data; role := pd_role data;
     createdAt := match pd_createdAt data with
                  | Some t => toDate t
                  | None => now
                  end;
     issuesReported := match pd_issuesReported data with
                       | Some n => if n =? 0 then 0 else n
                       | None => 0
                       end |}.

(** [fetchAppUser(uid)] *)
Definition fetchAppUser (now : Date) (uid : JsString) : Run (option AppUser) :=
  andThen (getUser uid) (fun docSnap => pure (option_map (toAppUser now) docSnap)).

(** [role === 'admin'] *)
Definition isAdminRole (r : Role) : bool :=
  match r with RoleAdmin => true | RoleUser => false end.

(** [email.split('@')[0]] *)
Fixpoint beforeAt (s : JsString) : JsString :=
  match s with
  | [] => []
  | c :: r => if (c =? 64)%N then [] else c :: beforeAt r
  end.

(** [a || b], on optional strings. *)
Definition orElse (a b : option JsString) : option JsString :=
  match a with
  | Some s => if truthy s then a else b
  | None => b
  end.

(** ['Usuário'] *)
Definition defaultName : JsString := lit "Usu" ++ [225%N] ++ lit "rio".

(** [name || user.displayName || user.email?.split('@')[0] || 'Usuário'] *)
Definition newName (user : User) (name : option JsString) : JsString :=
  default defaultName
    (orElse (orElse (orElse name (u_displayName user))
                    (option_map beforeAt (u_email user)))
            (Some defaultName)).

Definition newUserDocData (user : User) (name : option JsString) : AppUserData :=
  {| pd_uid := u_uid user; pd_email := u_email user; pd_name := newName user name;
     pd_photoURL := u_photoURL user; pd_role := RoleUser; pd_createdAt := None;
     pd_issuesReported := Some 0 |}.

(** [newAppUser], built from the document just written. *)
Definition newAppUser (now : Date) (data : AppUserData) : AppUser :=
  {| uid := pd_uid data; email := pd_email data; name := pd_name data;
     photoURL := pd_photoURL data; role := pd_role data;
     createdAt := now;
     issuesReported := default 0 (pd_issuesReported data) |}.

(** [handleNewUser(user, name)] *)
Definition handleNewUser (now : Date) (user : User) (name : option JsString) : Run unit :=
  andThen (getUser (u_uid user)) (fun docSnap =>
    match docSnap with
    | Some _ =>
        andThen (fetchAppUser now (u_uid user)) (fun appProfile =>
          match appProfile with
          | Some profile =>
              andThen (modify (setAppUser (Some profile))) (fun _ =>
                modify (setIsAdmin (isAdminRole (role profile))))
          | None => pure tt
          end)
    | None =>
        let data := newUserDocData user name in
        andThen (setUser (u_uid user) data) (fun _ =>
          modify (setAppUser (Some (newAppUser now data))))
    end).

(** [tutorialCompleted !== 'true'] *)
Definition notCompleted (tutorialCompleted : option JsString) : bool :=
  negb (bool_decide (tutorialCompleted = Some (lit "true"))).

(** The listener given to [onAuthStateChanged].  [tutorialCompleted] is
    what [localStorage.getItem(TUTORIAL_COMPLETED_KEY)] returns. *)
Definition onAuthStateChanged (now : Date) (tutorialCompleted : option JsString)
    (user : option User) : Run unit :=
  andThen (modify (setIsLoading true)) (fun _ =>
  andThen
    (match user with
     | Some user =>
         andThen (modify (setAuthUser (Some user))) (fun _ =>
         andThen
           (if bool_decide (creationTime user = lastSignInTime user)
               && notCompleted tutorialCompleted
            then modify (setShowTutorial true) else pure tt) (fun _ =>
         andThen (fetchAppUser now (u_uid user)) (fun appProfile =>
           match appProfile with
           | Some profile =>
               andThen (modify (setAppUser (Some profile))) (fun _ =>
                 modify (setIsAdmin (isAdminRole (role profile))))
           | None =>
               andThen (handleNewUser now user None) (fun _ =>
                 modify (setIsAdmin false))
           end)))
     | None =>
         andThen (modify (setAuthUser None)) (fun _ =>
         andThen (modify (setAppUser None)) (fun _ =>
         andThen (modify (setIsAdmin false)) (fun _ =>
           modify (setShowTutorial false))))
     end) (fun _ =>
  modify (setIsLoading false))).

(** [register]'s use of the profile: [handleNewUser(user, name)] once the
    provider has created the account. *)
Definition register (now : Date) (user : User) (name : JsString) : Run unit :=
  handleNewUser now user (Some name).

End Auth.

(** ** Adding a comment *)

(** ['Usuário Anônimo'] *)
Definition anonymous : JsString :=
  lit "Usu" ++ [225%N] ++ lit "rio An" ++ [244%N] ++ lit "nimo".

(** [newComment]; [uuid] is what [uuidv4()] returns and [now] what
    [Timestamp.now()] returns. *)
Definition newCommentOf (uuid : JsString) (now : Timestamp) (text : JsString)
    (user : Auth.AppUser) : CommentData :=
  {| c_id := uuid;
     content := trim text;
     author := if truthy (Auth.name user) then Auth.name user else anonymous;
     authorId := Auth.uid user;
     authorPhotoURL := match Auth.photoURL user with
                       | Some url => if truthy url then Some url else None
                       | None => None
                       end;
     authorRole := Auth.role user;
     createdAt := now |}.

(** [addCommentToIssue(issueId, content, user)] *)
Definition addCommentToIssue (uuid : JsString) (now : Timestamp)
    (issueId : JsString) (text : option JsString) (user : option Auth.AppUser) : M unit :=
  if blank text then throw (Error "O comentário não pode estar vazio.")
  else
    match user, text with
    | None, _ => throw (Error "Usuário não autenticado.")
    | Some user, Some text =>
        updateDoc (issueRef issueId)
                  (ArrayUnionComments (newCommentOf uuid now text user))
    | Some _, None =>
        (* not reached: the first check has passed *)
        throw (TypeError "undefined")
    end.

(** [(c: CommentData) => c.id === commentId] *)
Definition hasId (commentId : JsString) (c : CommentData) : bool :=
  bool_decide (c_id c = commentId).

(** ** The filter, between two events *)

(** [prev.includes(category) ? prev.filter(c => c !== category)
                              : [...prev, category]] *)
Definition toggled (c : JsString) (prev : list JsString) : list JsString :=
  if CategoryFilter.includes prev c then filter (fun x => x <> c) prev else prev ++ [c].

(** A page whose last render has nothing left to do: the memo holds the
    categories of the current [issues] and the effect has run with it. *)
Definition settledPage (p : CategoryFilter.Page) : Prop :=
  exists v,
    CategoryFilter.memo p = Some (CategoryFilter.ref (CategoryFilter.issues p), v) /\
    CategoryFilter.effectDep p = Some (CategoryFilter.ref v) /\
    CategoryFilter.items v
    = CategoryFilter.distinctCategories (CategoryFilter.items (CategoryFilter.issues p)).

(** What holds of every page that events can produce. *)
Definition reachablePage (p : CategoryFilter.Page) : Prop :=
  CategoryFilter.fresh p /\ settledPage p /\
  NoDup (CategoryFilter.selectedCategories p).

(** ** The markers of the map ([src/components/map.tsx]) *)

(** [getPinColor(status)] *)
Definition getPinColor (s : IssueStatus) : string :=
  match s with
  | Resolvido => "text-green-500"
  | EmAnalise => "text-yellow-500"
  | Recebido => "text-sky-500"
  end.

(** [getStatusVariant(status)] *)
Definition getStatusVariant (s : IssueStatus) : string :=
  match s with
  | Resolvido => "success"
  | EmAnalise => "warning"
  | Recebido => "info"
  end.

(** ** More sample data *)

Module Cases.

(** The pothole, reported by someone who has no user document. *)
Definition stranger : NewIssue :=
  {| n_title := n_title Scenario.pothole;
     n_description := n_description Scenario.pothole;
     n_category := None;
     n_location := n_location Scenario.pothole;
     n_address := n_address Scenario.pothole;
     n_reporter := lit "Bia";
     n_reporterId := Some (lit "u9") |}.

(** A second client, signed in as someone else, with nothing upvoted. *)
Definition bia : Upvote.AppUser :=
  {| Upvote.uid := lit "u2"; Upvote.name := lit "Bia"; Upvote.role := RoleUser |}.

Definition otherPage : Upvote.Page :=
  {| Upvote.appUser := Some bia; Upvote.upvotedIssues := [];
     Upvote.localStorage := ∅; Upvote.quotaExceeded := false;
     Upvote.toasts := []; Upvote.pushed := [] |}.

(** An administrator's profile, and a comment of theirs. *)
Definition carla : Auth.AppUser :=
  {| Auth.uid := lit "u3"; Auth.email := None; Auth.name := lit "Carla";
     Auth.photoURL := None; Auth.role := RoleAdmin; Auth.createdAt := 0;
     Auth.issuesReported := 0 |}.

Definition noon : Timestamp := {| seconds := 1700000500; nanoseconds := 0 |}.

(** A user of the provider signing in for the first time, and a context
    in which only an administrator has a profile. *)
Definition dani : Auth.User :=
  {| Auth.u_uid := lit "u7"; Auth.u_email := Some (lit "dani@example.org");
     Auth.u_displayName := None; Auth.u_photoURL := None;
     Auth.creationTime := Some (lit "t0"); Auth.lastSignInTime := Some (lit "t0") |}.

Definition carlaData : Auth.AppUserData :=
  {| Auth.pd_uid := lit "u3"; Auth.pd_email := None; Auth.pd_name := lit "Carla";
     Auth.pd_photoURL := None; Auth.pd_role := RoleAdmin;
     Auth.pd_createdAt := Some noon; Auth.pd_issuesReported := None |}.

Definition carlaUser : Auth.User :=
  {| Auth.u_uid := lit "u3"; Auth.u_email := None;
     Auth.u_displayName := Some (lit "Carla"); Auth.u_photoURL := None;
     Auth.creationTime := Some (lit "t0"); Auth.lastSignInTime := Some (lit "t5") |}.

Definition provider : Auth.Ctx :=
  Auth.mounted (<[lit "u3" := carlaData]> ∅) [] noon.

(** The store once the pothole of [Scenario] has been reported, and the
    snapshot the listener then receives: the new issue first, the legacy
    document [i0], which has no [reportedAt], left out. *)
Definition reported : World := snd (addIssueClient Scenario.pothole Scenario.world).

Definition notification : list (JsString * IssueData) :=
  match issuesCol reported !! lit "auto0" with
  | Some d => [(lit "auto0", d); (lit "i1", Samples.discussed)]
  | None => []
  end.

(** An issue of the page with another report time. *)
Definition reportedOn (t : Date) (i : Issue) : Issue :=
  {| id := id i; title := title i; description := description i;
     category := category i; status := status i; location := location i;
     address := address i; imageUrl := imageUrl i; reportedAt := t;
     reporter := reporter i; reporterId := reporterId i; upvotes := upvotes i;
     comments := comments i |}.

End Cases.

(** * Properties *)

(** ** Facts about [Js.sort] *)

Section SortFacts.
Context {A : Type} (cmp : A -> A -> Z).

Lemma insert_sorted_perm (x : A) (l : list A) :
  Permutation (Js.insert_sorted cmp x l) (x :: l).
Proof.
  induction l as [|y r IH]; simpl; [reflexivity|].
  destruct (cmp x y <=? 0); [reflexivity|].
  rewrite IH. apply perm_swap.
Qed.

Lemma sort_perm (l : list A) : Permutation (Js.sort cmp l) l.
Proof.
  induction l as [|x r IH]; simpl; [reflexivity|].
  rewrite insert_sorted_perm. now constructor.
Qed.

(** A comparison that subtracts keys, larger keys first. *)
Context (key : A -> Z) (Hcmp : forall a b, cmp a b = key b - key a).

Lemma insert_sorted_descending (x : A) (l : list A) :
  StronglySorted (descending key) l ->
  StronglySorted (descending key) (Js.insert_sorted cmp x l).
Proof.
  induction 1 as [|y r Hr IH Hy]; simpl.
  - repeat constructor.
  - rewrite Hcmp. destruct (Z.leb_spec (key y - key x) 0) as [Hle|Hgt].
    + constructor; [now constructor|].
      constructor; [unfold descending; lia|].
      eapply Forall_impl; [exact Hy|].
      unfold descending. intros; lia.
    + constructor; [exact IH|].
      rewrite insert_sorted_perm.
      constructor; [unfold descending; lia | exact Hy].
Qed.

Lemma sort_descending (l : list A) :
  StronglySorted (descending key) (Js.sort cmp l).
Proof.
  induction l as [|x r IH]; simpl; [constructor|].
  now apply insert_sorted_descending.
Qed.

Lemma descending_strict (l : list A) :
  StronglySorted (descending key) l ->
  NoDup (map key l) ->
  StronglySorted (fun a b => key b < key a) l.
Proof.
  induction 1 as [|x r Hr IH Hx]; intros Hnd; [constructor|].
  simpl in Hnd. apply NoDup_cons in Hnd as [Hnotin Hnd].
  constructor; [now apply IH|].
  rewrite Forall_forall in Hx |- *.
  intros y Hy. specialize (Hx y Hy). unfold descending in Hx.
  assert (key y <> key x); [|lia].
  intros Heq. apply Hnotin. rewrite <- Heq.
  apply list_elem_of_In, in_map, list_elem_of_In, Hy.
Qed.

(** With distinct keys there is one sorted arrangement, so the engine's
    sorting algorithm does not matter. *)
Lemma strictly_descending_unique (l1 l2 : list A) :
  StronglySorted (fun a b => key b < key a) l1 ->
  StronglySorted (fun a b => key b < key a) l2 ->
  Permutation l1 l2 ->
  l1 = l2.
Proof.
  intros H1. revert l2. induction H1 as [|x r1 Hr1 IH Hx]; intros l2 H2 Hp.
  - symmetry. now apply Permutation_nil.
  - destruct H2 as [|y r2 Hr2 Hy].
    { symmetry in Hp. now apply Permutation_nil in Hp. }
    assert (x = y) as <-.
    { assert (Hxin : x ∈ y :: r2) by (rewrite <- Hp; left).
      assert (Hyin : y ∈ x :: r1) by (rewrite Hp; left).
      apply elem_of_cons in Hxin as [?|Hxin]; [assumption|].
      apply elem_of_cons in Hyin as [?|Hyin]; [congruence|].
      rewrite Forall_forall in Hx, Hy.
      specialize (Hx _ Hyin). specialize (Hy _ Hxin). lia. }
    f_equal. apply IH; [exact Hr2|]. now apply Permutation_cons_inv in Hp.
Qed.

End SortFacts.

(** ** The normaliser's defaults and the order of comments *)

Example fromFirestore_discussed_order :
  map c_id (comments (fromFirestore 0 Samples.discussed (lit "i1")))
  = [lit "b"; lit "c"; lit "a"].
Proof. reflexivity. Qed.

(** Equal creation times keep their stored order. *)
Example fromFirestore_ties_stable :
  map c_id (comments (fromFirestore 0
     (Samples.withComments
        [Samples.comment "a" 5 0; Samples.comment "b" 9 0; Samples.comment "c" 5 0])
     (lit "i1")))
  = [lit "b"; lit "a"; lit "c"].
Proof. reflexivity. Qed.

(** Two stored times less than a millisecond apart are the same [Date]. *)
Example toDate_truncates :
  toDate {| seconds := 5; nanoseconds := 1200000 |} = 5001
  /\ toDate {| seconds := 5; nanoseconds := 1900000 |} = 5001.
Proof. split; reflexivity. Qed.

(** The sum of [toMillis] is rounded to a double before [Date] drops the
    fraction, so the last nanosecond of a second is the [Date] of the
    next second, while a microsecond earlier is not. *)
Example toDate_rounds :
  toDate {| seconds := 1700000000; nanoseconds := 999999999 |} = 1700000001000
  /\ toDate {| seconds := 1700000001; nanoseconds := 0 |} = 1700000001000
  /\ toDate {| seconds := 1700000000; nanoseconds := 999999000 |} = 1700000000999.
Proof. repeat split; vm_compute; reflexivity. Qed.

(** Before the epoch the fraction is dropped towards zero. *)
Example toDate_before_epoch :
  toDate {| seconds := -1; nanoseconds := 500000000 |} = -500
  /\ toDate {| seconds := -1; nanoseconds := 999999999 |} = 0.
Proof. split; vm_compute; reflexivity. Qed.

(** The earliest and the latest timestamp that exist are valid dates. *)
Example toDate_bounds :
  let first := {| seconds := -62135596800; nanoseconds := 0 |} in
  let last := {| seconds := 253402300799; nanoseconds := 999999999 |} in
  validTimestamp first = true /\ validTimestamp last = true /\
  timeClip (toMillis first) = Some (-62135596800000) /\
  timeClip (toMillis last) = Some 253402300800000.
Proof. repeat split; vm_compute; reflexivity. Qed.

(** Two comments stored in the order older, newer, whose times round to
    the same [Date], stay in that order. *)
Example fromFirestore_comments_rounding :
  let p := Samples.comment "p" 1700000000 999999999 in
  let q := Samples.comment "q" 1700000001 0 in
  map c_id (comments (fromFirestore 0 (Samples.withComments [p; q]) (lit "i1")))
  = [lit "p"; lit "q"].
Proof. vm_compute. reflexivity. Qed.

Lemma fromFirestore_comments_perm (now : Date) (data : IssueData) (id : JsString) :
  Permutation (comments (fromFirestore now data id))
              (map convertComment (default [] (d_comments data))).
Proof. apply sort_perm. Qed.

Lemma fromFirestore_comments_descending (now : Date) (data : IssueData) (id : JsString) :
  StronglySorted (fun a b : Comment => createdAt b <= createdAt a)
                 (comments (fromFirestore now data id)).
Proof.
  apply (sort_descending newestFirst createdAt). reflexivity.
Qed.

Lemma fromFirestore_comments_strict (now : Date) (data : IssueData) (id : JsString) :
  NoDup (map (fun c : CommentData => toDate (createdAt c))
             (default [] (d_comments data))) ->
  StronglySorted (fun a b : Comment => createdAt b < createdAt a)
                 (comments (fromFirestore now data id)).
Proof.
  intros Hnd. apply (descending_strict createdAt).
  - apply fromFirestore_comments_descending.
  - rewrite (fromFirestore_comments_perm now data id), map_map. exact Hnd.
Qed.

(** Whatever algorithm the engine sorts with, a sorted arrangement of
    the converted comments is the one [fromFirestore] returns. *)
Lemma fromFirestore_comments_any_sort
    (now : Date) (data : IssueData) (id : JsString) (sorted : list Comment) :
  NoDup (map (fun c : CommentData => toDate (createdAt c))
             (default [] (d_comments data))) ->
  Permutation sorted (map convertComment (default [] (d_comments data))) ->
  StronglySorted (fun a b : Comment => createdAt b < createdAt a) sorted ->
  comments (fromFirestore now data id) = sorted.
Proof.
  intros Hnd Hperm Hsorted.
  apply (strictly_descending_unique createdAt);
    [now apply fromFirestore_comments_strict | exact Hsorted |].
  rewrite Hperm. apply fromFirestore_comments_perm.
Qed.

(** C3. A stored record without a [comments] field is normalised to an
    issue with no comments; without [upvotes], to zero upvotes; without
    [reportedAt], to the current time.  [fromFirestore] is a total
    function on stored records, so none of these cases raises. *)
Theorem fromFirestore_defaults (now : Date) (data : IssueData) (id : JsString) :
  (d_comments data = None -> comments (fromFirestore now data id) = []) /\
  (d_upvotes data = None -> upvotes (fromFirestore now data id) = 0) /\
  (d_reportedAt data = None -> reportedAt (fromFirestore now data id) = now).
Proof.
  repeat split; intros H; simpl; rewrite H; reflexivity.
Qed.

Lemma fromFirestore_defaults_witness :
  comments (fromFirestore 1700000000000 Samples.bare (lit "i1")) = [] /\
  upvotes (fromFirestore 1700000000000 Samples.bare (lit "i1")) = 0 /\
  reportedAt (fromFirestore 1700000000000 Samples.bare (lit "i1")) = 1700000000000.
Proof.
  destruct (fromFirestore_defaults 1700000000000 Samples.bare (lit "i1"))
    as (Hc & Hu & Hr).
  split; [apply Hc; reflexivity|].
  split; [apply Hu; reflexivity | apply Hr; reflexivity].
Defined.

(** C4, as amended. When the creation times of the stored comments are
    pairwise distinct as the dates [toDate] makes of them, that is to the
    millisecond, the comments of the normalised issue are the stored
    ones, each converted, in strictly descending order of creation
    time. *)
Theorem fromFirestore_comments_newest_first
    (now : Date) (data : IssueData) (id : JsString) :
  NoDup (map (fun c : CommentData => toDate (createdAt c))
             (default [] (d_comments data))) ->
  StronglySorted (fun a b : Comment => createdAt b < createdAt a)
                 (comments (fromFirestore now data id)) /\
  Permutation (comments (fromFirestore now data id))
              (map convertComment (default [] (d_comments data))).
Proof.
  intros Hnd. split; [|apply fromFirestore_comments_perm].
  now apply fromFirestore_comments_strict.
Qed.

Lemma fromFirestore_comments_newest_first_witness :
  StronglySorted (fun a b : Comment => createdAt b < createdAt a)
                 (comments (fromFirestore 0 Samples.discussed (lit "i1"))) /\
  Permutation (comments (fromFirestore 0 Samples.discussed (lit "i1")))
              (map convertComment (default [] (d_comments Samples.discussed))).
Proof.
  apply (fromFirestore_comments_newest_first 0 Samples.discussed (lit "i1")).
  apply (bool_decide_unpack _). vm_compute. reflexivity.
Defined.

(** C4, as the claim states it, fails: two comments stored with distinct
    creation times of the same millisecond are published in their stored
    order, the older one first, with equal creation times. *)
Lemma fromFirestore_comments_same_millisecond :
  let stored := [Samples.comment "a" 5 1200000; Samples.comment "b" 5 1900000] in
  let published := comments (fromFirestore 0 (Samples.withComments stored) (lit "i1")) in
  NoDup (map createdAt stored) /\
  map c_id published = [lit "a"; lit "b"] /\
  map createdAt published = [5001; 5001] /\
  ~ StronglySorted (fun a b : Comment => createdAt b < createdAt a) published.
Proof.
  cbv zeta. split; [apply (bool_decide_unpack _); vm_compute; reflexivity|].
  split; [vm_compute; reflexivity|]. split; [vm_compute; reflexivity|].
  intros H. vm_compute in H. inversion H as [|? ? _ Hall]; subst.
  inversion Hall as [|? ? Hlt _]; subst. cbv in Hlt. discriminate.
Qed.

(** ** Reasoning about computations of the service *)

Lemma bind_Ok {A B} (m : M A) (k : A -> M B) (w w' : World) (b : B) :
  bind m k w = (Ok b, w') ->
  exists a w1, m w = (Ok a, w1) /\ k a w1 = (Ok b, w').
Proof.
  unfold bind. destruct (m w) as [[a|e] w1]; intros H; [eauto|discriminate].
Qed.

Lemma lift_Ok {A} (r : Result A) (w w' : World) (a : A) :
  lift r w = (Ok a, w') -> r = Ok a /\ w' = w.
Proof. unfold lift. intros H. inversion H. auto. Qed.

(** A string of white space trims to the empty string. *)
Lemma trimStart_whitespace (s : JsString) :
  forallb isWhiteSpace s = true -> trimStart s = [].
Proof.
  induction s as [|c r IH]; simpl; [reflexivity|].
  destruct (isWhiteSpace c); simpl; [exact IH|discriminate].
Qed.

Lemma trim_whitespace (s : JsString) :
  forallb isWhiteSpace s = true -> trim s = [].
Proof.
  intros H. unfold trim, trimEnd. rewrite (trimStart_whitespace s H). reflexivity.
Qed.

Example trim_padded :
  trim (lit "  Pothole on 5th " ++ [160%N; 10%N]) = lit "Pothole on 5th".
Proof. reflexivity. Qed.

Example encodeURIComponent_title :
  encodeURIComponent (lit "Pothole #5 (north)") = Some (lit "Pothole%20%235%20(north)").
Proof. reflexivity. Qed.

(** U+00E7 takes two octets, U+1F6A8 is a surrogate pair and takes four;
    a lone surrogate is refused. *)
Example encodeURIComponent_utf8 :
  encodeURIComponent [231%N; 55357%N; 57000%N] = Some (lit "%C3%A7%F0%9F%9A%A8")
  /\ encodeURIComponent [55357%N] = None.
Proof. split; reflexivity. Qed.

(** ** Validation of a new issue: proofs *)

Lemma emptyOrWhitespace_blank (s : option JsString) :
  emptyOrWhitespace s -> blank s = true.
Proof.
  destruct s as [s|]; simpl; [|reflexivity].
  intros H. rewrite (trim_whitespace s H). reflexivity.
Qed.

Lemma missing_falsy (s : option JsString) : missing s -> falsy s = true.
Proof. intros [->| ->]; reflexivity. Qed.

Lemma badLocation_invalid (l : option RawLocation) :
  badLocation l -> invalidLocation l = true.
Proof.
  destruct l as [[la lo]|]; simpl; [|reflexivity].
  destruct la as [| |?|[]|?], lo as [| |?|[]|?]; simpl; tauto.
Qed.

(** Whatever [addIssueClient] throws before its first call to the store
    leaves the world as it was. *)
Lemma addIssueClient_invalid (issue : NewIssue) (w : World) :
  (blank (n_title issue) || blank (n_description issue)
   || blank (n_address issue) || falsy (n_reporterId issue)
   || invalidLocation (n_location issue)) = true ->
  exists e, addIssueClient issue w = (Throw e, w) /\ In e validationErrors.
Proof.
  unfold addIssueClient, validationErrors. intros H.
  destruct (blank (n_title issue)); [eexists; split; [reflexivity|simpl; tauto]|].
  destruct (blank (n_description issue)); [eexists; split; [reflexivity|simpl; tauto]|].
  destruct (blank (n_address issue)); [eexists; split; [reflexivity|simpl; tauto]|].
  destruct (falsy (n_reporterId issue)); [eexists; split; [reflexivity|simpl; tauto]|].
  destruct (invalidLocation (n_location issue)); [eexists; split; [reflexivity|simpl; tauto]|].
  discriminate.
Qed.

(** C7. A new issue whose title, description or address is empty or only
    white space, whose reporter id is missing, or whose latitude or
    longitude is not a number or is NaN, is refused with one of the five
    validation errors, and the world is left as it was: no call to the
    store is issued, no document is written and no counter is
    incremented. *)
Theorem addIssueClient_validation (issue : NewIssue) (w : World) :
  invalidInput issue ->
  exists e, addIssueClient issue w = (Throw e, w) /\ In e validationErrors.
Proof.
  intros H. apply addIssueClient_invalid.
  destruct H as [H|[H|[H|[H|H]]]].
  - rewrite (emptyOrWhitespace_blank _ H). reflexivity.
  - rewrite (emptyOrWhitespace_blank _ H). now rewrite orb_true_r.
  - rewrite (emptyOrWhitespace_blank _ H). now rewrite !orb_true_r.
  - rewrite (missing_falsy _ H). now rewrite !orb_true_r.
  - rewrite (badLocation_invalid _ H). now rewrite !orb_true_r.
Qed.

Lemma addIssueClient_validation_witness :
  exists e, addIssueClient Scenario.blankTitle Scenario.world
            = (Throw e, Scenario.world) /\ In e validationErrors.
Proof.
  apply addIssueClient_validation. left. reflexivity.
Defined.

Example addIssueClient_pothole :
  fst (addIssueClient Scenario.pothole Scenario.world) = Ok (lit "auto0")
  /\ (d_title <$> issuesCol (snd (addIssueClient Scenario.pothole Scenario.world))
        !! lit "auto0") = Some (lit "Pothole")
  /\ (d_imageUrl <$> issuesCol (snd (addIssueClient Scenario.pothole Scenario.world))
        !! lit "auto0")
     = Some (lit "https://placehold.co/600x400.png?text=%20Pothole%20")
  /\ usersCol (snd (addIssueClient Scenario.pothole Scenario.world)) !! lit "u1"
     = Some 3
  /\ length (requests (snd (addIssueClient Scenario.pothole Scenario.world))) = 2%nat.
Proof. vm_compute. repeat split; reflexivity. Qed.

(** ** What a reported issue looks like *)

Lemma addIssueClient_Ok (issue : NewIssue) (w w' : World) (newId : JsString) :
  addIssueClient issue w = (Ok newId, w') ->
  exists title description address reporterId image point,
    n_title issue = Some title /\
    encodeURIComponent title = Some image /\
    let payload := payloadOf issue title description address reporterId
                     (placeholderPrefix ++ image) point in
    In (ReqAddDoc Issues payload) (requests w') /\
    issuesCol w' !! newId = Some (resolveServerTimestamp (serverTime w) payload).
Proof.
  unfold addIssueClient.
  destruct (blank (n_title issue)); [discriminate|].
  destruct (blank (n_description issue)); [discriminate|].
  destruct (blank (n_address issue)); [discriminate|].
  destruct (falsy (n_reporterId issue)); [discriminate|].
  destruct (invalidLocation (n_location issue)); [discriminate|].
  destruct (n_title issue) as [title|]; [|discriminate].
  destruct (n_description issue) as [description|]; [|discriminate].
  destruct (n_address issue) as [address|]; [|discriminate].
  destruct (n_reporterId issue) as [reporterId|]; [|discriminate].
  destruct (coordinates (n_location issue)) as [[la lo]|]; [|discriminate].
  intros H.
  apply bind_Ok in H as (image & w1 & Himage & H).
  apply lift_Ok in Himage as [Himage ->].
  apply bind_Ok in H as (point & w1 & Hpoint & H).
  apply lift_Ok in Hpoint as [Hpoint ->].
  apply bind_Ok in H as (id1 & w1 & Hadd & H).
  apply bind_Ok in H as ([] & w2 & Hupd & H).
  inversion H; subst id1 w2; clear H.
  unfold placeholderImage in Himage.
  destruct (encodeURIComponent title) as [enc|] eqn:Henc; [|discriminate].
  assert (image = placeholderPrefix ++ enc) by congruence.
  subst image. clear Himage.
  exists title, description, address, reporterId, enc, point.
  split; [reflexivity|]. split; [exact Henc|]. cbv zeta.
  set (payload := payloadOf _ _ _ _ _ _ _) in *.
  (* the document write *)
  unfold addDoc, bind, send, transport in Hadd. simpl in Hadd.
  assert (Hw1 : newId = autoIds w (allocated w) /\
                issuesCol w1 = <[newId := resolveServerTimestamp (serverTime w) payload]>
                                 (issuesCol w) /\
                requests w1 = requests w ++ [ReqAddDoc Issues payload]).
  { destruct (faults w) as [|[] ?]; inversion Hadd; subst; simpl; auto. }
  destruct Hw1 as (Hid & Hcol & Hreq).
  (* the counter update *)
  unfold updateDoc, settleUpdate, bind, send, transport in Hupd. simpl in Hupd.
  assert (Hw' : issuesCol w' = issuesCol w1 /\
                requests w' = requests w1 ++
                  [ReqUpdateDoc {| coll := Users; docId := reporterId |}
                                (IncrementIssuesReported 1)]).
  { destruct (faults w1) as [|[] ?]; simpl in Hupd; try discriminate;
      destruct (usersCol w1 !! reporterId); inversion Hupd; subst; simpl; auto. }
  destruct Hw' as (Hcol' & Hreq').
  split.
  - rewrite Hreq', Hreq, !in_app_iff. left. right. simpl. auto.
  - rewrite Hcol', Hcol. apply lookup_insert_eq.
Qed.

(** A document that a snapshot of the query carries is a document of
    the store, and a document of the store that has its [reportedAt] is
    carried. *)
Lemma querySnapshot_In (w : World) (docs : list (JsString * IssueData))
    (docId : JsString) (d : IssueData) :
  querySnapshot w docs ->
  In (docId, d) docs <-> issuesCol w !! docId = Some d /\ d_reportedAt d <> None.
Proof.
  intros [Hperm _].
  rewrite <- list_elem_of_In, Hperm, list_elem_of_In, filter_In.
  rewrite <- list_elem_of_In, elem_of_map_to_list.
  unfold hasReportedAt. simpl.
  destruct (d_reportedAt d); intuition congruence.
Qed.

(** C9. When [addIssueClient] accepts a new issue, the record it writes
    has status [Recebido] (received), zero upvotes, no comments and the
    placeholder image address built from the title, and it is stored
    under the returned identifier.  The next notification of the
    subscription, that is the snapshot of the query on the store as the
    call has left it, makes [listenToIssues] call its callback with a
    list in which an issue of that identifier appears, and every issue
    of that identifier in the list has exactly those values and the
    report time the server assigned. *)
Theorem addIssueClient_reported_issue
    (issue : NewIssue) (w w' : World) (newId : JsString) :
  addIssueClient issue w = (Ok newId, w') ->
  exists title image payload,
    n_title issue = Some title /\
    encodeURIComponent title = Some image /\
    In (ReqAddDoc Issues payload) (requests w') /\
    issuesCol w' !! newId = Some (resolveServerTimestamp (serverTime w) payload) /\
    d_status payload = Recebido /\
    d_upvotes payload = Some 0 /\
    d_comments payload = Some [] /\
    d_imageUrl payload = placeholderPrefix ++ image /\
    forall (now : Date) (docs : list (JsString * IssueData)),
      querySnapshot w' docs ->
      exists issues : list Issue,
        (forall (S : Type) (callback : list Issue -> S -> S) (page : S),
            listenToIssues callback now docs page = callback issues page) /\
        (exists i, In i issues /\ id i = newId) /\
        forall i, In i issues -> id i = newId ->
          status i = Recebido /\ upvotes i = 0 /\ comments i = [] /\
          imageUrl i = placeholderPrefix ++ image /\
          reportedAt i = toDate (serverTime w).
Proof.
  intros H.
  apply addIssueClient_Ok in H
    as (title & description & address & reporterId & image & point & Ht & He & Hreq & Hcol).
  exists title, image,
    (payloadOf issue title description address reporterId (placeholderPrefix ++ image) point).
  repeat (split; [assumption || reflexivity|]).
  intros now docs Hsnap.
  exists (snapshotIssues now docs).
  split; [reflexivity|]. split.
  - exists (fromFirestore now
              (resolveServerTimestamp (serverTime w)
                 (payloadOf issue title description address reporterId
                    (placeholderPrefix ++ image) point)) newId).
    split; [|reflexivity].
    unfold snapshotIssues.
    apply (in_map (fun d => fromFirestore now (snd d) (fst d)) docs (newId, _)).
    apply (querySnapshot_In w' docs); [exact Hsnap|].
    split; [exact Hcol | discriminate].
  - intros i Hi Hid. unfold snapshotIssues in Hi.
    apply in_map_iff in Hi as ([docId d] & <- & Hd). simpl in Hid. subst docId.
    apply (querySnapshot_In w' docs _ _ Hsnap) in Hd as [Hd _].
    rewrite Hcol in Hd. injection Hd as <-. repeat split; reflexivity.
Qed.

Lemma addIssueClient_reported_issue_witness :
  querySnapshot Cases.reported Cases.notification /\
  exists title image payload,
    n_title Scenario.pothole = Some title /\
    encodeURIComponent title = Some image /\
    In (ReqAddDoc Issues payload) (requests Cases.reported) /\
    issuesCol Cases.reported !! lit "auto0"
      = Some (resolveServerTimestamp (serverTime Scenario.world) payload) /\
    d_status payload = Recebido /\
    d_upvotes payload = Some 0 /\
    d_comments payload = Some [] /\
    d_imageUrl payload = placeholderPrefix ++ image /\
    forall (now : Date) (docs : list (JsString * IssueData)),
      querySnapshot Cases.reported docs ->
      exists issues : list Issue,
        (forall (S : Type) (callback : list Issue -> S -> S) (page : S),
            listenToIssues callback now docs page = callback issues page) /\
        (exists i, In i issues /\ id i = lit "auto0") /\
        forall i, In i issues -> id i = lit "auto0" ->
          status i = Recebido /\ upvotes i = 0 /\ comments i = [] /\
          imageUrl i = placeholderPrefix ++ image /\
          reportedAt i = toDate (serverTime Scenario.world).
Proof.
  split; [apply (bool_decide_unpack _); vm_compute; reflexivity|].
  apply (addIssueClient_reported_issue Scenario.pothole Scenario.world).
  vm_compute. reflexivity.
Defined.

(** The notification of [Cases], as the listener publishes it: the new
    issue comes first, with the time of the server as its date. *)
Example listenToIssues_notification :
  map (fun i => (id i, reportedAt i))
      (listenToIssues (fun issues _ => issues) 0 Cases.notification [])
  = [(lit "auto0", 1700000000000); (lit "i1", 100000)].
Proof. vm_compute. reflexivity. Qed.

(** ** Removing a comment *)

(** The read that opens [deleteCommentFromIssue]. *)
Lemma getDoc_run (issueId : JsString) (w : World) :
  getDoc issueId w =
    (if bool_decide (head (faults w) = Some true)
     then Throw (FirestoreError "unavailable")
     else Ok (issuesCol w !! issueId),
     withFaults tail (withRequests (fun l => l ++ [readOf issueId]) w)).
Proof.
  unfold getDoc, bind, send, transport. simpl.
  destruct (faults w) as [|[] ?]; reflexivity.
Qed.

(** The comment is not there, the document and its comment array are:
    a warning and nothing else. *)
Lemma deleteCommentFromIssue_comment_not_found
    (issueId commentId : JsString) (w : World) (d : IssueData) (stored : list CommentData) :
  issuesCol w !! issueId = Some d ->
  d_comments d = Some stored ->
  Forall (fun c => c_id c <> commentId) stored ->
  delivered w ->
  exists message,
    deleteCommentFromIssue issueId commentId w =
      (Ok tt, withConsole (fun l => l ++ [Warn message])
                (withFaults tail (withRequests (fun l => l ++ [readOf issueId]) w))).
Proof.
  intros Hd Hcs Hno Hnet. unfold deleteCommentFromIssue, bind.
  rewrite getDoc_run. unfold delivered in Hnet.
  rewrite bool_decide_eq_false_2 by exact Hnet.
  simpl. rewrite Hd, Hcs.
  match goal with
  | |- context [find ?f stored] => assert (Hfind : find f stored = None)
  end.
  { clear Hcs. induction Hno as [|c r Hc Hr IH]; simpl; [reflexivity|].
    rewrite bool_decide_eq_false_2 by exact Hc. exact IH. }
  rewrite Hfind. eexists. reflexivity.
Qed.

(** The document has no [comments] field: [find] is called on
    [undefined]. *)
Lemma deleteCommentFromIssue_no_comments_field
    (issueId commentId : JsString) (w : World) (d : IssueData) :
  issuesCol w !! issueId = Some d ->
  d_comments d = None ->
  delivered w ->
  exists message,
    deleteCommentFromIssue issueId commentId w =
      (Throw (TypeError message),
       withFaults tail (withRequests (fun l => l ++ [readOf issueId]) w)).
Proof.
  intros Hd Hcs Hnet. unfold deleteCommentFromIssue, bind.
  rewrite getDoc_run. unfold delivered in Hnet.
  rewrite bool_decide_eq_false_2 by exact Hnet.
  simpl. rewrite Hd, Hcs. eexists. reflexivity.
Qed.

(** C8. The issue [i0] exists and stores no comment at all, so the
    identifier [c9] matches no stored comment; yet the call does not
    complete: it fails with a [TypeError], and no warning is logged.
    Issue [i1], which has a comment array, gets the warning and
    completes. *)
Theorem deleteCommentFromIssue_legacy_issue_throws :
  issuesCol Scenario.world !! lit "i0" = Some Samples.bare /\
  d_comments Samples.bare = None /\
  (exists message,
     fst (deleteCommentFromIssue (lit "i0") (lit "c9") Scenario.world)
     = Throw (TypeError message)) /\
  console (snd (deleteCommentFromIssue (lit "i0") (lit "c9") Scenario.world)) = [] /\
  fst (deleteCommentFromIssue (lit "i1") (lit "c9") Scenario.world) = Ok tt /\
  length (console (snd (deleteCommentFromIssue (lit "i1") (lit "c9") Scenario.world)))
  = 1%nat.
Proof.
  split; [vm_compute; reflexivity|]. split; [reflexivity|].
  split; [eexists; vm_compute; reflexivity|].
  repeat split; vm_compute; reflexivity.
Qed.

(** C10. When the issue document does not exist, [deleteCommentFromIssue]
    always fails, and with the error "Ocorrencia nao encontrada." whenever
    the read is delivered; the only call issued is that read, and the
    documents and the console are as before.  When the issue exists with
    its comment array and only the comment is missing, the call completes
    instead. *)
Theorem deleteCommentFromIssue_issue_not_found
    (issueId commentId : JsString) (w : World) :
  (issuesCol w !! issueId = None ->
     (exists e, fst (deleteCommentFromIssue issueId commentId w) = Throw e) /\
     (delivered w ->
        fst (deleteCommentFromIssue issueId commentId w)
        = Throw (Error "Ocorrência não encontrada.")) /\
     requests (snd (deleteCommentFromIssue issueId commentId w))
     = requests w ++ [readOf issueId] /\
     issuesCol (snd (deleteCommentFromIssue issueId commentId w)) = issuesCol w /\
     usersCol (snd (deleteCommentFromIssue issueId commentId w)) = usersCol w /\
     console (snd (deleteCommentFromIssue issueId commentId w)) = console w) /\
  (forall (d : IssueData) (stored : list CommentData),
     issuesCol w !! issueId = Some d ->
     d_comments d = Some stored ->
     Forall (fun c => c_id c <> commentId) stored ->
     delivered w ->
     fst (deleteCommentFromIssue issueId commentId w) = Ok tt).
Proof.
  split.
  - intros Hnone. unfold deleteCommentFromIssue, bind, delivered.
    rewrite getDoc_run. simpl. rewrite Hnone.
    destruct (bool_decide_reflect (head (faults w) = Some true)) as [Hf|Hf]; simpl.
    + repeat split; eauto. intros Hd. contradiction.
    + repeat split; eauto.
  - intros d stored Hd Hcs Hno Hnet.
    destruct (deleteCommentFromIssue_comment_not_found _ _ _ _ _ Hd Hcs Hno Hnet)
      as [message ->].
    reflexivity.
Qed.

Lemma deleteCommentFromIssue_issue_not_found_witness :
  fst (deleteCommentFromIssue (lit "gone") (lit "c9") Scenario.world)
  = Throw (Error "Ocorrência não encontrada.") /\
  issuesCol (snd (deleteCommentFromIssue (lit "gone") (lit "c9") Scenario.world))
  = issuesCol Scenario.world /\
  fst (deleteCommentFromIssue (lit "i1") (lit "c9") Scenario.world) = Ok tt.
Proof.
  split; [|split].
  - destruct (deleteCommentFromIssue_issue_not_found (lit "gone") (lit "c9") Scenario.world)
      as [H _].
    apply H; [vm_compute; reflexivity | unfold delivered; simpl; discriminate].
  - destruct (deleteCommentFromIssue_issue_not_found (lit "gone") (lit "c9") Scenario.world)
      as [H _].
    apply H. vm_compute. reflexivity.
  - destruct (deleteCommentFromIssue_issue_not_found (lit "i1") (lit "c9") Scenario.world)
      as [_ H].
    apply (H Samples.discussed
             [Samples.comment "a" 10 0; Samples.comment "b" 30 0;
              Samples.comment "c" 20 500000000]).
    + vm_compute. reflexivity.
    + reflexivity.
    + repeat constructor; discriminate.
    + unfold delivered; simpl; discriminate.
Defined.

(** ** Optimistic upvotes *)

Section UpvoteFacts.
Import Upvote.

Lemma delete_absent (s : JsSet) (x : JsString) : x ∉ s -> Js.delete s x = s.
Proof.
  unfold Js.delete. induction s as [|y r IH]; intros Hx; [reflexivity|].
  apply not_elem_of_cons in Hx as [Hne Hr].
  rewrite filter_cons_True by congruence. now rewrite IH.
Qed.

Lemma has_false (s : JsSet) (x : JsString) : x ∉ s -> has s x = false.
Proof. intros H. unfold has. now apply bool_decide_eq_false_2. Qed.

Lemma has_true (s : JsSet) (x : JsString) : x ∈ s -> has s x = true.
Proof. intros H. unfold has. now apply bool_decide_eq_true_2. Qed.

Lemma add_elem (s : JsSet) (x : JsString) : x ∈ add s x.
Proof.
  unfold add, has. destruct (bool_decide_reflect (x ∈ s)); [assumption|].
  apply elem_of_app. right. apply list_elem_of_singleton. reflexivity.
Qed.

(** [updateIssueUpvotes] is the call followed by the store's answer. *)
Lemma updateIssueUpvotes_split (issueId : JsString) (n : Z) (w : World) :
  updateIssueUpvotes issueId n w =
  settleUpdate (upvotesRef issueId) (SetUpvotes n)
    (snd (send (upvoteRequest issueId n) w)).
Proof. reflexivity. Qed.

(** The store's answer issues no call, and a refusal changes no
    document. *)
Lemma settleUpdate_requests (r : DocRef) (u : Update) (w : World) :
  requests (snd (settleUpdate r u w)) = requests w.
Proof.
  unfold settleUpdate, bind, transport.
  destruct (faults w) as [|[] ?]; simpl; try reflexivity;
    destruct (coll r); simpl;
    try (destruct (issuesCol w !! docId r); reflexivity);
    destruct (usersCol w !! docId r); reflexivity.
Qed.

Lemma settleUpdate_Throw (r : DocRef) (u : Update) (w : World) (e : Exn) :
  fst (settleUpdate r u w) = Throw e ->
  issuesCol (snd (settleUpdate r u w)) = issuesCol w /\
  usersCol (snd (settleUpdate r u w)) = usersCol w.
Proof.
  unfold settleUpdate, bind, transport.
  destruct (faults w) as [|[] ?]; simpl; auto;
    destruct (coll r); simpl;
    try (destruct (issuesCol w !! docId r); simpl; intros; (discriminate || auto));
    destruct (usersCol w !! docId r); simpl; intros; (discriminate || auto).
Qed.

(** The first guard passed, the second too: the optimistic update and
    the call. *)
Lemma handleUpvote_fresh (p : Page) (w : World) (user : AppUser)
    (issueId : JsString) (n : Z) :
  appUser p = Some user ->
  issueId ∉ upvotedIssues p ->
  handleUpvote (render p) issueId n p w =
    (setUpvotedIssues (add (upvotedIssues p) issueId) p,
     withRequests (fun l => l ++ [upvoteRequest issueId (n + 1)]) w,
     Some {| k_render := render p; k_user := user; k_issueId := issueId;
             k_newUpvotes := n + 1;
             k_newUpvotedSet := add (upvotedIssues p) issueId |}).
Proof.
  intros Hu Hx. unfold handleUpvote. simpl.
  rewrite Hu, (has_false _ _ Hx). reflexivity.
Qed.

(** The second guard: an issue already in the set. *)
Lemma handleUpvote_already (p : Page) (w : World) (user : AppUser)
    (issueId : JsString) (n : Z) :
  appUser p = Some user ->
  issueId ∈ upvotedIssues p ->
  handleUpvote (render p) issueId n p w = (p, w, None).
Proof.
  intros Hu Hx. unfold handleUpvote. simpl.
  rewrite Hu, (has_true _ _ Hx). reflexivity.
Qed.

(** The [catch] block, whatever happened to the page while the call was
    pending: the set is the one the handler saw, without the issue. *)
Lemma resumeUpvote_rejected (k : Pending) (p : Page) (w : World) (e : Exn) :
  fst (settleUpdate (upvotesRef (k_issueId k)) (SetUpvotes (k_newUpvotes k)) w) = Throw e ->
  fst (resumeUpvote k p w) = rollback k p.
Proof.
  unfold resumeUpvote. destruct (settleUpdate _ _ w) as [[[]|e'] w']; simpl;
    [discriminate|reflexivity].
Qed.

Lemma resumeUpvote_world (k : Pending) (p : Page) (w : World) :
  snd (resumeUpvote k p w)
  = snd (settleUpdate (upvotesRef (k_issueId k)) (SetUpvotes (k_newUpvotes k)) w).
Proof.
  unfold resumeUpvote. destruct (settleUpdate _ _ w) as [[[]|e'] w']; simpl;
    [destruct (quotaExceeded p)|]; reflexivity.
Qed.

(** The other way: the call is delivered and the issue exists.  The
    issue stays in the set, the ledger is written, nothing is notified,
    and the stored count is the one sent. *)
Lemma upvote_success (p : Page) (w : World) (user : AppUser)
    (issueId : JsString) (n : Z) (d : IssueData) :
  appUser p = Some user ->
  issueId ∉ upvotedIssues p ->
  quotaExceeded p = false ->
  delivered w ->
  issuesCol w !! issueId = Some d ->
  upvotedIssues (fst (upvote issueId n p w)) = upvotedIssues p ++ [issueId] /\
  localStorage (fst (upvote issueId n p w)) !! ledgerKey user
    = Some (upvotedIssues p ++ [issueId]) /\
  toasts (fst (upvote issueId n p w)) = toasts p /\
  issuesCol (snd (upvote issueId n p w)) !! issueId = Some (setUpvotes (n + 1) d).
Proof.
  intros Hu Hx Hq Hnet Hd. unfold upvote.
  rewrite (handleUpvote_fresh p w user issueId n Hu Hx).
  unfold resumeUpvote, settleUpdate, bind, transport, delivered in *. simpl.
  assert (Hadd : add (upvotedIssues p) issueId = upvotedIssues p ++ [issueId]).
  { unfold add. now rewrite (has_false _ _ Hx). }
  destruct (faults w) as [|[] ?]; simpl in *; try congruence;
    rewrite Hd; simpl; rewrite Hq; simpl; rewrite Hadd;
    (repeat split; [apply lookup_insert_eq | apply lookup_insert_eq]).
Qed.

End UpvoteFacts.

(** C2. A signed-in user upvotes an issue that is not in the upvoted set
    and the call to the store fails.  When the handler has finished, the
    upvoted set is the one before the call, without the issue; the ledger
    in local storage is untouched; exactly one notification, the failure
    one, has been added; one call was issued and no document changed. *)
Theorem upvote_rollback (p : Upvote.Page) (w : World) (user : Upvote.AppUser)
    (issueId : JsString) (currentUpvotes : Z) (e : Exn) :
  Upvote.appUser p = Some user ->
  issueId ∉ Upvote.upvotedIssues p ->
  fst (updateIssueUpvotes issueId (currentUpvotes + 1) w) = Throw e ->
  Upvote.upvotedIssues (fst (Upvote.upvote issueId currentUpvotes p w))
    = Upvote.upvotedIssues p /\
  (issueId ∉ Upvote.upvotedIssues (fst (Upvote.upvote issueId currentUpvotes p w))) /\
  Upvote.localStorage (fst (Upvote.upvote issueId currentUpvotes p w))
    = Upvote.localStorage p /\
  Upvote.toasts (fst (Upvote.upvote issueId currentUpvotes p w))
    = Upvote.toasts p ++ [Upvote.upvoteFailed] /\
  requests (snd (Upvote.upvote issueId currentUpvotes p w))
    = requests w ++ [Upvote.upvoteRequest issueId (currentUpvotes + 1)] /\
  issuesCol (snd (Upvote.upvote issueId currentUpvotes p w)) = issuesCol w.
Proof.
  intros Hu Hx Hfail. unfold Upvote.upvote.
  rewrite (handleUpvote_fresh p w user issueId currentUpvotes Hu Hx).
  rewrite updateIssueUpvotes_split in Hfail. simpl in Hfail.
  set (k := Upvote.Build_Pending _ _ _ _ _).
  set (w1 := withRequests _ w) in *.
  rewrite (surjective_pairing (Upvote.resumeUpvote k _ w1)).
  rewrite (resumeUpvote_rejected k _ w1 e Hfail), resumeUpvote_world. simpl.
  rewrite (delete_absent _ _ Hx), settleUpdate_requests.
  destruct (settleUpdate_Throw _ _ _ _ Hfail) as [Hi _].
  rewrite Hi. repeat split; try reflexivity. exact Hx.
Qed.

Lemma upvote_rollback_witness :
  Upvote.upvotedIssues (fst (Upvote.upvote (lit "i0") 0 Upvote.samplePage Scenario.offline))
    = [lit "i1"] /\
  Upvote.toasts (fst (Upvote.upvote (lit "i0") 0 Upvote.samplePage Scenario.offline))
    = [Upvote.upvoteFailed] /\
  Upvote.localStorage (fst (Upvote.upvote (lit "i0") 0 Upvote.samplePage Scenario.offline))
    = Upvote.localStorage Upvote.samplePage.
Proof.
  destruct (upvote_rollback Upvote.samplePage Scenario.offline Upvote.ana (lit "i0") 0
              (FirestoreError "unavailable"))
    as (Hset & _ & Hls & Ht & _).
  - reflexivity.
  - apply (bool_decide_unpack _). vm_compute. reflexivity.
  - vm_compute. reflexivity.
  - split; [exact Hset|]. split; [exact Ht | exact Hls].
Defined.

(** C6. A signed-in user upvotes an issue that is not in the upvoted
    set: one call is issued.  A second call of the handler for the same
    issue, made while the first is pending or after it has settled with
    the issue still in the set, returns at the guard: the page and the
    world are what they were, so no call, no storage write and no
    notification is added, and the store has been called exactly once. *)
Theorem upvote_twice_one_call (p : Upvote.Page) (w : World) (user : Upvote.AppUser)
    (issueId : JsString) (n m : Z) :
  Upvote.appUser p = Some user ->
  issueId ∉ Upvote.upvotedIssues p ->
  exists p1 w1 k,
    Upvote.handleUpvote (Upvote.render p) issueId n p w = (p1, w1, Some k) /\
    requests w1 = requests w ++ [Upvote.upvoteRequest issueId (n + 1)] /\
    (issueId ∈ Upvote.upvotedIssues p1) /\
    Upvote.handleUpvote (Upvote.render p1) issueId m p1 w1 = (p1, w1, None) /\
    (issueId ∈ Upvote.upvotedIssues (fst (Upvote.resumeUpvote k p1 w1)) ->
     Upvote.handleUpvote (Upvote.render (fst (Upvote.resumeUpvote k p1 w1))) issueId m
       (fst (Upvote.resumeUpvote k p1 w1)) (snd (Upvote.resumeUpvote k p1 w1))
       = (Upvote.resumeUpvote k p1 w1, None) /\
     requests (snd (Upvote.resumeUpvote k p1 w1))
       = requests w ++ [Upvote.upvoteRequest issueId (n + 1)]).
Proof.
  intros Hu Hx. eexists _, _, _. split; [apply (handleUpvote_fresh p w user); assumption|].
  split; [reflexivity|].
  split; [apply add_elem|].
  split; [apply (handleUpvote_already _ _ user); [exact Hu | apply add_elem]|].
  intros Hin.
  set (r := Upvote.resumeUpvote _ _ _) in *.
  assert (Hu2 : Upvote.appUser (fst r) = Some user).
  { subst r. unfold Upvote.resumeUpvote.
    destruct (settleUpdate _ _ _) as [[[]|e'] w']; simpl;
      [destruct (Upvote.quotaExceeded p)|]; exact Hu. }
  assert (Hreq : requests (snd r)
                 = requests w ++ [Upvote.upvoteRequest issueId (n + 1)]).
  { subst r. rewrite resumeUpvote_world, settleUpdate_requests. reflexivity. }
  clearbody r. destruct r as [p2 w2]. simpl in *.
  split; [apply (handleUpvote_already _ _ user)|]; assumption.
Qed.

Lemma upvote_twice_one_call_witness :
  exists p1 w1 k,
    Upvote.handleUpvote (Upvote.render Upvote.samplePage) (lit "i0") 0
      Upvote.samplePage Scenario.world = (p1, w1, Some k) /\
    requests w1 = [Upvote.upvoteRequest (lit "i0") 1] /\
    Upvote.handleUpvote (Upvote.render p1) (lit "i0") 0 p1 w1 = (p1, w1, None).
Proof.
  destruct (upvote_twice_one_call Upvote.samplePage Scenario.world Upvote.ana
              (lit "i0") 0 0)
    as (p1 & w1 & k & H1 & H2 & _ & H3 & _).
  - reflexivity.
  - apply (bool_decide_unpack _). vm_compute. reflexivity.
  - exists p1, w1, k. split; [exact H1|]. split; [exact H2 | exact H3].
Defined.

(** A handler kept from an earlier render does not see the optimistic
    update: called again, it issues the call again. *)
Example handleUpvote_stale_render :
  let '(p1, w1, _) :=
    Upvote.handleUpvote (Upvote.render Upvote.samplePage) (lit "i0") 0
      Upvote.samplePage Scenario.world in
  length (requests (snd (fst
    (Upvote.handleUpvote (Upvote.render Upvote.samplePage) (lit "i0") 0 p1 w1))))
  = 2%nat.
Proof. vm_compute. reflexivity. Qed.

(** ** The category filter *)

Section CategoryFilterFacts.
Import CategoryFilter.

Lemma render_fresh (p : Page) : fresh p -> fresh (render p).
Proof.
  intros (Hi & Hm & He). unfold render, useMemo_allCategories, useEffect_select.
  destruct (memo p) as [[dep v]|] eqn:Hmemo.
  - destruct (Hm dep v eq_refl) as [Hdep Hv].
    destruct (dep =? ref (issues p))%nat; simpl;
      destruct (effectDep p) as [d|] eqn:Hd; simpl;
      try destruct (d =? _)%nat; simpl;
      unfold fresh; simpl; rewrite ?Hmemo, ?Hd;
      (split; [lia|split; intros; simplify_eq; try lia; auto]);
      try (specialize (He _ eq_refl); lia).
  - simpl; destruct (effectDep p) as [d|] eqn:Hd; simpl;
      try destruct (d =? _)%nat; simpl;
      unfold fresh; simpl; rewrite ?Hd;
      (split; [lia|split; intros; simplify_eq; try lia; auto]);
      try (specialize (He _ eq_refl); lia).
Qed.

Lemma initial_fresh : fresh initial.
Proof.
  apply render_fresh. unfold fresh. simpl.
  split; [lia|]. split; intros; discriminate.
Qed.

Lemma setIssues_fresh (l : list Issue) (p : Page) : fresh p -> fresh (setIssues l p).
Proof.
  intros (Hi & Hm & He). apply render_fresh. unfold fresh. simpl.
  split; [lia|]. split.
  - intros dep v H. destruct (Hm dep v H). lia.
  - intros dep H. specialize (He dep H). lia.
Qed.

Lemma handleCategoryChange_fresh (c : JsString) (p : Page) :
  fresh p -> fresh (handleCategoryChange c p).
Proof. intros H. apply render_fresh. exact H. Qed.

Lemma run_fresh (es : list Event) : fresh (run es).
Proof.
  unfold run. generalize initial_fresh. generalize initial.
  induction es as [|e es IH]; intros p Hp; simpl; [exact Hp|].
  apply IH. destruct e; [now apply setIssues_fresh | now apply handleCategoryChange_fresh].
Qed.

(** Every snapshot is a new array, so the memo is recomputed into a new
    array and the effect runs again: whenever the snapshot has issues,
    every category in it is selected, whatever was selected before. *)
Lemma setIssues_selects_all (l : list Issue) (p : Page) :
  fresh p ->
  distinctCategories l <> [] ->
  selectedCategories (setIssues l p) = distinctCategories l /\
  allCategories (setIssues l p) = distinctCategories l.
Proof.
  intros (Hi & Hm & He) Hne.
  unfold setIssues, render, useMemo_allCategories, useEffect_select, allCategories.
  simpl.
  assert (Hlen : (0 <? length (distinctCategories l))%nat = true).
  { destruct (distinctCategories l); [congruence|reflexivity]. }
  destruct (memo p) as [[dep v]|] eqn:Hmemo.
  - destruct (Hm dep v eq_refl) as [Hdep Hv].
    destruct (Nat.eqb_spec dep (nextRef p)) as [Heq|_]; [lia|]. simpl.
    destruct (effectDep p) as [d|] eqn:Hd; simpl.
    + specialize (He d eq_refl).
      destruct (Nat.eqb_spec d (S (nextRef p))) as [Heq|_]; [lia|]. simpl.
      rewrite Hlen. auto.
    + rewrite Hlen. auto.
  - simpl. destruct (effectDep p) as [d|] eqn:Hd; simpl.
    + specialize (He d eq_refl).
      destruct (Nat.eqb_spec d (S (nextRef p))) as [Heq|_]; [lia|]. simpl.
      rewrite Hlen. auto.
    + rewrite Hlen. auto.
Qed.

(** On a reachable page, then: *)
Lemma snapshot_selects_all (es : list Event) (l : list Issue) :
  distinctCategories l <> [] ->
  selectedCategories (step (run es) (Snapshot l)) = distinctCategories l.
Proof.
  intros Hne. apply setIssues_selects_all; [apply run_fresh | exact Hne].
Qed.

(** Ticking a box alone does not run the effect. *)
Example toggle_unselects :
  selectedCategories
    (run [Snapshot [sampleIssue "i1" "Roads"; sampleIssue "i2" "Lighting"];
          Toggle (lit "Roads")])
  = [lit "Lighting"]
  /\ map id (filteredIssues
       (run [Snapshot [sampleIssue "i1" "Roads"; sampleIssue "i2" "Lighting"];
             Toggle (lit "Roads")]))
     = [lit "i2"].
Proof. split; vm_compute; reflexivity. Qed.

(** A render that follows a render changes nothing: the state set by
    the effect does not make the effect run again. *)
Lemma useMemo_allCategories_memo (p p1 : Page) (v : Arr JsString) :
  useMemo_allCategories p = (p1, v) ->
  memo p1 = Some (ref (issues p1), v).
Proof.
  unfold useMemo_allCategories.
  destruct (memo p) as [[dep v0]|] eqn:Hm;
    [destruct (Nat.eqb_spec dep (ref (issues p)))|];
    intros H; inversion H; subst; simpl; congruence.
Qed.

Lemma useMemo_allCategories_hit (p : Page) (v : Arr JsString) :
  memo p = Some (ref (issues p), v) ->
  useMemo_allCategories p = (p, v).
Proof.
  intros H. unfold useMemo_allCategories. now rewrite H, Nat.eqb_refl.
Qed.

Lemma useEffect_select_again (p : Page) (v : Arr JsString) :
  useEffect_select v (useEffect_select v p) = useEffect_select v p.
Proof.
  unfold useEffect_select.
  destruct (effectDep p) as [d|] eqn:Hd; simpl;
    [destruct (d =? ref v)%nat eqn:Hde; simpl|];
    rewrite ?Hd; simpl; rewrite ?Hde, ?Nat.eqb_refl; reflexivity.
Qed.

Lemma useEffect_select_memo (p : Page) (v : Arr JsString) :
  memo (useEffect_select v p) = memo p /\
  issues (useEffect_select v p) = issues p.
Proof.
  unfold useEffect_select.
  destruct (match effectDep p with Some dep => _ | None => _ end); auto.
Qed.

Lemma render_idempotent (p : Page) : render (render p) = render p.
Proof.
  unfold render.
  destruct (useMemo_allCategories p) as [p1 v] eqn:H1.
  apply useMemo_allCategories_memo in H1.
  destruct (useEffect_select_memo p1 v) as [Hm Hi].
  rewrite (useMemo_allCategories_hit _ v) by (rewrite Hm, Hi; exact H1).
  apply useEffect_select_again.
Qed.

(** The listener feeds the page: the issue reported in [Scenario.world]
    arrives with the next snapshot and its category is selected. *)
Example reported_issue_reaches_page :
  let page := listenToIssues setIssues 0 Cases.notification initial in
  In (lit "auto0") (map id (filteredIssues page))
  /\ In (lit "Roads") (selectedCategories page).
Proof. vm_compute. split; tauto. Qed.

End CategoryFilterFacts.

(** C1. The page has loaded one issue of category Roads, so its category
    set is not empty and Roads is selected.  The next snapshot brings an
    issue of the new category Lighting: Lighting is selected without the
    user asking.  The same happens to a category the user has unticked:
    the next snapshot selects it again. *)
Theorem later_category_is_selected :
  let roads := CategoryFilter.sampleIssue "i1" "Roads" in
  let lamp := CategoryFilter.sampleIssue "i2" "Lighting" in
  let before := CategoryFilter.run [CategoryFilter.Snapshot [roads]] in
  let after := CategoryFilter.step before (CategoryFilter.Snapshot [roads; lamp]) in
  CategoryFilter.allCategories before = [lit "Roads"] /\
  CategoryFilter.selectedCategories before = [lit "Roads"] /\
  CategoryFilter.allCategories after = [lit "Roads"; lit "Lighting"] /\
  CategoryFilter.selectedCategories after = [lit "Roads"; lit "Lighting"] /\
  CategoryFilter.selectedCategories
    (CategoryFilter.run [CategoryFilter.Snapshot [roads; lamp];
                         CategoryFilter.Toggle (lit "Roads");
                         CategoryFilter.Snapshot [roads; lamp]])
  = [lit "Roads"; lit "Lighting"].
Proof. vm_compute. repeat split; reflexivity. Qed.

(** * Further properties *)

(** ** White space and [trim] *)

Lemma trimStart_split (s : JsString) :
  exists p, s = p ++ trimStart s /\ forallb isWhiteSpace p = true.
Proof.
  induction s as [|c r (p & Hp & Hws)]; [exists []; auto|].
  simpl. destruct (isWhiteSpace c) eqn:Hc.
  - exists (c :: p). simpl. rewrite Hc, Hws. split; [congruence|reflexivity].
  - exists []. auto.
Qed.

Lemma trimStart_head (s : JsString) (c : N) :
  head (trimStart s) = Some c -> isWhiteSpace c = false.
Proof.
  induction s as [|x r IH]; simpl; [discriminate|].
  destruct (isWhiteSpace x) eqn:Hx; [exact IH|].
  simpl. congruence.
Qed.

Lemma trimStart_nil (s : JsString) :
  trimStart s = [] -> forallb isWhiteSpace s = true.
Proof.
  intros H. destruct (trimStart_split s) as (p & Hp & Hws).
  rewrite H, app_nil_r in Hp. now subst.
Qed.

Lemma trimStart_fixed (s : JsString) :
  (forall c, head s = Some c -> isWhiteSpace c = false) -> trimStart s = s.
Proof.
  destruct s as [|c r]; [reflexivity|]. intros H. simpl.
  now rewrite (H c eq_refl).
Qed.

Lemma head_rev_last {A} (l : list A) : head (rev l) = last l.
Proof.
  induction l as [|x r IH] using rev_ind; [reflexivity|].
  rewrite rev_app_distr, last_snoc. reflexivity.
Qed.

Lemma last_rev_head {A} (l : list A) : last (rev l) = head l.
Proof. rewrite <- head_rev_last, rev_involutive. reflexivity. Qed.

Lemma forallb_rev {A} (f : A -> bool) (l : list A) :
  forallb f (rev l) = forallb f l.
Proof.
  induction l as [|x r IH]; [reflexivity|].
  simpl. rewrite forallb_app, IH. simpl. rewrite andb_true_r. apply andb_comm.
Qed.

(** What [trim] returns neither starts nor ends with white space. *)
Lemma trim_last (s : JsString) (c : N) :
  last (trim s) = Some c -> isWhiteSpace c = false.
Proof.
  unfold trim, trimEnd. rewrite last_rev_head. apply trimStart_head.
Qed.

Lemma trim_head (s : JsString) (c : N) :
  head (trim s) = Some c -> isWhiteSpace c = false.
Proof.
  unfold trim, trimEnd. set (t := trimStart s).
  destruct (trimStart_split (rev t)) as (p & Hp & _).
  set (u := trimStart (rev t)) in *.
  assert (Ht : t = rev u ++ rev p).
  { rewrite <- rev_app_distr, <- Hp, rev_involutive. reflexivity. }
  intros Hc. apply (trimStart_head s). fold t. rewrite Ht.
  destruct (rev u) as [|x r]; [discriminate|]. exact Hc.
Qed.

Lemma trim_idempotent (s : JsString) : trim (trim s) = trim s.
Proof.
  unfold trim at 1. rewrite (trimStart_fixed (trim s)) by apply trim_head.
  unfold trimEnd, trim, trimEnd. rewrite rev_involutive.
  f_equal. apply trimStart_fixed. intros c. apply trimStart_head.
Qed.

Lemma trim_nil (s : JsString) : trim s = [] -> forallb isWhiteSpace s = true.
Proof.
  unfold trim, trimEnd. intros H.
  apply (f_equal (@rev N)) in H. rewrite rev_involutive in H. simpl in H.
  apply trimStart_nil in H. rewrite forallb_rev in H.
  apply trimStart_nil. destruct (trimStart s) as [|c r] eqn:Hs; [reflexivity|].
  pose proof (trimStart_head s c) as Hc. rewrite Hs in Hc.
  simpl in H. rewrite (Hc eq_refl) in H. discriminate.
Qed.

Lemma blank_emptyOrWhitespace (s : option JsString) :
  blank s = true -> emptyOrWhitespace s.
Proof.
  destruct s as [s|]; simpl; [|trivial].
  destruct (trim s) eqn:Ht; [|discriminate]. intros _. now apply trim_nil.
Qed.

Lemma falsy_missing (s : option JsString) : falsy s = true -> missing s.
Proof.
  destruct s as [[|c r]|]; simpl; unfold missing; auto; discriminate.
Qed.

Lemma invalidLocation_bad (l : option RawLocation) :
  invalidLocation l = true -> badLocation l.
Proof.
  destruct l as [[la lo]|]; simpl; [|trivial].
  destruct la as [| |?|[]|?], lo as [| |?|[]|?]; simpl; auto; discriminate.
Qed.

(** ** Reporting an issue, step by step *)

Lemma transport_delivered (w : World) :
  delivered w -> transport w = (Ok tt, withFaults tail w).
Proof.
  unfold delivered, transport. destruct (faults w) as [|[] ?]; simpl; congruence.
Qed.

Lemma transport_failed (w : World) :
  head (faults w) = Some true ->
  transport w = (Throw (FirestoreError "unavailable"), withFaults tail w).
Proof.
  unfold transport. destruct (faults w) as [|[] ?]; simpl; congruence.
Qed.

(** Stopped before [addDoc]: an error and an untouched world. *)
Lemma addIssueClient_unprepared (issue : NewIssue) (w : World) :
  prepared issue = None ->
  exists e, addIssueClient issue w = (Throw e, w).
Proof.
  unfold prepared, addIssueClient.
  destruct (blank (n_title issue)); [eauto|].
  destruct (blank (n_description issue)); [eauto|].
  destruct (blank (n_address issue)); [eauto|].
  destruct (falsy (n_reporterId issue)); [eauto|].
  destruct (invalidLocation (n_location issue)); [eauto|]. simpl.
  destruct (n_title issue) as [title|]; [|eauto].
  destruct (n_description issue) as [description|]; [|eauto].
  destruct (n_address issue) as [address|]; [|eauto].
  destruct (n_reporterId issue) as [reporterId|]; [|eauto].
  destruct (coordinates (n_location issue)) as [[la lo]|]; [|eauto].
  unfold bind, lift.
  destruct (placeholderImage title) as [image|e]; [|eauto].
  destruct (newGeoPoint la lo) as [point|e]; [discriminate|eauto].
Qed.

(** Otherwise the document is written, then the counter is updated. *)
Lemma addIssueClient_prepared (issue : NewIssue) (w : World)
    (reporterId : JsString) (payload : IssueData) :
  prepared issue = Some (reporterId, payload) ->
  addIssueClient issue w =
    (newId <- addDoc payload ;;
     (updateDoc {| coll := Users; docId := reporterId |} (IncrementIssuesReported 1) ;;;
      ret newId)) w.
Proof.
  unfold prepared, addIssueClient.
  destruct (blank (n_title issue)); [discriminate|].
  destruct (blank (n_description issue)); [discriminate|].
  destruct (blank (n_address issue)); [discriminate|].
  destruct (falsy (n_reporterId issue)); [discriminate|].
  destruct (invalidLocation (n_location issue)); [discriminate|]. simpl.
  destruct (n_title issue) as [title|]; [|discriminate].
  destruct (n_description issue) as [description|]; [|discriminate].
  destruct (n_address issue) as [address|]; [|discriminate].
  destruct (n_reporterId issue) as [rid|]; [|discriminate].
  destruct (coordinates (n_location issue)) as [[la lo]|]; [|discriminate].
  unfold bind at 1 2, lift.
  destruct (placeholderImage title) as [image|e]; [|discriminate].
  destruct (newGeoPoint la lo) as [point|e]; [|discriminate].
  intros H. injection H as <- <-. reflexivity.
Qed.

(** The fields of a payload. *)
Lemma prepared_payload (issue : NewIssue) (reporterId : JsString) (payload : IssueData) :
  prepared issue = Some (reporterId, payload) ->
  exists title description address image point,
    n_title issue = Some title /\ n_description issue = Some description /\
    n_address issue = Some address /\ n_reporterId issue = Some reporterId /\
    trim title <> [] /\ trim description <> [] /\ trim address <> [] /\
    reporterId <> [] /\
    encodeURIComponent title = Some image /\
    payload = payloadOf issue title description address reporterId
                (placeholderPrefix ++ image) point.
Proof.
  unfold prepared.
  destruct (blank (n_title issue)) eqn:Ht; [discriminate|].
  destruct (blank (n_description issue)) eqn:Hd; [discriminate|].
  destruct (blank (n_address issue)) eqn:Ha; [discriminate|].
  destruct (falsy (n_reporterId issue)) eqn:Hr; [discriminate|].
  destruct (invalidLocation (n_location issue)); [discriminate|]. simpl.
  destruct (n_title issue) as [title|]; [|discriminate].
  destruct (n_description issue) as [description|]; [|discriminate].
  destruct (n_address issue) as [address|]; [|discriminate].
  destruct (n_reporterId issue) as [rid|]; [|discriminate].
  destruct (coordinates (n_location issue)) as [[la lo]|]; [|discriminate].
  unfold placeholderImage.
  destruct (encodeURIComponent title) as [enc|] eqn:Henc; [|discriminate].
  destruct (newGeoPoint la lo) as [point|e]; [|discriminate].
  intros H. injection H as <- <-.
  exists title, description, address, enc, point.
  repeat split; try reflexivity.
  - simpl in Ht. destruct (trim title); [discriminate|congruence].
  - simpl in Hd. destruct (trim description); [discriminate|congruence].
  - simpl in Ha. destruct (trim address); [discriminate|congruence].
  - simpl in Hr. destruct rid; [discriminate|congruence].
  - exact Henc.
Qed.

(** [addDoc] and the counter update, run. *)
Lemma addDoc_run (payload : IssueData) (w : World) :
  delivered w ->
  addDoc payload w =
    (Ok (autoIds w (allocated w)),
     withAllocated S
       (withIssues <[autoIds w (allocated w)
                     := resolveServerTimestamp (serverTime w) payload]>
          (withFaults tail (withRequests (fun l => l ++ [ReqAddDoc Issues payload]) w)))).
Proof.
  intros H. unfold addDoc, bind, send. simpl.
  rewrite transport_delivered by exact H. reflexivity.
Qed.

Lemma addIssueClient_Ok_prepared (issue : NewIssue) (w w' : World) (newId : JsString) :
  addIssueClient issue w = (Ok newId, w') ->
  exists reporterId payload,
    prepared issue = Some (reporterId, payload) /\
    issuesCol w' !! newId = Some (resolveServerTimestamp (serverTime w) payload).
Proof.
  intros H. destruct (prepared issue) as [[rid payload]|] eqn:Hp.
  - exists rid, payload. split; [reflexivity|].
    destruct (prepared_payload _ _ _ Hp)
      as (t & d & a & img & pt & Ht & _ & _ & _ & _ & _ & _ & _ & Henc & ->).
    destruct (addIssueClient_Ok _ _ _ _ H)
      as (t' & d' & a' & r' & img' & pt' & Ht' & Henc' & Hin & Hcol).
    rewrite (addIssueClient_prepared _ _ _ _ Hp) in H.
    apply bind_Ok in H as (id1 & w1 & Hadd & H).
    apply bind_Ok in H as ([] & w2 & Hupd & H). inversion H; subst.
    unfold addDoc, bind, send, transport in Hadd. simpl in Hadd.
    unfold updateDoc, settleUpdate, bind, send, transport in Hupd. simpl in Hupd.
    assert (issuesCol w' = issuesCol w1).
    { destruct (faults w1) as [|[] ?]; simpl in Hupd; try discriminate;
        destruct (usersCol w1 !! rid); inversion Hupd; reflexivity. }
    destruct (faults w) as [|[] ?]; inversion Hadd; subst; simpl in *;
      rewrite H0; apply lookup_insert_eq.
  - destruct (addIssueClient_unprepared issue w Hp) as [e He]. congruence.
Qed.

Lemma addIssueClient_run (issue : NewIssue) (w : World)
    (reporterId : JsString) (payload : IssueData) :
  prepared issue = Some (reporterId, payload) ->
  deliveredFor 2 (faults w) ->
  let newId := autoIds w (allocated w) in
  let w1 := withAllocated S
              (withIssues <[newId := resolveServerTimestamp (serverTime w) payload]>
                 (withFaults tail
                    (withRequests (fun l => l ++ [ReqAddDoc Issues payload]) w))) in
  let w2 := withFaults tail
              (withRequests
                 (fun l => l ++ [ReqUpdateDoc {| coll := Users; docId := reporterId |}
                                              (IncrementIssuesReported 1)]) w1) in
  addIssueClient issue w =
    match usersCol w !! reporterId with
    | Some n => (Ok newId, withUsers <[reporterId := n + 1]> w2)
    | None => (Throw (FirestoreError "not-found"), w2)
    end.
Proof.
  intros Hp (H1 & H2 & _). cbv zeta.
  rewrite (addIssueClient_prepared _ _ _ _ Hp).
  unfold bind at 1. rewrite addDoc_run by exact H1.
  unfold bind, updateDoc, settleUpdate, bind, send. simpl.
  rewrite transport_delivered by exact H2. simpl.
  destruct (usersCol w !! reporterId); reflexivity.
Qed.

Lemma bind_Throw {A B} (m : M A) (k : A -> M B) (w w' : World) (e : Exn) :
  bind m k w = (Throw e, w') ->
  m w = (Throw e, w') \/ exists a w1, m w = (Ok a, w1) /\ k a w1 = (Throw e, w').
Proof.
  unfold bind. destruct (m w) as [[a|e0] w1]; intros H; [right; eauto|left; inversion H; reflexivity].
Qed.

(** The store's own failures are [FirestoreError]s. *)
Lemma transport_Throw (w w' : World) (e : Exn) :
  transport w = (Throw e, w') -> exists c, e = FirestoreError c.
Proof.
  unfold transport. destruct (faults w) as [|[] ?]; intros H; inversion H; eauto.
Qed.

Lemma addDoc_Throw (payload : IssueData) (w w' : World) (e : Exn) :
  addDoc payload w = (Throw e, w') -> exists c, e = FirestoreError c.
Proof.
  unfold addDoc. intros H.
  apply bind_Throw in H as [H|([] & w1 & _ & H)]; [discriminate H|].
  apply bind_Throw in H as [H|([] & w2 & _ & H)]; [now apply transport_Throw in H|].
  discriminate H.
Qed.

Lemma updateDoc_Throw (r : DocRef) (u : Update) (w w' : World) (e : Exn) :
  updateDoc r u w = (Throw e, w') -> exists c, e = FirestoreError c.
Proof.
  unfold updateDoc, settleUpdate. intros H.
  apply bind_Throw in H as [H|([] & w1 & _ & H)]; [discriminate H|].
  apply bind_Throw in H as [H|([] & w2 & _ & H)]; [now apply transport_Throw in H|].
  destruct (coll r);
    [destruct (issuesCol w2 !! docId r)|destruct (usersCol w2 !! docId r)];
    inversion H; eauto.
Qed.

(** X1. [addIssueClient] fails with one of the five validation errors,
    the world untouched, for exactly the inputs with an empty or blank
    title, description or address, a missing reporter id or a coordinate
    that is not a number; no other input is refused this way. *)
Theorem addIssueClient_rejects_exactly (issue : NewIssue) (w : World) :
  (exists e, addIssueClient issue w = (Throw e, w) /\ In e validationErrors)
  <-> invalidInput issue.
Proof.
  split.
  - intros (e & He & Hin).
    destruct (blank (n_title issue)) eqn:Ht;
      [left; now apply blank_emptyOrWhitespace|].
    destruct (blank (n_description issue)) eqn:Hd;
      [right; left; now apply blank_emptyOrWhitespace|].
    destruct (blank (n_address issue)) eqn:Ha;
      [right; right; left; now apply blank_emptyOrWhitespace|].
    destruct (falsy (n_reporterId issue)) eqn:Hr;
      [right; right; right; left; now apply falsy_missing|].
    destruct (invalidLocation (n_location issue)) eqn:Hl;
      [right; right; right; right; now apply invalidLocation_bad|].
    exfalso.
    assert (Hnot : forall m, e <> Error m);
      [|simpl in Hin; intuition (eapply Hnot; eauto)].
    destruct (prepared issue) as [[rid payload]|] eqn:Hp.
    + rewrite (addIssueClient_prepared _ _ _ _ Hp) in He.
      apply bind_Throw in He as [He|(newId & w1 & _ & He)];
        [apply addDoc_Throw in He as [c ->]; discriminate|].
      apply bind_Throw in He as [He|([] & w2 & _ & He)];
        [apply updateDoc_Throw in He as [c ->]; discriminate|].
      discriminate He.
    + unfold prepared in Hp. unfold addIssueClient in He.
      rewrite Ht, Hd, Ha, Hr, Hl in Hp, He. simpl in Hp. revert Hp He.
      destruct (n_title issue) as [title|]; [|intros _ He m; inversion He; congruence].
      destruct (n_description issue) as [description|];
        [|intros _ He m; inversion He; congruence].
      destruct (n_address issue) as [address|];
        [|intros _ He m; inversion He; congruence].
      destruct (n_reporterId issue) as [reporterId|];
        [|intros _ He m; inversion He; congruence].
      destruct (coordinates (n_location issue)) as [[la lo]|];
        [|intros _ He m; inversion He; congruence].
      unfold bind, lift, placeholderImage, newGeoPoint.
      destruct (encodeURIComponent title); [|intros _ He m; inversion He; congruence].
      destruct (inRange _ _ la && inRange _ _ lo);
        [discriminate|intros _ He m; inversion He; congruence].
  - intros H. apply addIssueClient_invalid.
    destruct H as [H|[H|[H|[H|H]]]].
    + rewrite (emptyOrWhitespace_blank _ H). reflexivity.
    + rewrite (emptyOrWhitespace_blank _ H). now rewrite orb_true_r.
    + rewrite (emptyOrWhitespace_blank _ H). now rewrite !orb_true_r.
    + rewrite (missing_falsy _ H). now rewrite !orb_true_r.
    + rewrite (badLocation_invalid _ H). now rewrite !orb_true_r.
Qed.

Lemma resolveServerTimestamp_fields (t : Timestamp) (d : IssueData) :
  d_title (resolveServerTimestamp t d) = d_title d /\
  d_description (resolveServerTimestamp t d) = d_description d /\
  d_address (resolveServerTimestamp t d) = d_address d /\
  d_imageUrl (resolveServerTimestamp t d) = d_imageUrl d /\
  d_category (resolveServerTimestamp t d) = d_category d.
Proof.
  unfold resolveServerTimestamp. destruct (d_reportedAt d); repeat split.
Qed.

Lemma trim_tidy (s : JsString) : trim s <> [] -> tidy (trim s).
Proof.
  intros H. split; [exact H|]. split; intros c; [apply trim_head|apply trim_last].
Qed.

(** X2. The title, the description and the address of a reported issue
    are stored trimmed: none is empty, none starts or ends with white
    space. *)
Theorem addIssueClient_stores_tidy_text
    (issue : NewIssue) (w w' : World) (newId : JsString) :
  addIssueClient issue w = (Ok newId, w') ->
  exists d, issuesCol w' !! newId = Some d /\
            tidy (d_title d) /\ tidy (d_description d) /\ tidy (d_address d).
Proof.
  intros H. apply addIssueClient_Ok_prepared in H as (rid & payload & Hp & Hcol).
  eexists. split; [exact Hcol|].
  destruct (resolveServerTimestamp_fields (serverTime w) payload)
    as (-> & -> & -> & _).
  destruct (prepared_payload _ _ _ Hp)
    as (t & d & a & img & pt & _ & _ & _ & _ & Ht & Hd & Ha & _ & _ & ->).
  simpl. repeat split; try assumption; intros c;
    (apply trim_head || apply trim_last).
Qed.

Lemma addIssueClient_stores_tidy_text_witness :
  exists d,
    issuesCol (snd (addIssueClient Scenario.pothole Scenario.world)) !! lit "auto0"
    = Some d /\
    tidy (d_title d) /\ tidy (d_description d) /\ tidy (d_address d).
Proof.
  apply (addIssueClient_stores_tidy_text Scenario.pothole Scenario.world).
  vm_compute. reflexivity.
Defined.

(** ** The placeholder address *)

Lemma hexDigit_unreserved (n : N) : (n < 16)%N -> uriUnreserved (hexDigit n) = true.
Proof.
  intros H. destruct n as [|p]; [reflexivity|].
  do 4 (destruct p as [p|p|]; try reflexivity); lia.
Qed.

Lemma percent_safe (b : N) : (b < 256)%N -> Forall uriSafe (percent b).
Proof.
  intros H. unfold percent.
  apply Forall_cons. split; [right; reflexivity|].
  apply Forall_cons. split.
  { left. apply hexDigit_unreserved. apply N.Div0.div_lt_upper_bound. lia. }
  apply Forall_cons. split; [|constructor].
  left. apply hexDigit_unreserved. apply N.mod_lt. discriminate.
Qed.

Lemma utf8_octets (cp : N) : (cp < 1114112)%N -> Forall (fun b => (b < 256)%N) (utf8 cp).
Proof.
  intros H. unfold utf8.
  assert (H64 : forall x, (x mod 64 < 64)%N) by (intros; apply N.mod_lt; discriminate).
  destruct (N.ltb_spec cp 128); [repeat constructor; lia|].
  destruct (N.ltb_spec cp 2048).
  { assert (cp / 64 < 32)%N by (apply N.Div0.div_lt_upper_bound; lia).
    specialize (H64 cp). repeat constructor; lia. }
  destruct (N.ltb_spec cp 65536).
  { assert (cp / 4096 < 16)%N by (apply N.Div0.div_lt_upper_bound; lia).
    pose proof (H64 cp). pose proof (H64 (cp / 64)%N). repeat constructor; lia. }
  assert (cp / 262144 < 5)%N by (apply N.Div0.div_lt_upper_bound; lia).
  pose proof (H64 cp). pose proof (H64 (cp / 64)%N). pose proof (H64 (cp / 4096)%N).
  repeat constructor; lia.
Qed.

Lemma percent_utf8_safe (cp : N) :
  (cp < 1114112)%N -> Forall uriSafe (concat (map percent (utf8 cp))).
Proof.
  intros H. apply Forall_concat, Forall_forall. intros l Hl.
  apply list_elem_of_In, in_map_iff in Hl as (b & <- & Hb).
  apply percent_safe. pose proof (utf8_octets cp H) as Hall.
  rewrite Forall_forall in Hall. apply Hall, list_elem_of_In, Hb.
Qed.

Lemma encodeURIComponent_cons (c : N) (r : JsString) :
  encodeURIComponent (c :: r) =
    if uriUnreserved c then option_map (cons c) (encodeURIComponent r)
    else if isTrailSurrogate c then None
    else if isLeadSurrogate c then
      match r with
      | d :: r' =>
        if isTrailSurrogate d then
          option_map
            (app (concat (map percent
               (utf8 ((c - 55296) * 1024 + (d - 56320) + 65536)%N))))
            (encodeURIComponent r')
        else None
      | [] => None
      end
    else option_map (app (concat (map percent (utf8 c)))) (encodeURIComponent r).
Proof. reflexivity. Qed.

(** The encoding of a string of 16-bit code units has only letters,
    digits, [-_.!~*'()] and [%]. *)
Lemma encodeURIComponent_safe (s : JsString) :
  wellFormed s ->
  forall e, encodeURIComponent s = Some e -> Forall uriSafe e.
Proof.
  unfold wellFormed.
  enough (H : (Forall (fun c => (c < 65536)%N) s ->
               forall e, encodeURIComponent s = Some e -> Forall uriSafe e) /\
              (forall c, Forall (fun c => (c < 65536)%N) (c :: s) ->
               forall e, encodeURIComponent (c :: s) = Some e -> Forall uriSafe e))
    by apply H.
  induction s as [|d r [IHr IHd]].
  - split; [intros _ e He; inversion He; constructor|].
    intros c Hc e. apply Forall_cons in Hc as [Hc _]. simpl.
    destruct (uriUnreserved c) eqn:Hu.
    + intros He. inversion He. constructor; [now left|constructor].
    + destruct (isTrailSurrogate c); [discriminate|].
      destruct (isLeadSurrogate c); [discriminate|].
      intros He. inversion He. rewrite app_nil_r.
      apply percent_utf8_safe. lia.
  - split; [exact (IHd d)|].
    intros c Hc e. apply Forall_cons in Hc as [Hc Hdr].
    pose proof Hdr as Hdr'. apply Forall_cons in Hdr' as [Hd Hr].
    rewrite (encodeURIComponent_cons c (d :: r)).
    destruct (uriUnreserved c) eqn:Hu.
    + destruct (encodeURIComponent (d :: r)) as [e'|] eqn:He'; [|discriminate].
      intros He. inversion He. constructor; [now left|]. exact (IHd d Hdr e' He').
    + destruct (isTrailSurrogate c); [discriminate|].
      destruct (isLeadSurrogate c) eqn:Hlead.
      * destruct (isTrailSurrogate d) eqn:Htrail; [|discriminate].
        destruct (encodeURIComponent r) as [e'|] eqn:He'; [|discriminate].
        intros He. inversion He. apply Forall_app. split; [|exact (IHr Hr e' eq_refl)].
        apply percent_utf8_safe.
        unfold isLeadSurrogate, isTrailSurrogate in *.
        apply andb_true_iff in Hlead as [H1 H2], Htrail as [H3 H4].
        apply N.leb_le in H1, H2, H3, H4. lia.
      * destruct (encodeURIComponent (d :: r)) as [e'|] eqn:He'; [|discriminate].
        intros He. inversion He. apply Forall_app. split; [|exact (IHd d Hdr e' He')].
        apply percent_utf8_safe. lia.
Qed.

(** X3. The image address of a reported issue whose title is made of
    16-bit code units is the placeholder prefix followed by the encoded
    title, in which only letters, digits, [-_.!~*'()] and [%] occur: the
    title cannot break out of the query string. *)
Theorem addIssueClient_image_address
    (issue : NewIssue) (w w' : World) (newId title : JsString) :
  addIssueClient issue w = (Ok newId, w') ->
  n_title issue = Some title ->
  wellFormed title ->
  exists d text,
    issuesCol w' !! newId = Some d /\
    encodeURIComponent title = Some text /\
    d_imageUrl d = placeholderPrefix ++ text /\
    Forall uriSafe text.
Proof.
  intros H Ht Hwf. apply addIssueClient_Ok_prepared in H as (rid & payload & Hp & Hcol).
  destruct (prepared_payload _ _ _ Hp)
    as (t & d & a & img & pt & Ht' & _ & _ & _ & _ & _ & _ & _ & Henc & ->).
  assert (t = title) as -> by congruence.
  eexists _, img. split; [exact Hcol|]. split; [exact Henc|].
  destruct (resolveServerTimestamp_fields (serverTime w)
              (payloadOf issue title d a rid (placeholderPrefix ++ img) pt))
    as (_ & _ & _ & -> & _).
  split; [reflexivity|]. now apply (encodeURIComponent_safe title).
Qed.

Lemma addIssueClient_image_address_witness :
  exists d text,
    issuesCol (snd (addIssueClient Scenario.pothole Scenario.world)) !! lit "auto0"
    = Some d /\
    encodeURIComponent (lit " Pothole ") = Some text /\
    d_imageUrl d = placeholderPrefix ++ text /\
    Forall uriSafe text.
Proof.
  apply (addIssueClient_image_address Scenario.pothole Scenario.world).
  - vm_compute. reflexivity.
  - reflexivity.
  - unfold wellFormed. repeat constructor.
Defined.

(** ** What a report leaves behind *)

(** X4. A well-formed report whose two calls are delivered, from a
    reporter who has no user document: [addIssueClient] fails with
    "not-found" from the counter update, but the issue document it wrote
    first stays in the store. *)
Theorem addIssueClient_keeps_issue_when_counter_fails
    (issue : NewIssue) (w : World) (reporterId : JsString) (payload : IssueData) :
  prepared issue = Some (reporterId, payload) ->
  deliveredFor 2 (faults w) ->
  usersCol w !! reporterId = None ->
  fst (addIssueClient issue w) = Throw (FirestoreError "not-found") /\
  issuesCol (snd (addIssueClient issue w)) !! autoIds w (allocated w)
  = Some (resolveServerTimestamp (serverTime w) payload) /\
  usersCol (snd (addIssueClient issue w)) = usersCol w.
Proof.
  intros Hp Hnet Hu. rewrite (addIssueClient_run _ _ _ _ Hp Hnet), Hu. simpl.
  split; [reflexivity|]. split; [apply lookup_insert_eq|reflexivity].
Qed.

Lemma addIssueClient_keeps_issue_when_counter_fails_witness :
  fst (addIssueClient Cases.stranger Scenario.world) = Throw (FirestoreError "not-found") /\
  (d_category <$> issuesCol (snd (addIssueClient Cases.stranger Scenario.world))
     !! lit "auto0") = Some (lit "Outros").
Proof.
  destruct (prepared Cases.stranger) as [[rid payload]|] eqn:Hp; [|discriminate].
  destruct (addIssueClient_keeps_issue_when_counter_fails
              Cases.stranger Scenario.world rid payload Hp) as (H1 & H2 & _).
  - simpl. repeat split; discriminate.
  - vm_compute in Hp. injection Hp as <- <-. vm_compute. reflexivity.
  - split; [exact H1|]. vm_compute. reflexivity.
Defined.

(** X5. A well-formed report whose two calls are delivered, from a
    reporter whose counter is [n]: the new identifier is returned, the
    issue is stored under it, the reporter's counter becomes [n + 1],
    exactly two calls are issued, first the write and then the counter
    update, and every other issue and user document is as before. *)
Theorem addIssueClient_effect
    (issue : NewIssue) (w : World) (reporterId : JsString) (payload : IssueData) (n : Z) :
  prepared issue = Some (reporterId, payload) ->
  deliveredFor 2 (faults w) ->
  usersCol w !! reporterId = Some n ->
  let newId := autoIds w (allocated w) in
  let w' := snd (addIssueClient issue w) in
  fst (addIssueClient issue w) = Ok newId /\
  issuesCol w' !! newId = Some (resolveServerTimestamp (serverTime w) payload) /\
  usersCol w' !! reporterId = Some (n + 1) /\
  requests w' = requests w ++
                [ReqAddDoc Issues payload;
                 ReqUpdateDoc {| coll := Users; docId := reporterId |}
                              (IncrementIssuesReported 1)] /\
  (forall i, i <> newId -> issuesCol w' !! i = issuesCol w !! i) /\
  (forall u, u <> reporterId -> usersCol w' !! u = usersCol w !! u) /\
  console w' = console w.
Proof.
  intros Hp Hnet Hu. cbv zeta.
  rewrite (addIssueClient_run _ _ _ _ Hp Hnet), Hu. simpl.
  split; [reflexivity|]. split; [apply lookup_insert_eq|].
  split; [apply lookup_insert_eq|].
  split; [now rewrite <- app_assoc|].
  split; [intros i Hi; now apply lookup_insert_ne|].
  split; [intros u Hne; now apply lookup_insert_ne|reflexivity].
Qed.

Lemma addIssueClient_effect_witness :
  fst (addIssueClient Scenario.pothole Scenario.world) = Ok (lit "auto0") /\
  usersCol (snd (addIssueClient Scenario.pothole Scenario.world)) !! lit "u1" = Some 3 /\
  length (requests (snd (addIssueClient Scenario.pothole Scenario.world))) = 2%nat.
Proof.
  destruct (prepared Scenario.pothole) as [[rid payload]|] eqn:Hp; [|discriminate].
  assert (rid = lit "u1") as ->
    by (vm_compute in Hp; injection Hp as <- _; reflexivity).
  destruct (addIssueClient_effect Scenario.pothole Scenario.world (lit "u1") payload 2 Hp)
    as (H1 & _ & H3 & H4 & _).
  - simpl. repeat split; discriminate.
  - vm_compute. reflexivity.
  - split; [exact H1|]. split; [exact H3|]. rewrite H4. reflexivity.
Defined.

(** ** Updating and deleting an issue *)

Lemma updateDoc_issue_run (issueId : JsString) (u : Update) (w : World) :
  delivered w ->
  let w1 := withFaults tail
              (withRequests (fun l => l ++ [ReqUpdateDoc (issueRef issueId) u]) w) in
  updateDoc (issueRef issueId) u w =
    match issuesCol w !! issueId with
    | Some d => (Ok tt, withIssues <[issueId := applyToIssue u d]> w1)
    | None => (Throw (FirestoreError "not-found"), w1)
    end.
Proof.
  intros H. unfold updateDoc, settleUpdate, bind, send. simpl.
  rewrite transport_delivered by exact H. simpl.
  destruct (issuesCol w !! issueId); reflexivity.
Qed.

Lemma updateDoc_issue_undelivered (issueId : JsString) (u : Update) (w : World) :
  ~ delivered w ->
  updateDoc (issueRef issueId) u w =
    (Throw (FirestoreError "unavailable"),
     withFaults tail
       (withRequests (fun l => l ++ [ReqUpdateDoc (issueRef issueId) u]) w)).
Proof.
  intros H. unfold updateDoc, settleUpdate, bind, send. simpl.
  rewrite transport_failed; [reflexivity|].
  unfold delivered in H. simpl.
  destruct (faults w) as [|[] ?]; simpl in *; [exfalso; apply H; discriminate|
                                               reflexivity|exfalso; apply H; discriminate].
Qed.

Lemma delivered_dec (w : World) : delivered w \/ ~ delivered w.
Proof.
  unfold delivered. destruct (faults w) as [|[] ?]; simpl;
    [left; discriminate|right; intros H; now apply H|left; discriminate].
Qed.

(** X6. [updateIssueUpvotes] succeeds exactly when the call is delivered
    and the issue exists.  Then the issue is published with the count
    that was sent and with its other fields as before, and no other
    document changes; when it fails, no document changes at all. *)
Theorem updateIssueUpvotes_effect (issueId : JsString) (n : Z) (w : World) :
  let w' := snd (updateIssueUpvotes issueId n w) in
  (fst (updateIssueUpvotes issueId n w) = Ok tt
   <-> delivered w /\ is_Some (issuesCol w !! issueId)) /\
  (forall d now,
     delivered w -> issuesCol w !! issueId = Some d ->
     exists d', issuesCol w' !! issueId = Some d' /\
       upvotes (fromFirestore now d' issueId) = n /\
       title (fromFirestore now d' issueId) = title (fromFirestore now d issueId) /\
       status (fromFirestore now d' issueId) = status (fromFirestore now d issueId) /\
       comments (fromFirestore now d' issueId) = comments (fromFirestore now d issueId) /\
       reportedAt (fromFirestore now d' issueId) = reportedAt (fromFirestore now d issueId)) /\
  (forall j, j <> issueId -> issuesCol w' !! j = issuesCol w !! j) /\
  (fst (updateIssueUpvotes issueId n w) <> Ok tt -> issuesCol w' = issuesCol w).
Proof.
  cbv zeta. unfold updateIssueUpvotes. change (upvotesRef issueId) with (issueRef issueId).
  destruct (delivered_dec w) as [Hd|Hd].
  - rewrite (updateDoc_issue_run _ _ _ Hd). cbv zeta.
    destruct (issuesCol w !! issueId) as [d|] eqn:Hdoc; simpl.
    + split; [split; [intros _; split; [exact Hd|eauto]|reflexivity]|].
      split.
      { intros d0 now _ Heq. injection Heq as <-. eexists. split; [apply lookup_insert_eq|].
        simpl. destruct (Z.eqb_spec n 0) as [->|_]; repeat split; reflexivity. }
      split; [intros j Hj; now apply lookup_insert_ne|congruence].
    + split; [split; [discriminate|intros [_ [? ?]]; discriminate]|].
      split; [discriminate|]. split; reflexivity.
  - rewrite (updateDoc_issue_undelivered _ _ _ Hd). simpl.
    split; [split; [discriminate|intros [? _]; contradiction]|].
    split; [intros; contradiction|]. split; reflexivity.
Qed.

(** X8. [updateIssueStatus] on an existing issue, delivered, changes
    the status and nothing else that is published; and a status update
    and an upvote update of the same issue leave the same documents
    whichever is delivered first. *)
Theorem updateIssueStatus_effect_and_order
    (issueId : JsString) (s : IssueStatus) (n : Z) (w : World) :
  deliveredFor 2 (faults w) ->
  (forall d now,
     issuesCol w !! issueId = Some d ->
     exists d', issuesCol (snd (updateIssueStatus issueId s w)) !! issueId = Some d' /\
       status (fromFirestore now d' issueId) = s /\
       upvotes (fromFirestore now d' issueId) = upvotes (fromFirestore now d issueId) /\
       comments (fromFirestore now d' issueId) = comments (fromFirestore now d issueId) /\
       title (fromFirestore now d' issueId) = title (fromFirestore now d issueId)) /\
  issuesCol (snd (updateIssueStatus issueId s (snd (updateIssueUpvotes issueId n w))))
  = issuesCol (snd (updateIssueUpvotes issueId n (snd (updateIssueStatus issueId s w)))).
Proof.
  intros (H1 & H2 & _). unfold updateIssueStatus, updateIssueUpvotes.
  change (upvotesRef issueId) with (issueRef issueId).
  rewrite !(updateDoc_issue_run _ _ w H1). cbv zeta. split.
  - intros d now Hd. rewrite Hd. simpl. eexists. split; [apply lookup_insert_eq|].
    repeat split.
  - destruct (issuesCol w !! issueId) as [d|] eqn:Hd; simpl.
    + rewrite !updateDoc_issue_run by exact H2. simpl.
      rewrite !lookup_insert_eq. simpl. rewrite !insert_insert_eq. reflexivity.
    + rewrite !updateDoc_issue_run by exact H2. simpl. rewrite Hd. reflexivity.
Qed.

Lemma updateIssueUpvotes_effect_witness :
  fst (updateIssueUpvotes (lit "i1") 4 Scenario.world) = Ok tt /\
  (exists d', issuesCol (snd (updateIssueUpvotes (lit "i1") 4 Scenario.world)) !! lit "i1"
              = Some d' /\ upvotes (fromFirestore 0 d' (lit "i1")) = 4) /\
  issuesCol (snd (updateIssueUpvotes (lit "gone") 4 Scenario.world))
  = issuesCol Scenario.world.
Proof.
  split; [|split].
  - apply (updateIssueUpvotes_effect (lit "i1") 4 Scenario.world).
    split; [unfold delivered; simpl; discriminate|vm_compute; eauto].
  - destruct (updateIssueUpvotes_effect (lit "i1") 4 Scenario.world) as (_ & H & _).
    destruct (H Samples.discussed 0) as (d' & Hd' & Hup & _);
      [unfold delivered; simpl; discriminate|vm_compute; reflexivity|].
    exists d'. split; assumption.
  - apply (updateIssueUpvotes_effect (lit "gone") 4 Scenario.world).
    vm_compute. discriminate.
Defined.

Lemma updateIssueStatus_effect_and_order_witness :
  issuesCol (snd (updateIssueStatus (lit "i1") Resolvido
                    (snd (updateIssueUpvotes (lit "i1") 4 Scenario.world))))
  = issuesCol (snd (updateIssueUpvotes (lit "i1") 4
                      (snd (updateIssueStatus (lit "i1") Resolvido Scenario.world)))).
Proof.
  apply (updateIssueStatus_effect_and_order (lit "i1") Resolvido 4 Scenario.world).
  simpl. repeat split; discriminate.
Defined.

(** A failed call, seen from the page: the set is as before and the
    failure is notified. *)
Lemma upvote_failed (p : Upvote.Page) (w : World) (user : Upvote.AppUser)
    (issueId : JsString) (n : Z) (e : Exn) :
  Upvote.appUser p = Some user ->
  issueId ∉ Upvote.upvotedIssues p ->
  fst (updateIssueUpvotes issueId (n + 1) w) = Throw e ->
  fst (Upvote.upvote issueId n p w)
  = Upvote.toast Upvote.upvoteFailed (Upvote.setUpvotedIssues (Upvote.upvotedIssues p) p).
Proof.
  intros Hu Hx Hfail. unfold Upvote.upvote.
  rewrite (handleUpvote_fresh p w user issueId n Hu Hx).
  rewrite updateIssueUpvotes_split in Hfail. simpl in Hfail.
  set (k := Upvote.Build_Pending _ _ _ _ _).
  rewrite (resumeUpvote_rejected k _ _ e Hfail).
  unfold Upvote.rollback. simpl. rewrite (delete_absent _ _ Hx). reflexivity.
Qed.

(** A delivered call on an existing issue, seen whole. *)
Lemma upvote_delivered (p : Upvote.Page) (w : World) (user : Upvote.AppUser)
    (issueId : JsString) (n : Z) (d : IssueData) :
  Upvote.appUser p = Some user ->
  issueId ∉ Upvote.upvotedIssues p ->
  Upvote.quotaExceeded p = false ->
  delivered w ->
  issuesCol w !! issueId = Some d ->
  Upvote.upvote issueId n p w =
    (Upvote.setItem (Upvote.ledgerKey user) (Upvote.upvotedIssues p ++ [issueId])
       (Upvote.setUpvotedIssues (Upvote.upvotedIssues p ++ [issueId]) p),
     withIssues <[issueId := setUpvotes (n + 1) d]>
       (withFaults tail
          (withRequests (fun l => l ++ [Upvote.upvoteRequest issueId (n + 1)]) w))).
Proof.
  intros Hu Hx Hq Hnet Hd. unfold Upvote.upvote.
  rewrite (handleUpvote_fresh p w user issueId n Hu Hx).
  unfold Upvote.resumeUpvote, settleUpdate, bind. simpl.
  rewrite transport_delivered by exact Hnet. simpl. rewrite Hd, Hq.
  unfold add. rewrite (has_false _ _ Hx). reflexivity.
Qed.

(** X7. Two signed-in clients that have both seen the count [c] upvote
    the same issue, and both calls are delivered: both pages show the
    issue as upvoted, and the stored count is [c + 1], not [c + 2]. *)
Theorem upvotes_of_two_clients_count_once
    (p1 p2 : Upvote.Page) (w : World) (u1 u2 : Upvote.AppUser)
    (issueId : JsString) (c : Z) (d : IssueData) :
  Upvote.appUser p1 = Some u1 -> Upvote.appUser p2 = Some u2 ->
  issueId ∉ Upvote.upvotedIssues p1 -> issueId ∉ Upvote.upvotedIssues p2 ->
  Upvote.quotaExceeded p1 = false -> Upvote.quotaExceeded p2 = false ->
  deliveredFor 2 (faults w) ->
  issuesCol w !! issueId = Some d ->
  let r1 := Upvote.upvote issueId c p1 w in
  let r2 := Upvote.upvote issueId c p2 (snd r1) in
  (issueId ∈ Upvote.upvotedIssues (fst r1)) /\
  (issueId ∈ Upvote.upvotedIssues (fst r2)) /\
  length (requests (snd r2)) = (length (requests w) + 2)%nat /\
  forall now, exists d',
    issuesCol (snd r2) !! issueId = Some d' /\
    upvotes (fromFirestore now d' issueId) = c + 1.
Proof.
  intros Ha1 Ha2 Hx1 Hx2 Hq1 Hq2 (Hn1 & Hn2 & _) Hd. cbv zeta.
  rewrite (upvote_delivered p1 w u1 issueId c d Ha1 Hx1 Hq1 Hn1 Hd). simpl.
  rewrite (upvote_delivered p2 _ u2 issueId c (setUpvotes (c + 1) d) Ha2 Hx2 Hq2);
    [|exact Hn2|apply lookup_insert_eq].
  simpl.
  split; [apply elem_of_app; right; now left|].
  split; [apply elem_of_app; right; now left|].
  split; [rewrite !length_app; simpl; lia|].
  intros now. eexists. split; [apply lookup_insert_eq|].
  simpl. destruct (Z.eqb_spec (c + 1) 0) as [->|_]; reflexivity.
Qed.

Lemma upvotes_of_two_clients_count_once_witness :
  let r1 := Upvote.upvote (lit "i0") 0 Upvote.samplePage Scenario.world in
  let r2 := Upvote.upvote (lit "i0") 0 Cases.otherPage (snd r1) in
  (lit "i0" ∈ Upvote.upvotedIssues (fst r1)) /\
  (lit "i0" ∈ Upvote.upvotedIssues (fst r2)) /\
  exists d', issuesCol (snd r2) !! lit "i0" = Some d' /\
             upvotes (fromFirestore 0 d' (lit "i0")) = 1.
Proof.
  destruct (upvotes_of_two_clients_count_once Upvote.samplePage Cases.otherPage
              Scenario.world Upvote.ana Cases.bia (lit "i0") 0 Samples.bare)
    as (H1 & H2 & _ & H3); try reflexivity.
  - apply (bool_decide_unpack _). vm_compute. reflexivity.
  - apply (bool_decide_unpack _). vm_compute. reflexivity.
  - simpl. repeat split; discriminate.
  - split; [exact H1|]. split; [exact H2|]. exact (H3 0).
Defined.

(** X9. [deleteIssue], delivered, succeeds whether or not the issue
    exists.  Afterwards the issue is gone and every other issue and every
    user document, the reporter's counter included, is as before; an
    upvote of the deleted issue fails and a signed-in page rolls it back
    with the failure notification; removing one of its comments fails. *)
Theorem deleteIssue_effect (issueId : JsString) (w : World) :
  delivered w ->
  let w' := snd (deleteIssue issueId w) in
  fst (deleteIssue issueId w) = Ok tt /\
  issuesCol w' !! issueId = None /\
  (forall j, j <> issueId -> issuesCol w' !! j = issuesCol w !! j) /\
  usersCol w' = usersCol w /\
  (forall n, fst (updateIssueUpvotes issueId n w') <> Ok tt) /\
  (forall (p : Upvote.Page) (user : Upvote.AppUser) (n : Z),
     Upvote.appUser p = Some user ->
     issueId ∉ Upvote.upvotedIssues p ->
     Upvote.upvotedIssues (fst (Upvote.upvote issueId n p w')) = Upvote.upvotedIssues p /\
     Upvote.toasts (fst (Upvote.upvote issueId n p w'))
     = Upvote.toasts p ++ [Upvote.upvoteFailed]) /\
  (forall commentId, exists e,
     fst (deleteCommentFromIssue issueId commentId w') = Throw e).
Proof.
  intros Hnet. cbv zeta. unfold deleteIssue, deleteDoc, bind, send. simpl.
  rewrite transport_delivered by exact Hnet. simpl.
  set (w' := withIssues _ _).
  assert (Hgone : issuesCol w' !! issueId = None) by apply lookup_delete_eq.
  assert (Hup : forall n, exists e, fst (updateIssueUpvotes issueId n w') = Throw e).
  { intros n. unfold updateIssueUpvotes.
    change (upvotesRef issueId) with (issueRef issueId).
    destruct (delivered_dec w') as [Hd|Hd].
    - rewrite (updateDoc_issue_run _ _ _ Hd). cbv zeta. rewrite Hgone. eauto.
    - rewrite (updateDoc_issue_undelivered _ _ _ Hd). eauto. }
  split; [reflexivity|]. split; [exact Hgone|].
  split; [intros j Hj; now apply lookup_delete_ne|].
  split; [reflexivity|].
  split; [intros n; destruct (Hup n) as [e ->]; discriminate|].
  split.
  - intros p user n Hu Hx. destruct (Hup (n + 1)) as [e He].
    rewrite (upvote_failed p w' user issueId n e Hu Hx He). split; reflexivity.
  - intros commentId. unfold deleteCommentFromIssue, bind.
    rewrite getDoc_run. simpl. change (issuesCol w !! issueId) with (issuesCol w !! issueId).
    destruct (bool_decide _); simpl; [eauto|].
    unfold w' in Hgone. simpl in Hgone. rewrite Hgone. eauto.
Qed.

Lemma deleteIssue_effect_witness :
  fst (deleteIssue (lit "i1") Scenario.world) = Ok tt /\
  issuesCol (snd (deleteIssue (lit "i1") Scenario.world)) !! lit "i1" = None /\
  Upvote.toasts (fst (Upvote.upvote (lit "i1") 3 Cases.otherPage
                        (snd (deleteIssue (lit "i1") Scenario.world))))
  = [Upvote.upvoteFailed].
Proof.
  destruct (deleteIssue_effect (lit "i1") Scenario.world)
    as (H1 & H2 & _ & _ & _ & H3 & _).
  - unfold delivered. simpl. discriminate.
  - split; [exact H1|]. split; [exact H2|].
    destruct (H3 Cases.otherPage Cases.bia 3) as [_ Ht]; [reflexivity| |exact Ht].
    apply (bool_decide_unpack _). vm_compute. reflexivity.
Defined.

(** ** Comments *)

Lemma find_hasId_None (commentId : JsString) (cs : list CommentData) :
  Forall (fun c => c_id c <> commentId) cs -> find (hasId commentId) cs = None.
Proof.
  induction 1 as [|c r Hc Hr IH]; simpl; [reflexivity|].
  unfold hasId at 1. now rewrite bool_decide_eq_false_2.
Qed.

Lemma find_hasId_Some (commentId : JsString) (cs : list CommentData) (c : CommentData) :
  find (hasId commentId) cs = Some c -> In c cs /\ c_id c = commentId.
Proof.
  intros H. apply find_some in H as [Hin Hc]. split; [exact Hin|].
  unfold hasId in Hc. now apply bool_decide_eq_true in Hc.
Qed.

Lemma find_hasId_snoc (cs : list CommentData) (c : CommentData) :
  Forall (fun x => c_id x <> c_id c) cs ->
  find (hasId (c_id c)) (cs ++ [c]) = Some c.
Proof.
  induction 1 as [|x r Hx Hr IH]; simpl.
  - unfold hasId. now rewrite bool_decide_eq_true_2.
  - unfold hasId at 1. now rewrite bool_decide_eq_false_2.
Qed.

Lemma filter_other_snoc (cs : list CommentData) (c : CommentData) :
  Forall (fun x => c_id x <> c_id c) cs ->
  filter (fun x => x <> c) (cs ++ [c]) = cs.
Proof.
  intros H. rewrite filter_app, filter_cons_False, filter_nil, app_nil_r by auto.
  induction H as [|x r Hx Hr IH]; [reflexivity|].
  rewrite filter_cons_True by congruence. now rewrite IH.
Qed.

Lemma filter_by_id (cs : list CommentData) (c : CommentData) :
  NoDup (map c_id cs) -> In c cs ->
  filter (fun x => x <> c) cs = filter (fun x => c_id x <> c_id c) cs.
Proof.
  induction cs as [|x r IH]; [reflexivity|].
  simpl. intros Hnd Hin. apply NoDup_cons in Hnd as [Hx Hnd].
  destruct (decide (x = c)) as [->|Hne].
  - rewrite !filter_cons_False by auto.
    clear IH Hin. induction r as [|y r IH]; [reflexivity|].
    simpl in Hx, Hnd. apply not_elem_of_cons in Hx as [Hy Hx].
    apply NoDup_cons in Hnd as [_ Hnd].
    rewrite !filter_cons_True by congruence. now rewrite IH.
  - destruct Hin as [?|Hin]; [contradiction|].
    assert (c_id x <> c_id c).
    { intros Heq. apply Hx. rewrite Heq. now apply list_elem_of_In, in_map. }
    rewrite !filter_cons_True by assumption. now rewrite IH.
Qed.

(** [deleteCommentFromIssue] when the comment is found. *)
Lemma deleteCommentFromIssue_found
    (issueId commentId : JsString) (w : World) (d : IssueData)
    (stored : list CommentData) (c : CommentData) :
  issuesCol w !! issueId = Some d ->
  d_comments d = Some stored ->
  find (hasId commentId) stored = Some c ->
  deliveredFor 2 (faults w) ->
  deleteCommentFromIssue issueId commentId w =
    (Ok tt,
     withIssues <[issueId := setComments (filter (fun x => x <> c) stored) d]>
       (withFaults tail
          (withRequests
             (fun l => l ++ [ReqUpdateDoc (issueRef issueId) (ArrayRemoveComments c)])
             (withFaults tail (withRequests (fun l => l ++ [readOf issueId]) w))))).
Proof.
  intros Hd Hcs Hfind (H1 & H2 & _). unfold deleteCommentFromIssue, bind.
  rewrite getDoc_run. rewrite bool_decide_eq_false_2 by exact H1.
  simpl. rewrite Hd, Hcs.
  match goal with
  | |- context [find ?f stored] =>
      change (find f stored) with (find (hasId commentId) stored)
  end.
  rewrite Hfind.
  change {| coll := Issues; docId := issueId |} with (issueRef issueId).
  rewrite updateDoc_issue_run by exact H2. simpl. rewrite Hd. simpl.
  rewrite Hcs. reflexivity.
Qed.

(** X13. The issue exists, its comments have distinct identifiers and
    one of them is [commentId]; both calls are delivered.  Then
    [deleteCommentFromIssue] succeeds without a warning, the stored
    comments are the former ones without that comment, in their order,
    and the rest of the issue and every other issue are as before. *)
Theorem deleteCommentFromIssue_removes
    (issueId commentId : JsString) (w : World) (d : IssueData)
    (stored : list CommentData) :
  issuesCol w !! issueId = Some d ->
  d_comments d = Some stored ->
  NoDup (map c_id stored) ->
  In commentId (map c_id stored) ->
  deliveredFor 2 (faults w) ->
  let w' := snd (deleteCommentFromIssue issueId commentId w) in
  fst (deleteCommentFromIssue issueId commentId w) = Ok tt /\
  issuesCol w' !! issueId
  = Some (setComments (filter (fun x => c_id x <> commentId) stored) d) /\
  (forall j, j <> issueId -> issuesCol w' !! j = issuesCol w !! j) /\
  console w' = console w.
Proof.
  intros Hd Hcs Hnd Hin Hnet. cbv zeta.
  destruct (find (hasId commentId) stored) as [c|] eqn:Hfind.
  - destruct (find_hasId_Some _ _ _ Hfind) as [Hc Hid].
    rewrite (deleteCommentFromIssue_found _ _ _ _ _ _ Hd Hcs Hfind Hnet). simpl.
    rewrite (filter_by_id stored c Hnd Hc), Hid.
    split; [reflexivity|]. split; [apply lookup_insert_eq|].
    split; [intros j Hj; now apply lookup_insert_ne|reflexivity].
  - exfalso. apply in_map_iff in Hin as (x & Hx & Hxin).
    apply (find_none _ _ Hfind) in Hxin. unfold hasId in Hxin.
    now rewrite bool_decide_eq_true_2 in Hxin.
Qed.

Lemma deleteCommentFromIssue_removes_witness :
  fst (deleteCommentFromIssue (lit "i1") (lit "b") Scenario.world) = Ok tt /\
  (map c_id <$> (issuesCol (snd (deleteCommentFromIssue (lit "i1") (lit "b") Scenario.world))
                   !! lit "i1" ≫= d_comments))
  = Some [lit "a"; lit "c"].
Proof.
  destruct (deleteCommentFromIssue_removes (lit "i1") (lit "b") Scenario.world
              Samples.discussed
              [Samples.comment "a" 10 0; Samples.comment "b" 30 0;
               Samples.comment "c" 20 500000000])
    as (H1 & H2 & _).
  - vm_compute. reflexivity.
  - reflexivity.
  - apply (bool_decide_unpack _). vm_compute. reflexivity.
  - simpl. tauto.
  - simpl. repeat split; discriminate.
  - split; [exact H1|]. rewrite H2. vm_compute. reflexivity.
Defined.

(** X10. [addCommentToIssue] refuses a comment, leaving the world as it
    was, exactly when the text is missing, empty or white space only, or
    when there is no user; any other call reaches the store. *)
Theorem addCommentToIssue_rejects_exactly
    (uuid : JsString) (now : Timestamp) (issueId : JsString)
    (text : option JsString) (user : option Auth.AppUser) (w : World) :
  (exists e, addCommentToIssue uuid now issueId text user w = (Throw e, w))
  <-> emptyOrWhitespace text \/ user = None.
Proof.
  unfold addCommentToIssue. split.
  - intros (e & He).
    destruct (blank text) eqn:Hb; [left; now apply blank_emptyOrWhitespace|].
    destruct user as [u|]; [|now right]. exfalso.
    destruct text as [t|]; [|discriminate].
    assert (Hreq : requests (snd (updateDoc (issueRef issueId)
                     (ArrayUnionComments (newCommentOf uuid now t u)) w))
                   = requests w ++ [ReqUpdateDoc (issueRef issueId)
                       (ArrayUnionComments (newCommentOf uuid now t u))]).
    { unfold updateDoc, bind at 1. simpl. now rewrite settleUpdate_requests. }
    rewrite He in Hreq. simpl in Hreq.
    apply (f_equal (@length Request)) in Hreq. rewrite length_app in Hreq.
    simpl in Hreq. lia.
  - intros [H| ->].
    + rewrite (emptyOrWhitespace_blank _ H). eauto.
    + destruct (blank text); eauto.
Qed.

Lemma addCommentToIssue_run
    (uuid : JsString) (now : Timestamp) (issueId text : JsString)
    (user : Auth.AppUser) (w : World) (d : IssueData) :
  trim text <> [] ->
  issuesCol w !! issueId = Some d ->
  Forall (fun c => c_id c <> uuid) (default [] (d_comments d)) ->
  delivered w ->
  addCommentToIssue uuid now issueId (Some text) (Some user) w =
    (Ok tt,
     withIssues <[issueId := setComments (default [] (d_comments d)
                                            ++ [newCommentOf uuid now text user]) d]>
       (withFaults tail
          (withRequests
             (fun l => l ++ [ReqUpdateDoc (issueRef issueId)
                               (ArrayUnionComments (newCommentOf uuid now text user))])
             w))).
Proof.
  intros Ht Hd Hfresh Hnet. unfold addCommentToIssue. simpl.
  destruct (trim text) eqn:Htrim; [congruence|]. simpl.
  rewrite updateDoc_issue_run by exact Hnet. cbv zeta. rewrite Hd. simpl.
  rewrite bool_decide_eq_false_2; [reflexivity|].
  intros Hin. rewrite Forall_forall in Hfresh. now apply (Hfresh _ Hin).
Qed.

(** X11. A user comments on an existing issue with a text that is not
    blank and an identifier no stored comment has; the call is delivered.
    The comment is appended to the stored ones (a missing list counts as
    empty), its text trimmed and its role the user's role at that
    moment, and the issue is then published with one comment more, the
    new one among them. *)
Theorem addCommentToIssue_effect
    (uuid : JsString) (now : Timestamp) (issueId text : JsString)
    (user : Auth.AppUser) (w : World) (d : IssueData) :
  trim text <> [] ->
  issuesCol w !! issueId = Some d ->
  Forall (fun c => c_id c <> uuid) (default [] (d_comments d)) ->
  delivered w ->
  let c := newCommentOf uuid now text user in
  let w' := snd (addCommentToIssue uuid now issueId (Some text) (Some user) w) in
  fst (addCommentToIssue uuid now issueId (Some text) (Some user) w) = Ok tt /\
  tidy (content c) /\ authorRole c = Auth.role user /\ author c <> [] /\
  exists d',
    issuesCol w' !! issueId = Some d' /\
    d_comments d' = Some (default [] (d_comments d) ++ [c]) /\
    forall t,
      In (convertComment c) (comments (fromFirestore t d' issueId)) /\
      length (comments (fromFirestore t d' issueId))
      = S (length (comments (fromFirestore t d issueId))) /\
      upvotes (fromFirestore t d' issueId) = upvotes (fromFirestore t d issueId).
Proof.
  intros Ht Hd Hfresh Hnet. cbv zeta.
  rewrite (addCommentToIssue_run _ _ _ _ _ _ _ Ht Hd Hfresh Hnet). simpl.
  split; [reflexivity|]. split; [now apply trim_tidy|]. split; [reflexivity|].
  split.
  { destruct (Auth.name user); [discriminate|simpl; congruence]. }
  eexists. split; [apply lookup_insert_eq|]. split; [reflexivity|].
  intros t. simpl. split; [|split; [|reflexivity]].
  - apply (Permutation_in _ (Permutation_sym (sort_perm newestFirst _))).
    rewrite map_app. apply in_app_iff. right. now left.
  - rewrite !(Permutation_length (sort_perm newestFirst _)).
    rewrite !length_map, length_app. simpl. lia.
Qed.

Lemma addCommentToIssue_effect_witness :
  fst (addCommentToIssue (lit "n1") Cases.noon (lit "i0") (Some (lit " Fixed! "))
         (Some Cases.carla) Scenario.world) = Ok tt /\
  exists d',
    issuesCol (snd (addCommentToIssue (lit "n1") Cases.noon (lit "i0")
                      (Some (lit " Fixed! ")) (Some Cases.carla) Scenario.world))
      !! lit "i0" = Some d' /\
    d_comments d'
    = Some [newCommentOf (lit "n1") Cases.noon (lit " Fixed! ") Cases.carla].
Proof.
  destruct (addCommentToIssue_effect (lit "n1") Cases.noon (lit "i0") (lit " Fixed! ")
              Cases.carla Scenario.world Samples.bare)
    as (H1 & _ & _ & _ & d' & H2 & H3 & _).
  - vm_compute. discriminate.
  - vm_compute. reflexivity.
  - constructor.
  - unfold delivered. simpl. discriminate.
  - split; [exact H1|]. exists d'. split; [exact H2|exact H3].
Defined.

(** X12. A comment added under an identifier no stored comment has, and
    then removed by that identifier, all three calls delivered: the stored
    comments are the ones from before the addition, and no warning is
    logged. *)
Theorem addCommentToIssue_then_delete
    (uuid : JsString) (now : Timestamp) (issueId text : JsString)
    (user : Auth.AppUser) (w : World) (d : IssueData) :
  trim text <> [] ->
  issuesCol w !! issueId = Some d ->
  Forall (fun c => c_id c <> uuid) (default [] (d_comments d)) ->
  deliveredFor 3 (faults w) ->
  let w1 := snd (addCommentToIssue uuid now issueId (Some text) (Some user) w) in
  let w2 := snd (deleteCommentFromIssue issueId uuid w1) in
  fst (deleteCommentFromIssue issueId uuid w1) = Ok tt /\
  issuesCol w2 !! issueId = Some (setComments (default [] (d_comments d)) d) /\
  (forall j, j <> issueId -> issuesCol w2 !! j = issuesCol w !! j) /\
  console w2 = console w.
Proof.
  intros Ht Hd Hfresh (H1 & H2 & H3 & _). cbv zeta.
  rewrite (addCommentToIssue_run _ _ _ _ _ _ _ Ht Hd Hfresh H1). simpl.
  set (c := newCommentOf uuid now text user).
  set (w1 := withIssues _ _).
  assert (Hfind : find (hasId uuid) (default [] (d_comments d) ++ [c]) = Some c)
    by (apply (find_hasId_snoc _ c); exact Hfresh).
  rewrite (deleteCommentFromIssue_found issueId uuid w1 _ _ c
             (lookup_insert_eq _ _ _) eq_refl Hfind);
    [|simpl; repeat split; assumption].
  simpl. rewrite (filter_other_snoc _ c Hfresh).
  split; [reflexivity|].
  split; [rewrite lookup_insert_eq; reflexivity|].
  split; [|reflexivity].
  intros j Hj. rewrite !lookup_insert_ne by congruence. reflexivity.
Qed.

Lemma addCommentToIssue_then_delete_witness :
  (d_comments <$>
     issuesCol (snd (deleteCommentFromIssue (lit "i1") (lit "n1")
                  (snd (addCommentToIssue (lit "n1") Cases.noon (lit "i1")
                          (Some (lit "ok")) (Some Cases.carla) Scenario.world))))
       !! lit "i1")
  = Some (d_comments Samples.discussed).
Proof.
  destruct (addCommentToIssue_then_delete (lit "n1") Cases.noon (lit "i1") (lit "ok")
              Cases.carla Scenario.world Samples.discussed)
    as (_ & H & _).
  - vm_compute. discriminate.
  - vm_compute. reflexivity.
  - repeat constructor; discriminate.
  - simpl. repeat split; discriminate.
  - rewrite H. reflexivity.
Defined.

(** ** The order of comments, in general *)

Section Stability.
Context {A : Type} (cmp : A -> A -> Z) (key : A -> Z).
Hypothesis Hcmp : forall a b, cmp a b = key b - key a.

Lemma insert_sorted_same_key (k : Z) (x : A) (l : list A) :
  filter (fun a => key a = k) (Js.insert_sorted cmp x l)
  = filter (fun a => key a = k) (x :: l).
Proof.
  induction l as [|y r IH]; [reflexivity|].
  simpl. rewrite Hcmp. destruct (Z.leb_spec (key y - key x) 0) as [Hle|Hgt];
    [reflexivity|].
  rewrite filter_cons, IH.
  destruct (decide (key y = k)) as [Hy|Hy].
  - rewrite (filter_cons_False _ x) by lia.
    rewrite (filter_cons_False _ x) by lia.
    now rewrite filter_cons_True.
  - rewrite !(filter_cons _ x). destruct (decide (key x = k));
      now rewrite filter_cons_False.
Qed.

Lemma sort_same_key (k : Z) (l : list A) :
  filter (fun a => key a = k) (Js.sort cmp l) = filter (fun a => key a = k) l.
Proof.
  induction l as [|x r IH]; [reflexivity|].
  simpl. rewrite insert_sorted_same_key, !filter_cons, IH. reflexivity.
Qed.

End Stability.

(** X14. For every stored record the published comments are the stored
    ones, each converted, none lost or repeated, from the newest to the
    oldest; comments of the same creation time stay in their stored
    order. *)
Theorem fromFirestore_comments_order (now : Date) (data : IssueData) (id : JsString) :
  Permutation (comments (fromFirestore now data id))
              (map convertComment (default [] (d_comments data))) /\
  StronglySorted (fun a b : Comment => createdAt b <= createdAt a)
                 (comments (fromFirestore now data id)) /\
  forall t : Date,
    filter (fun c : Comment => createdAt c = t) (comments (fromFirestore now data id))
    = filter (fun c : Comment => createdAt c = t)
             (map convertComment (default [] (d_comments data))).
Proof.
  split; [apply fromFirestore_comments_perm|].
  split; [apply fromFirestore_comments_descending|].
  intros t. apply (sort_same_key newestFirst createdAt). reflexivity.
Qed.

(** ** [Set], as a list *)

Lemma fold_add_spec (l acc : list JsString) :
  NoDup acc ->
  NoDup (fold_left add l acc) /\
  (forall x, x ∈ fold_left add l acc <-> x ∈ acc \/ x ∈ l).
Proof.
  revert acc. induction l as [|y r IH]; intros acc Hnd; simpl.
  - split; [exact Hnd|]. intros x. rewrite elem_of_nil. tauto.
  - assert (Hnd' : NoDup (add acc y)).
    { unfold add, has. destruct (bool_decide_reflect (y ∈ acc)); [exact Hnd|].
      apply NoDup_app. split; [exact Hnd|]. split; [|apply NoDup_singleton].
      intros x Hx Hy. apply list_elem_of_singleton in Hy. now subst. }
    destruct (IH _ Hnd') as [H1 H2]. split; [exact H1|].
    intros x. rewrite H2, elem_of_cons. unfold add, has.
    destruct (bool_decide_reflect (y ∈ acc)) as [Hy|Hy].
    + split; [tauto|]. intros [?|[->|?]]; auto.
    + rewrite elem_of_app, list_elem_of_singleton. tauto.
Qed.

Lemma newSet_NoDup (l : list JsString) : NoDup (newSet l).
Proof. apply fold_add_spec. constructor. Qed.

Lemma newSet_elem (l : list JsString) (x : JsString) : x ∈ newSet l <-> x ∈ l.
Proof.
  unfold newSet. destruct (fold_add_spec l [] (NoDup_nil_2)) as [_ H].
  rewrite H, elem_of_nil. tauto.
Qed.

Lemma fold_add_fresh (l acc : list JsString) :
  NoDup (acc ++ l) -> fold_left add l acc = acc ++ l.
Proof.
  revert acc. induction l as [|y r IH]; intros acc Hnd; simpl.
  - now rewrite app_nil_r.
  - assert (Hy : y ∉ acc).
    { apply NoDup_app in Hnd as (_ & Hd & _). intros Hin.
      apply (Hd y Hin). now left. }
    unfold add at 2. rewrite (has_false _ _ Hy).
    rewrite IH; rewrite <- app_assoc; [reflexivity|exact Hnd].
Qed.

(** A list without repetition is the array of its own [Set]. *)
Lemma newSet_fixed (l : list JsString) : NoDup l -> newSet l = l.
Proof. intros H. unfold newSet. now rewrite fold_add_fresh. Qed.

(** ** The filter on the pages that can occur *)

Section FilterFacts.
Import CategoryFilter.

Lemma setIssues_run (l : list Issue) (p : Page) :
  fresh p ->
  setIssues l p =
    {| issues := {| ref := nextRef p; items := l |};
       selectedCategories :=
         if (0 <? length (distinctCategories l))%nat
         then distinctCategories l else selectedCategories p;
       memo := Some (nextRef p, {| ref := S (nextRef p);
                                   items := distinctCategories l |});
       effectDep := Some (S (nextRef p));
       nextRef := S (S (nextRef p)) |}.
Proof.
  intros (Hi & Hm & He).
  unfold setIssues, render, useMemo_allCategories, useEffect_select. simpl.
  destruct (memo p) as [[dep v]|] eqn:Hmemo.
  - destruct (Hm dep v eq_refl) as [Hdep Hv].
    destruct (Nat.eqb_spec dep (nextRef p)) as [Heq|_]; [lia|]. simpl.
    destruct (effectDep p) as [d|] eqn:Hd; simpl; [|reflexivity].
    specialize (He d eq_refl).
    destruct (Nat.eqb_spec d (S (nextRef p))) as [Heq|_]; [lia|]. reflexivity.
  - simpl. destruct (effectDep p) as [d|] eqn:Hd; simpl; [|reflexivity].
    specialize (He d eq_refl).
    destruct (Nat.eqb_spec d (S (nextRef p))) as [Heq|_]; [lia|]. reflexivity.
Qed.

Lemma handleCategoryChange_run (c : JsString) (p : Page) :
  settledPage p ->
  handleCategoryChange c p =
    {| issues := issues p; selectedCategories := toggled c (selectedCategories p);
       memo := memo p; effectDep := effectDep p; nextRef := nextRef p |}.
Proof.
  intros (v & Hm & He & _).
  unfold handleCategoryChange, render, useMemo_allCategories, useEffect_select.
  simpl. rewrite Hm, Nat.eqb_refl. simpl. rewrite He, Nat.eqb_refl. reflexivity.
Qed.

Lemma toggled_NoDup (c : JsString) (l : list JsString) : NoDup l -> NoDup (toggled c l).
Proof.
  intros H. unfold toggled, includes.
  destruct (bool_decide_reflect (c ∈ l)) as [Hc|Hc].
  - now apply NoDup_filter.
  - apply NoDup_app. split; [exact H|]. split; [|apply NoDup_singleton].
    intros x Hx Hy. apply list_elem_of_singleton in Hy. now subst.
Qed.

Lemma step_reachable (p : Page) (e : Event) : reachablePage p -> reachablePage (step p e).
Proof.
  intros (Hf & Hs & Hnd). destruct e as [l|c]; simpl.
  - split; [now apply setIssues_fresh|]. rewrite (setIssues_run l p Hf). split.
    + eexists. simpl. repeat split.
    + simpl. destruct (0 <? _)%nat; [apply newSet_NoDup|exact Hnd].
  - split; [now apply handleCategoryChange_fresh|].
    rewrite (handleCategoryChange_run c p Hs). split.
    + destruct Hs as (v & Hm & He & Hv). exists v. simpl. auto.
    + simpl. now apply toggled_NoDup.
Qed.

Lemma run_reachable (es : list Event) : reachablePage (run es).
Proof.
  unfold run.
  assert (H0 : reachablePage initial).
  { split; [apply initial_fresh|]. split; [|constructor].
    eexists. vm_compute. repeat split. }
  revert H0. generalize initial.
  induction es as [|e es IH]; intros p Hp; simpl; [exact Hp|].
  apply IH. now apply step_reachable.
Qed.

Lemma filter_all {A} (f : A -> bool) (l : list A) :
  (forall x, In x l -> f x = true) -> List.filter f l = l.
Proof.
  induction l as [|x r IH]; intros H; [reflexivity|].
  simpl. rewrite (H x (or_introl eq_refl)). f_equal. apply IH.
  intros y Hy. apply H. now right.
Qed.

Lemma category_in_distinct (l : list Issue) (i : Issue) :
  In i l -> category i ∈ distinctCategories l.
Proof.
  intros H. apply newSet_elem, list_elem_of_In, in_map, H.
Qed.

End FilterFacts.

Lemma useMemo_filteredIssues_setIssues (l : list Issue) (p : CategoryFilter.Page) :
  CategoryFilter.fresh p ->
  CategoryFilter.useMemo_filteredIssues (CategoryFilter.setIssues l p) = l.
Proof.
  intros Hf. rewrite (setIssues_run l _ Hf).
  unfold CategoryFilter.useMemo_filteredIssues. simpl.
  apply filter_all. intros i Hi.
  pose proof (category_in_distinct l i Hi) as Hc.
  destruct (CategoryFilter.distinctCategories l) as [|c r] eqn:Hdl.
  - now apply elem_of_nil in Hc.
  - simpl. unfold CategoryFilter.includes. now rewrite bool_decide_eq_true_2.
Qed.

(** ** The panel's sort *)

Section SortFilter.
Context {A : Type} (cmp : A -> A -> Z) (key : A -> Z).
Hypothesis Hcmp : forall a b, cmp a b = key b - key a.

Lemma insert_sorted_first (x : A) (l : list A) :
  (forall y, In y l -> key y <= key x) -> Js.insert_sorted cmp x l = x :: l.
Proof.
  destruct l as [|y r]; intros H; simpl; [reflexivity|].
  rewrite Hcmp. specialize (H y (or_introl eq_refl)).
  destruct (Z.leb_spec (key y - key x) 0); [reflexivity|lia].
Qed.

(** Filtering a sorted array and inserting, in either order. *)
Lemma filter_insert_sorted (f : A -> bool) (x : A) (l : list A) :
  StronglySorted (descending key) l ->
  List.filter f (Js.insert_sorted cmp x l)
  = if f x then Js.insert_sorted cmp x (List.filter f l) else List.filter f l.
Proof.
  induction 1 as [|y r Hr IH Hy].
  - simpl. destruct (f x); reflexivity.
  - cbn [Js.insert_sorted]. rewrite Hcmp.
    destruct (Z.leb_spec (key y - key x) 0) as [Hle|Hgt].
    + cbn [List.filter]. destruct (f x); [|reflexivity].
      symmetry. apply insert_sorted_first.
      intros z Hz.
      assert (Hin : In z (y :: r)).
      { destruct (f y); [destruct Hz as [<-|Hz]; [now left|right]|right];
          now apply filter_In in Hz. }
      destruct Hin as [<-|Hin]; [lia|].
      rewrite Forall_forall in Hy. apply list_elem_of_In, Hy in Hin.
      unfold descending in Hin. lia.
    + cbn [List.filter]. rewrite IH.
      destruct (f y), (f x); try reflexivity.
      cbn [Js.insert_sorted]. rewrite Hcmp.
      destruct (Z.leb_spec (key y - key x) 0); [lia|reflexivity].
Qed.

(** The stable sort keeps, of any part of the array, the arrangement it
    would give that part alone. *)
Lemma filter_sort (f : A -> bool) (l : list A) :
  List.filter f (Js.sort cmp l) = Js.sort cmp (List.filter f l).
Proof.
  induction l as [|x r IH]; [reflexivity|].
  cbn [Js.sort fold_right]. fold (Js.sort cmp r).
  rewrite filter_insert_sorted by (apply (sort_descending cmp key Hcmp)).
  rewrite IH. cbn [List.filter]. destruct (f x); reflexivity.
Qed.

(** An array of one key is left as it is. *)
Lemma sort_same_keys (t : Z) (l : list A) :
  (forall x, In x l -> key x = t) -> Js.sort cmp l = l.
Proof.
  induction l as [|x r IH]; intros H; [reflexivity|].
  cbn [Js.sort fold_right]. fold (Js.sort cmp r).
  rewrite IH by (intros y Hy; apply H; now right).
  apply insert_sorted_first. intros y Hy.
  rewrite (H x (or_introl eq_refl)), (H y (or_intror Hy)). lia.
Qed.

End SortFilter.

Lemma RecentIssuesPanelContent_sort (l : list Issue) :
  CategoryFilter.RecentIssuesPanelContent l = Js.sort CategoryFilter.latestFirst l.
Proof. destruct l; reflexivity. Qed.

Lemma filteredIssues_sorted (p : CategoryFilter.Page) :
  CategoryFilter.filteredIssues p
  = Js.sort CategoryFilter.latestFirst (CategoryFilter.useMemo_filteredIssues p).
Proof. apply RecentIssuesPanelContent_sort. Qed.

(** The panel puts the later report first, and leaves alone an array
    that already has it first. *)
Example RecentIssuesPanelContent_rearranges :
  let older := Cases.reportedOn 1000 (CategoryFilter.sampleIssue "i0" "Roads") in
  let newer := Cases.reportedOn 2000 (CategoryFilter.sampleIssue "i1" "Roads") in
  CategoryFilter.RecentIssuesPanelContent [older; newer] = [newer; older] /\
  CategoryFilter.RecentIssuesPanelContent [newer; older] = [newer; older].
Proof. split; reflexivity. Qed.

(** X15. After every snapshot the page shows every issue of the
    snapshot, whatever was ticked before: the filter lets all of them
    through, and the panel has arranged them from the latest report to
    the earliest, issues of the same report time in the order of the
    snapshot. *)
Theorem snapshot_shows_every_issue (es : list CategoryFilter.Event) (l : list Issue) :
  let page := CategoryFilter.step (CategoryFilter.run es) (CategoryFilter.Snapshot l) in
  CategoryFilter.filteredIssues page = Js.sort CategoryFilter.latestFirst l /\
  Permutation (CategoryFilter.filteredIssues page) l /\
  StronglySorted (descending reportedAt) (CategoryFilter.filteredIssues page) /\
  (forall t : Date,
      List.filter (fun i => reportedAt i =? t) (CategoryFilter.filteredIssues page)
      = List.filter (fun i => reportedAt i =? t) l) /\
  CategoryFilter.allCategories page = CategoryFilter.distinctCategories l.
Proof.
  cbv zeta. destruct (run_reachable es) as (Hf & _). simpl.
  rewrite filteredIssues_sorted, (useMemo_filteredIssues_setIssues _ _ Hf).
  split; [reflexivity|]. split; [apply sort_perm|].
  split; [apply (sort_descending CategoryFilter.latestFirst reportedAt); reflexivity|].
  split.
  - intros t. rewrite (filter_sort CategoryFilter.latestFirst reportedAt) by reflexivity.
    apply (sort_same_keys CategoryFilter.latestFirst reportedAt) with (t := t);
      [reflexivity|].
    intros i Hi. apply filter_In in Hi as [_ Hi]. now apply Z.eqb_eq in Hi.
  - rewrite (setIssues_run l _ Hf). reflexivity.
Qed.

Section ToggleFacts.
Import CategoryFilter.

Lemma useMemo_filteredIssues_toggle (c : JsString) (p : Page) :
  settledPage p ->
  useMemo_filteredIssues (handleCategoryChange c p) =
  List.filter
    (fun issue =>
       (length (toggled c (selectedCategories p)) =? 0)%nat
       || includes (toggled c (selectedCategories p)) (category issue))
    (items (issues p)).
Proof. intros H. now rewrite (handleCategoryChange_run c p H). Qed.

Lemma includes_toggled (c x : JsString) (l : list JsString) :
  x <> c -> includes (toggled c l) x = includes l x.
Proof.
  intros Hne. unfold toggled, includes.
  destruct (bool_decide_reflect (c ∈ l)) as [Hc|Hc]; apply bool_decide_ext.
  - rewrite list_elem_of_filter. tauto.
  - rewrite elem_of_app, list_elem_of_singleton. tauto.
Qed.

Lemma filter_ext_in {A} (f g : A -> bool) (l : list A) :
  (forall x, In x l -> f x = g x) -> List.filter f l = List.filter g l.
Proof.
  induction l as [|x r IH]; intros H; [reflexivity|].
  simpl. rewrite (H x (or_introl eq_refl)), IH; [reflexivity|].
  intros y Hy. apply H. now right.
Qed.

Lemma filter_twice {A} (f g : A -> bool) (l : list A) :
  List.filter g (List.filter f l) = List.filter (fun x => f x && g x) l.
Proof.
  induction l as [|x r IH]; [reflexivity|].
  simpl. destruct (f x); simpl; [destruct (g x)|]; now rewrite IH.
Qed.

End ToggleFacts.

(** X16. On a page that events can produce, unticking a category while
    another one stays ticked hides exactly the issues of that category:
    what is shown afterwards is what was shown before, without them. *)
Theorem untick_hides_that_category
    (es : list CategoryFilter.Event) (c other : JsString) :
  let p := CategoryFilter.run es in
  c ∈ CategoryFilter.selectedCategories p ->
  other ∈ CategoryFilter.selectedCategories p ->
  other <> c ->
  CategoryFilter.filteredIssues (CategoryFilter.step p (CategoryFilter.Toggle c))
  = List.filter (fun issue => negb (bool_decide (category issue = c)))
                (CategoryFilter.filteredIssues p).
Proof.
  cbv zeta. intros Hc Ho Hne.
  destruct (run_reachable es) as (_ & Hs & Hnd). simpl.
  rewrite !filteredIssues_sorted.
  rewrite (filter_sort CategoryFilter.latestFirst reportedAt) by reflexivity.
  f_equal.
  rewrite (useMemo_filteredIssues_toggle c _ Hs).
  set (sel := CategoryFilter.selectedCategories (CategoryFilter.run es)) in *.
  unfold CategoryFilter.useMemo_filteredIssues. fold sel.
  rewrite filter_twice. apply filter_ext_in. intros i _.
  assert (Hsel : (length sel =? 0)%nat = false).
  { destruct sel; [now apply elem_of_nil in Hc|reflexivity]. }
  assert (Htog : toggled c sel = filter (fun x => x <> c) sel).
  { unfold toggled, CategoryFilter.includes. now rewrite bool_decide_eq_true_2. }
  assert (Hlen : (length (toggled c sel) =? 0)%nat = false).
  { rewrite Htog.
    assert (Hin : other ∈ filter (fun x => x <> c) sel)
      by (apply list_elem_of_filter; auto).
    destruct (filter _ sel); [now apply elem_of_nil in Hin|reflexivity]. }
  rewrite Hsel, Hlen. simpl.
  destruct (bool_decide_reflect (category i = c)) as [Heq|Hneq]; simpl.
  - rewrite Htog. unfold CategoryFilter.includes.
    rewrite bool_decide_eq_false_2; [now rewrite andb_false_r|].
    rewrite list_elem_of_filter. tauto.
  - rewrite (includes_toggled c (category i) sel Hneq). now rewrite andb_true_r.
Qed.

Lemma untick_hides_that_category_witness :
  let roads := CategoryFilter.sampleIssue "i1" "Roads" in
  let lamp := CategoryFilter.sampleIssue "i2" "Lighting" in
  CategoryFilter.filteredIssues
    (CategoryFilter.step (CategoryFilter.run [CategoryFilter.Snapshot [roads; lamp]])
       (CategoryFilter.Toggle (lit "Roads")))
  = [lamp].
Proof.
  cbv zeta.
  rewrite (untick_hides_that_category [CategoryFilter.Snapshot _] (lit "Roads")
             (lit "Lighting")).
  - vm_compute. reflexivity.
  - apply (bool_decide_unpack _). vm_compute. reflexivity.
  - apply (bool_decide_unpack _). vm_compute. reflexivity.
  - discriminate.
Defined.

(** X17. On a page that events can produce, unticking the only ticked
    category does not hide everything: every issue of the page is
    shown, from the latest report to the earliest. *)
Theorem untick_last_shows_everything (es : list CategoryFilter.Event) (c : JsString) :
  let p := CategoryFilter.run es in
  CategoryFilter.selectedCategories p = [c] ->
  CategoryFilter.selectedCategories (CategoryFilter.step p (CategoryFilter.Toggle c)) = [] /\
  CategoryFilter.filteredIssues (CategoryFilter.step p (CategoryFilter.Toggle c))
  = Js.sort CategoryFilter.latestFirst (CategoryFilter.items (CategoryFilter.issues p)) /\
  Permutation
    (CategoryFilter.filteredIssues (CategoryFilter.step p (CategoryFilter.Toggle c)))
    (CategoryFilter.items (CategoryFilter.issues p)).
Proof.
  cbv zeta. intros Hsel. destruct (run_reachable es) as (_ & Hs & _). simpl.
  rewrite filteredIssues_sorted.
  rewrite (useMemo_filteredIssues_toggle c _ Hs), (handleCategoryChange_run c _ Hs), Hsel.
  assert (Ht : toggled c [c] = []).
  { unfold toggled, CategoryFilter.includes.
    rewrite bool_decide_eq_true_2 by (now left).
    now rewrite filter_cons_False, filter_nil by auto. }
  rewrite Ht. simpl. split; [reflexivity|].
  rewrite filter_all by reflexivity.
  split; [reflexivity | apply sort_perm].
Qed.

Lemma untick_last_shows_everything_witness :
  let older := Cases.reportedOn 1000 (CategoryFilter.sampleIssue "i1" "Roads") in
  let newer := Cases.reportedOn 2000 (CategoryFilter.sampleIssue "i3" "Roads") in
  CategoryFilter.filteredIssues
    (CategoryFilter.step (CategoryFilter.run [CategoryFilter.Snapshot [older; newer]])
       (CategoryFilter.Toggle (lit "Roads")))
  = [newer; older].
Proof.
  cbv zeta.
  destruct (untick_last_shows_everything
              [CategoryFilter.Snapshot
                 [Cases.reportedOn 1000 (CategoryFilter.sampleIssue "i1" "Roads");
                  Cases.reportedOn 2000 (CategoryFilter.sampleIssue "i3" "Roads")]]
              (lit "Roads")) as (_ & H & _).
  - vm_compute. reflexivity.
  - rewrite H. vm_compute. reflexivity.
Defined.

Lemma toggled_twice_elem (c x : JsString) (l : list JsString) :
  x ∈ toggled c (toggled c l) <-> x ∈ l.
Proof.
  unfold toggled at 2. unfold CategoryFilter.includes.
  destruct (bool_decide_reflect (c ∈ l)) as [Hc|Hc].
  - unfold toggled, CategoryFilter.includes.
    rewrite bool_decide_eq_false_2 by (rewrite list_elem_of_filter; tauto).
    rewrite elem_of_app, list_elem_of_filter, list_elem_of_singleton.
    split; [intros [[_ ?]| ->]; assumption|].
    intros Hx. destruct (decide (x = c)); auto.
  - unfold toggled, CategoryFilter.includes.
    rewrite bool_decide_eq_true_2
      by (apply elem_of_app; right; now apply list_elem_of_singleton).
    rewrite list_elem_of_filter, elem_of_app, list_elem_of_singleton.
    split; [intros [Hne [?| ->]]; [assumption|contradiction]|].
    intros Hx. split; [congruence|now left].
Qed.

Lemma shown_by_members (l1 l2 : list JsString) (issues : list Issue) :
  (forall x, x ∈ l1 <-> x ∈ l2) ->
  List.filter (fun i => (length l1 =? 0)%nat || CategoryFilter.includes l1 (category i)) issues
  = List.filter (fun i => (length l2 =? 0)%nat || CategoryFilter.includes l2 (category i)) issues.
Proof.
  intros H. apply filter_ext_in. intros i _. f_equal.
  - destruct l1 as [|a r1], l2 as [|b r2]; try reflexivity.
    + exfalso. apply (elem_of_nil b), H. now left.
    + exfalso. apply (elem_of_nil a), H. now left.
  - unfold CategoryFilter.includes. apply bool_decide_ext, H.
Qed.

(** X18. On a page that events can produce, ticking or unticking a
    category and then doing it again shows the same issues as before. *)
Theorem toggle_twice_same_view (es : list CategoryFilter.Event) (c : JsString) :
  CategoryFilter.filteredIssues
    (CategoryFilter.run (es ++ [CategoryFilter.Toggle c; CategoryFilter.Toggle c]))
  = CategoryFilter.filteredIssues (CategoryFilter.run es).
Proof.
  unfold CategoryFilter.run. rewrite fold_left_app. simpl.
  fold (CategoryFilter.run es).
  pose proof (run_reachable es) as Hr.
  pose proof (step_reachable _ (CategoryFilter.Toggle c) Hr) as (_ & Hs1 & _).
  destruct Hr as (_ & Hs & _). simpl in Hs1.
  rewrite !filteredIssues_sorted. f_equal.
  rewrite (useMemo_filteredIssues_toggle c _ Hs1).
  rewrite (handleCategoryChange_run c _ Hs). simpl.
  apply shown_by_members. intros x. apply toggled_twice_elem.
Qed.

(** X19. On every page that events can produce, the list of categories
    offered for ticking names exactly the categories of the current
    issues, each once, and no category is ticked twice. *)
Theorem categories_offered (es : list CategoryFilter.Event) :
  let p := CategoryFilter.run es in
  NoDup (CategoryFilter.allCategories p) /\
  (forall c, c ∈ CategoryFilter.allCategories p
             <-> exists i, In i (CategoryFilter.items (CategoryFilter.issues p))
                           /\ category i = c) /\
  NoDup (CategoryFilter.selectedCategories p).
Proof.
  cbv zeta. destruct (run_reachable es) as (_ & (v & Hm & _ & Hv) & Hnd).
  unfold CategoryFilter.allCategories. rewrite Hm, Hv.
  split; [apply newSet_NoDup|]. split; [|exact Hnd].
  intros c. unfold CategoryFilter.distinctCategories.
  rewrite newSet_elem, list_elem_of_In, in_map_iff.
  split; intros (i & H1 & H2); exists i; auto.
Qed.

(** ** The ledger of upvotes *)

Lemma ledgerKey_inj (u1 u2 : Upvote.AppUser) :
  Upvote.ledgerKey u1 = Upvote.ledgerKey u2 -> Upvote.uid u1 = Upvote.uid u2.
Proof.
  unfold Upvote.ledgerKey. intros H.
  apply app_inv_head in H. now apply app_inv_head in H.
Qed.

(** X20. After an upvote that the store accepted, a later session of the
    same user that starts from the same local storage loads exactly the
    upvoted set the page ended with, the new issue included, so the
    issue cannot be upvoted again from there. *)
Theorem ledger_round_trip (p q : Upvote.Page) (w : World) (user : Upvote.AppUser)
    (issueId : JsString) (n : Z) (d : IssueData) :
  Upvote.appUser p = Some user ->
  issueId ∉ Upvote.upvotedIssues p ->
  NoDup (Upvote.upvotedIssues p) ->
  Upvote.quotaExceeded p = false ->
  delivered w ->
  issuesCol w !! issueId = Some d ->
  Upvote.appUser q = Some user ->
  Upvote.localStorage q = Upvote.localStorage (fst (Upvote.upvote issueId n p w)) ->
  Upvote.upvotedIssues (Upvote.loadUpvoted q)
  = Upvote.upvotedIssues (fst (Upvote.upvote issueId n p w)) /\
  (issueId ∈ Upvote.upvotedIssues (Upvote.loadUpvoted q)) /\
  forall m w2,
    Upvote.handleUpvote (Upvote.render (Upvote.loadUpvoted q)) issueId m
      (Upvote.loadUpvoted q) w2
    = (Upvote.loadUpvoted q, w2, None).
Proof.
  intros Hu Hx Hnd Hq Hnet Hd Huq Hls.
  rewrite (upvote_delivered p w user issueId n d Hu Hx Hq Hnet Hd) in *.
  simpl in *.
  assert (Hload : Upvote.upvotedIssues (Upvote.loadUpvoted q)
                  = Upvote.upvotedIssues p ++ [issueId]).
  { unfold Upvote.loadUpvoted. rewrite Huq, Hls, lookup_insert_eq. simpl.
    apply newSet_fixed. apply NoDup_app. split; [exact Hnd|].
    split; [|apply NoDup_singleton].
    intros x Hxin Hxs. apply list_elem_of_singleton in Hxs. now subst. }
  assert (Hin : issueId ∈ Upvote.upvotedIssues (Upvote.loadUpvoted q)).
  { rewrite Hload. apply elem_of_app. right. now left. }
  split; [exact Hload|]. split; [exact Hin|].
  intros m w2. apply (handleUpvote_already _ _ user); [|exact Hin].
  unfold Upvote.loadUpvoted. rewrite Huq.
  destruct (Upvote.localStorage q !! Upvote.ledgerKey user); exact Huq.
Qed.

Lemma ledger_round_trip_witness :
  let p' := fst (Upvote.upvote (lit "i0") 0 Upvote.samplePage Scenario.world) in
  let q := Upvote.setUpvotedIssues [] p' in
  Upvote.upvotedIssues (Upvote.loadUpvoted q) = [lit "i1"; lit "i0"].
Proof.
  cbv zeta.
  destruct (ledger_round_trip Upvote.samplePage
              (Upvote.setUpvotedIssues []
                 (fst (Upvote.upvote (lit "i0") 0 Upvote.samplePage Scenario.world)))
              Scenario.world Upvote.ana (lit "i0") 0 Samples.bare)
    as (H & _).
  - reflexivity.
  - apply (bool_decide_unpack _). vm_compute. reflexivity.
  - apply (bool_decide_unpack _). vm_compute. reflexivity.
  - reflexivity.
  - unfold delivered. simpl. discriminate.
  - vm_compute. reflexivity.
  - reflexivity.
  - reflexivity.
  - rewrite H. vm_compute. reflexivity.
Defined.

Lemma upvote_storage (p : Upvote.Page) (w : World) (issueId : JsString) (n : Z) :
  Upvote.localStorage (fst (Upvote.upvote issueId n p w)) = Upvote.localStorage p \/
  exists user v, Upvote.appUser p = Some user /\
    Upvote.localStorage (fst (Upvote.upvote issueId n p w))
    = <[Upvote.ledgerKey user := v]> (Upvote.localStorage p).
Proof.
  unfold Upvote.upvote, Upvote.handleUpvote. simpl.
  destruct (Upvote.appUser p) as [user|] eqn:Hu; [|left; reflexivity].
  destruct (has (Upvote.upvotedIssues p) issueId); [left; reflexivity|].
  unfold Upvote.resumeUpvote. simpl.
  destruct (settleUpdate _ _ _) as [[[]|e] w']; simpl; [|left; reflexivity].
  destruct (Upvote.quotaExceeded p); [left; reflexivity|].
  right. exists user. eexists. split; reflexivity.
Qed.

(** X21. Whatever happens to an upvote, the ledger of every other user
    in the same local storage is left as it was. *)
Theorem ledger_of_others_untouched
    (p : Upvote.Page) (w : World) (issueId : JsString) (n : Z)
    (user other : Upvote.AppUser) :
  Upvote.appUser p = Some user ->
  Upvote.uid other <> Upvote.uid user ->
  Upvote.localStorage (fst (Upvote.upvote issueId n p w)) !! Upvote.ledgerKey other
  = Upvote.localStorage p !! Upvote.ledgerKey other.
Proof.
  intros Hu Hne.
  destruct (upvote_storage p w issueId n) as [->|(u & v & Hu' & ->)]; [reflexivity|].
  apply lookup_insert_ne. intros Heq. apply Hne. symmetry.
  apply ledgerKey_inj. congruence.
Qed.

Lemma ledger_of_others_untouched_witness :
  Upvote.localStorage (fst (Upvote.upvote (lit "i0") 0 Cases.otherPage Scenario.world))
    !! Upvote.ledgerKey Upvote.ana
  = Upvote.localStorage Cases.otherPage !! Upvote.ledgerKey Upvote.ana.
Proof.
  apply (ledger_of_others_untouched Cases.otherPage Scenario.world (lit "i0") 0
           Cases.bia Upvote.ana); [reflexivity|discriminate].
Defined.

Lemma settleUpdate_undelivered (r : DocRef) (u : Update) (w : World) :
  head (faults w) = Some true ->
  settleUpdate r u w = (Throw (FirestoreError "unavailable"), withFaults tail w).
Proof.
  intros H. unfold settleUpdate, bind. now rewrite transport_failed.
Qed.

Lemma settleUpdate_issue (issueId : JsString) (u : Update) (w : World) (d : IssueData) :
  delivered w ->
  issuesCol w !! issueId = Some d ->
  settleUpdate (upvotesRef issueId) u w
  = (Ok tt, withIssues <[issueId := applyToIssue u d]> (withFaults tail w)).
Proof.
  intros H Hd. unfold settleUpdate, bind. rewrite transport_delivered by exact H.
  simpl. now rewrite Hd.
Qed.

(** X22. Two upvotes overlap: the user upvotes [a], and while that call
    is pending upvotes [b]; then the call for [a] fails and the call for
    [b] is accepted.  The page ends with neither issue in the upvoted
    set and one failure notification, the store holds the new count of
    [b], and the ledger written to local storage lists both [a] and
    [b]. *)
Theorem overlapping_upvotes
    (p : Upvote.Page) (w : World) (user : Upvote.AppUser)
    (a b : JsString) (n m : Z) (d : IssueData) :
  Upvote.appUser p = Some user ->
  a ∉ Upvote.upvotedIssues p -> b ∉ Upvote.upvotedIssues p -> a <> b ->
  Upvote.quotaExceeded p = false ->
  head (faults w) = Some true ->
  head (tail (faults w)) <> Some true ->
  issuesCol w !! b = Some d ->
  exists p1 w1 ka p2 w2 kb,
    Upvote.handleUpvote (Upvote.render p) a n p w = (p1, w1, Some ka) /\
    Upvote.handleUpvote (Upvote.render p1) b m p1 w1 = (p2, w2, Some kb) /\
    let r3 := Upvote.resumeUpvote ka p2 w2 in
    let r4 := Upvote.resumeUpvote kb (fst r3) (snd r3) in
    Upvote.upvotedIssues (fst r4) = Upvote.upvotedIssues p /\
    Upvote.toasts (fst r4) = Upvote.toasts p ++ [Upvote.upvoteFailed] /\
    Upvote.localStorage (fst r4) !! Upvote.ledgerKey user
    = Some (Upvote.upvotedIssues p ++ [a; b]) /\
    issuesCol (snd r4) !! b = Some (setUpvotes (m + 1) d).
Proof.
  intros Hu Ha Hb Hab Hq Hf1 Hf2 Hd.
  assert (Hadd : add (Upvote.upvotedIssues p) a = Upvote.upvotedIssues p ++ [a]).
  { unfold add. now rewrite (has_false _ _ Ha). }
  assert (Hb1 : b ∉ Upvote.upvotedIssues p ++ [a]).
  { rewrite elem_of_app, list_elem_of_singleton. intros [?|?]; [auto|congruence]. }
  eexists _, _, _, _, _, _.
  split; [apply (handleUpvote_fresh p w user a n Hu Ha)|].
  split.
  { rewrite (handleUpvote_fresh _ _ user b m); [reflexivity|exact Hu|].
    simpl. now rewrite Hadd. }
  cbv zeta. unfold Upvote.resumeUpvote. simpl.
  rewrite (settleUpdate_undelivered (upvotesRef a)) by exact Hf1. simpl.
  rewrite (settleUpdate_issue b _ _ d) by (unfold delivered; simpl; assumption).
  simpl. rewrite Hq. simpl.
  rewrite (delete_absent _ _ Ha), Hadd.
  unfold add. rewrite (has_false _ _ Hb1), <- app_assoc. simpl.
  split; [reflexivity|]. split; [reflexivity|].
  split; apply lookup_insert_eq.
Qed.

Lemma overlapping_upvotes_witness :
  exists p1 w1 ka p2 w2 kb,
    Upvote.handleUpvote (Upvote.render Upvote.samplePage) (lit "i9") 0
      Upvote.samplePage Scenario.offline = (p1, w1, Some ka) /\
    Upvote.handleUpvote (Upvote.render p1) (lit "i0") 0 p1 w1 = (p2, w2, Some kb) /\
    let r3 := Upvote.resumeUpvote ka p2 w2 in
    let r4 := Upvote.resumeUpvote kb (fst r3) (snd r3) in
    Upvote.upvotedIssues (fst r4) = Upvote.upvotedIssues Upvote.samplePage /\
    Upvote.toasts (fst r4) = Upvote.toasts Upvote.samplePage ++ [Upvote.upvoteFailed] /\
    Upvote.localStorage (fst r4) !! Upvote.ledgerKey Upvote.ana
    = Some (Upvote.upvotedIssues Upvote.samplePage ++ [lit "i9"; lit "i0"]) /\
    issuesCol (snd r4) !! lit "i0" = Some (setUpvotes (0 + 1) Samples.bare).
Proof.
  apply (overlapping_upvotes Upvote.samplePage Scenario.offline Upvote.ana).
  - reflexivity.
  - apply (bool_decide_unpack _). vm_compute. reflexivity.
  - apply (bool_decide_unpack _). vm_compute. reflexivity.
  - discriminate.
  - reflexivity.
  - reflexivity.
  - simpl. discriminate.
  - vm_compute. reflexivity.
Defined.

(** ** The session *)

Section AuthFacts.
Import Auth.

Lemma call_delivered (q : Call) (c : Ctx) :
  head (outages c) <> Some true -> call q c = (Ok tt, logged q c).
Proof. unfold call. destruct (outages c) as [|[] ?]; simpl; congruence. Qed.

Lemma call_failed (q : Call) (c : Ctx) :
  head (outages c) = Some true ->
  call q c = (Throw (FirestoreError "unavailable"), logged q c).
Proof. unfold call. destruct (outages c) as [|[] ?]; simpl; congruence. Qed.

Lemma getUser_delivered (id : JsString) (c : Ctx) :
  head (outages c) <> Some true ->
  getUser id c = (Ok (profiles c !! id), logged (GetUser id) c).
Proof. intros H. unfold getUser, andThen. now rewrite call_delivered. Qed.

Lemma getUser_failed (id : JsString) (c : Ctx) :
  head (outages c) = Some true ->
  getUser id c = (Throw (FirestoreError "unavailable"), logged (GetUser id) c).
Proof. intros H. unfold getUser, andThen. now rewrite call_failed. Qed.

Lemma getUser_profiles (id : JsString) (c : Ctx) :
  profiles (snd (getUser id c)) = profiles c /\
  calls (snd (getUser id c)) = calls c ++ [GetUser id] /\
  (forall d, fst (getUser id c) = Ok d -> d = profiles c !! id).
Proof.
  unfold getUser, andThen, call.
  destruct (outages c) as [|[] ?]; simpl; repeat split; intros; congruence.
Qed.

Lemma orElse_spec (a b : option JsString) :
  orElse a b = b \/ exists s, orElse a b = Some s /\ s <> [].
Proof.
  unfold orElse. destruct a as [[|x r]|]; simpl; auto.
  right. eexists. split; [reflexivity|discriminate].
Qed.

Lemma newName_nonempty (user : User) (n : option JsString) : newName user n <> [].
Proof.
  unfold newName.
  destruct (orElse_spec (orElse (orElse n (u_displayName user))
                                (option_map beforeAt (u_email user)))
                        (Some defaultName)) as [->|(s & -> & Hs)];
    [discriminate|exact Hs].
Qed.

End AuthFacts.

(** [handleNewUser], run. *)
Lemma handleNewUser_run (now : Date) (user : Auth.User) (name : option JsString)
    (c : Auth.Ctx) :
  let id := Auth.u_uid user in
  let data := Auth.newUserDocData user name in
  let c1 := Auth.logged (Auth.GetUser id) c in
  Auth.handleNewUser now user name c =
    if bool_decide (head (Auth.outages c) = Some true)
    then (Throw (FirestoreError "unavailable"), c1)
    else
      match Auth.profiles c !! id with
      | Some d =>
          if bool_decide (head (tail (Auth.outages c)) = Some true)
          then (Throw (FirestoreError "unavailable"), Auth.logged (Auth.GetUser id) c1)
          else (Ok tt,
                Auth.setIsAdmin (Auth.isAdminRole (Auth.pd_role d))
                  (Auth.setAppUser (Some (Auth.toAppUser now d))
                     (Auth.logged (Auth.GetUser id) c1)))
      | None =>
          if bool_decide (head (tail (Auth.outages c)) = Some true)
          then (Throw (FirestoreError "unavailable"),
                Auth.logged (Auth.SetUser id data) c1)
          else (Ok tt,
                Auth.setAppUser (Some (Auth.newAppUser now data))
                  (Auth.withProfile id (Auth.storedAs (Auth.serverNow c) data)
                     (Auth.logged (Auth.SetUser id data) c1)))
      end.
Proof.
  cbv zeta.
  unfold Auth.handleNewUser, Auth.fetchAppUser, Auth.setUser, Auth.getUser,
    Auth.andThen, Auth.call, Auth.modify, Auth.pure.
  destruct c as [au ap il ia st pr cl [|[] [|[] ?]] sn]; simpl;
    destruct (pr !! Auth.u_uid user) eqn:E; simpl; rewrite ?E; reflexivity.
Qed.

(** X23. [handleNewUser] for a user who already has a profile never
    writes: the users collection is as before and only reads are issued.
    When its two reads are delivered it loads that profile, so an
    administrator who registers or signs in again remains one. *)
Theorem handleNewUser_keeps_profile
    (now : Date) (user : Auth.User) (name : option JsString) (c : Auth.Ctx)
    (d : Auth.AppUserData) :
  Auth.profiles c !! Auth.u_uid user = Some d ->
  let c' := snd (Auth.handleNewUser now user name c) in
  Auth.profiles c' = Auth.profiles c /\
  (exists l, Auth.calls c' = Auth.calls c ++ l /\
             Forall (fun q => q = Auth.GetUser (Auth.u_uid user)) l) /\
  (deliveredFor 2 (Auth.outages c) ->
   fst (Auth.handleNewUser now user name c) = Ok tt /\
   Auth.appUser c' = Some (Auth.toAppUser now d) /\
   Auth.isAdmin c' = Auth.isAdminRole (Auth.pd_role d)).
Proof.
  intros Hd. cbv zeta. rewrite handleNewUser_run, Hd.
  destruct (bool_decide_reflect (head (Auth.outages c) = Some true)) as [Hf|Hf]; simpl.
  - split; [reflexivity|]. split; [eexists; split; [reflexivity|repeat constructor]|].
    intros (H1 & _). contradiction.
  - destruct (bool_decide_reflect (head (tail (Auth.outages c)) = Some true))
      as [Hf2|Hf2]; simpl.
    + split; [reflexivity|].
      split; [exists [Auth.GetUser (Auth.u_uid user); Auth.GetUser (Auth.u_uid user)];
              split; [now rewrite <- app_assoc|repeat constructor]|].
      intros (_ & H2 & _). contradiction.
    + split; [reflexivity|].
      split; [exists [Auth.GetUser (Auth.u_uid user); Auth.GetUser (Auth.u_uid user)];
              split; [now rewrite <- app_assoc|repeat constructor]|].
      intros _. repeat split.
Qed.

Lemma handleNewUser_keeps_profile_witness :
  Auth.profiles (snd (Auth.handleNewUser 0 Cases.carlaUser (Some (lit "Eve")) Cases.provider))
  = Auth.profiles Cases.provider /\
  Auth.isAdmin (snd (Auth.handleNewUser 0 Cases.carlaUser (Some (lit "Eve")) Cases.provider))
  = true.
Proof.
  destruct (handleNewUser_keeps_profile 0 Cases.carlaUser (Some (lit "Eve"))
              Cases.provider Cases.carlaData) as (H1 & _ & H2).
  - vm_compute. reflexivity.
  - split; [exact H1|]. destruct H2 as (_ & _ & ->); [|reflexivity].
    simpl. repeat split; discriminate.
Defined.

(** X24. [handleNewUser] for a user without a profile, its read and its
    write delivered: the profile is created with the role "user", a
    counter of zero and a name that is not empty, no other profile
    changes, and the session holds the new profile; the administrator
    flag is not touched. *)
Theorem handleNewUser_creates_profile
    (now : Date) (user : Auth.User) (name : option JsString) (c : Auth.Ctx) :
  Auth.profiles c !! Auth.u_uid user = None ->
  deliveredFor 2 (Auth.outages c) ->
  let c' := snd (Auth.handleNewUser now user name c) in
  fst (Auth.handleNewUser now user name c) = Ok tt /\
  (exists d, Auth.profiles c' !! Auth.u_uid user = Some d /\
             Auth.pd_role d = RoleUser /\ Auth.pd_issuesReported d = Some 0 /\
             Auth.pd_name d <> [] /\ Auth.pd_uid d = Auth.u_uid user /\
             Auth.pd_createdAt d = Some (Auth.serverNow c) /\
             exists profile, Auth.appUser c' = Some profile /\
                             Auth.role profile = RoleUser /\
                             Auth.name profile = Auth.pd_name d /\
                             Auth.issuesReported profile = 0) /\
  (forall j, j <> Auth.u_uid user -> Auth.profiles c' !! j = Auth.profiles c !! j) /\
  Auth.isAdmin c' = Auth.isAdmin c /\
  Auth.calls c' = Auth.calls c ++
                  [Auth.GetUser (Auth.u_uid user);
                   Auth.SetUser (Auth.u_uid user) (Auth.newUserDocData user name)].
Proof.
  intros Hnone (H1 & H2 & _). cbv zeta. rewrite handleNewUser_run, Hnone.
  rewrite !bool_decide_eq_false_2 by assumption. simpl.
  split; [reflexivity|]. split.
  - eexists. split; [apply lookup_insert_eq|]. simpl.
    repeat split; [apply newName_nonempty|].
    eexists. repeat split.
  - split; [intros j Hj; now apply lookup_insert_ne|].
    split; [reflexivity|]. now rewrite <- app_assoc.
Qed.

Lemma handleNewUser_creates_profile_witness :
  (Auth.pd_name <$> Auth.profiles (snd (Auth.handleNewUser 0 Cases.dani None Cases.provider))
     !! lit "u7") = Some (lit "dani") /\
  Auth.profiles (snd (Auth.handleNewUser 0 Cases.dani None Cases.provider)) !! lit "u3"
  = Some Cases.carlaData.
Proof.
  destruct (handleNewUser_creates_profile 0 Cases.dani None Cases.provider)
    as (_ & _ & H & _).
  - vm_compute. reflexivity.
  - simpl. repeat split; discriminate.
  - split; [vm_compute; reflexivity|].
    rewrite (H (lit "u3")) by discriminate. vm_compute. reflexivity.
Defined.

Ltac run_auth c :=
  unfold Auth.onAuthStateChanged, Auth.handleNewUser, Auth.fetchAppUser,
    Auth.setUser, Auth.getUser, Auth.andThen, Auth.call, Auth.modify, Auth.pure;
  destruct c as [au ap il ia st pr cl out sn]; simpl in *.

(** X25. A user signs in and the calls to the users collection are
    delivered.  When the listener has finished, the session is no longer
    loading, it holds the user and a profile, the user has a stored
    profile, and the administrator flag is set exactly when the profile
    that was stored before has the role "admin"; a profile created on the
    way never gives it.  The tutorial is shown if it was already, or if
    this is the first sign-in and the tutorial was not completed. *)
Theorem onAuthStateChanged_signed_in
    (now : Date) (tutorialCompleted : option JsString) (user : Auth.User) (c : Auth.Ctx) :
  deliveredFor 3 (Auth.outages c) ->
  let c' := snd (Auth.onAuthStateChanged now tutorialCompleted (Some user) c) in
  fst (Auth.onAuthStateChanged now tutorialCompleted (Some user) c) = Ok tt /\
  Auth.isLoading c' = false /\
  Auth.authUser c' = Some user /\
  is_Some (Auth.appUser c') /\
  is_Some (Auth.profiles c' !! Auth.u_uid user) /\
  (Auth.isAdmin c' = true
   <-> exists d, Auth.profiles c !! Auth.u_uid user = Some d /\ Auth.pd_role d = RoleAdmin) /\
  (Auth.showTutorial c' = true
   <-> Auth.showTutorial c = true \/
       (Auth.creationTime user = Auth.lastSignInTime user /\
        tutorialCompleted <> Some (lit "true"))).
Proof.
  intros Hnet. cbv zeta.
  assert (Hcond : bool_decide (Auth.creationTime user = Auth.lastSignInTime user)
                  && Auth.notCompleted tutorialCompleted = true
                  <-> Auth.creationTime user = Auth.lastSignInTime user /\
                      tutorialCompleted <> Some (lit "true")).
  { unfold Auth.notCompleted.
    destruct (bool_decide_reflect (Auth.creationTime user = Auth.lastSignInTime user));
      destruct (bool_decide_reflect (tutorialCompleted = Some (lit "true")));
      simpl; intuition congruence. }
  unfold Auth.onAuthStateChanged.
  destruct (bool_decide (Auth.creationTime user = Auth.lastSignInTime user)
            && Auth.notCompleted tutorialCompleted) eqn:Hb;
    run_auth c; destruct Hnet as (H1 & H2 & H3 & _);
    destruct out as [|[] [|[] [|[] ?]]]; simpl in *; try congruence;
    destruct (pr !! Auth.u_uid user) as [d|] eqn:E; simpl; rewrite ?E; simpl;
    rewrite ?lookup_insert_eq;
    (split; [reflexivity|]); (split; [reflexivity|]); (split; [reflexivity|]);
    (split; [eauto|]); (split; [eauto|]);
    (split;
     [first [ split; [intros Hd; exists d; split; [reflexivity|];
                      destruct (Auth.pd_role d); [discriminate|reflexivity]
                     |intros (d' & Hd' & Hr); injection Hd' as <-; now rewrite Hr]
            | split; [discriminate|intros (d' & Hd' & _); discriminate] ]
     |clear - Hcond; destruct st; intuition congruence]).
Qed.

Lemma onAuthStateChanged_signed_in_witness :
  Auth.isAdmin (snd (Auth.onAuthStateChanged 0 None (Some Cases.carlaUser) Cases.provider))
  = true /\
  Auth.isLoading (snd (Auth.onAuthStateChanged 0 None (Some Cases.carlaUser) Cases.provider))
  = false.
Proof.
  destruct (onAuthStateChanged_signed_in 0 None Cases.carlaUser Cases.provider)
    as (_ & H2 & _ & _ & _ & H6 & _).
  - simpl. repeat split; discriminate.
  - split; [|exact H2]. apply H6. exists Cases.carlaData.
    split; [vm_compute|]; reflexivity.
Defined.

(** X26. A user signs in and the read of the profile is not delivered.
    The listener fails, and the session is left loading for good, with
    the new user in it but with the profile and the administrator flag of
    whoever was there before. *)
Theorem onAuthStateChanged_read_fails
    (now : Date) (tutorialCompleted : option JsString) (user : Auth.User) (c : Auth.Ctx) :
  head (Auth.outages c) = Some true ->
  let c' := snd (Auth.onAuthStateChanged now tutorialCompleted (Some user) c) in
  fst (Auth.onAuthStateChanged now tutorialCompleted (Some user) c)
  = Throw (FirestoreError "unavailable") /\
  Auth.isLoading c' = true /\
  Auth.authUser c' = Some user /\
  Auth.appUser c' = Auth.appUser c /\
  Auth.isAdmin c' = Auth.isAdmin c /\
  Auth.profiles c' = Auth.profiles c.
Proof.
  intros Hf. cbv zeta. run_auth c.
  destruct out as [|[] ?]; simpl in *; try congruence.
  destruct (bool_decide _ && _); simpl; repeat split.
Qed.

Lemma onAuthStateChanged_read_fails_witness :
  Auth.isLoading
    (snd (Auth.onAuthStateChanged 0 None (Some Cases.dani)
            (Auth.mounted ∅ [true] Cases.noon))) = true.
Proof.
  apply (onAuthStateChanged_read_fails 0 None Cases.dani
           (Auth.mounted ∅ [true] Cases.noon)).
  reflexivity.
Defined.

(** ** From the store to the page *)


(** A snapshot that lists an older report before a newer one is shown
    the other way round. *)
Example listenToIssues_rearranged :
  let older := (lit "i0", Samples.withComments []) in
  let newer := (lit "i1", setReportedAt (Some Cases.noon) (Samples.withComments [])) in
  map id (CategoryFilter.filteredIssues
            (listenToIssues CategoryFilter.setIssues 0 [older; newer]
               CategoryFilter.initial))
  = [lit "i1"; lit "i0"].
Proof. vm_compute. reflexivity. Qed.

(** ** Markers *)

(** X28. The colour of a pin and the variant of a badge each tell the
    three statuses apart, and they go together: green with "success",
    yellow with "warning", blue with "info". *)
Theorem status_is_told_apart (s1 s2 : IssueStatus) :
  (getPinColor s1 = getPinColor s2 -> s1 = s2) /\
  (getStatusVariant s1 = getStatusVariant s2 -> s1 = s2) /\
  (getPinColor s1 = "text-green-500"%string <-> getStatusVariant s1 = "success"%string) /\
  (getPinColor s1 = "text-yellow-500"%string <-> getStatusVariant s1 = "warning"%string) /\
  (getPinColor s1 = "text-sky-500"%string <-> getStatusVariant s1 = "info"%string).
Proof.
  destruct s1, s2; simpl; repeat split; intros; (reflexivity || discriminate).
Qed.
